(** * Phrase-to-word alignment and PDF error annotation

    A shallow embedding of the annotation scripts of the repository:
    [Annotation.py] (exact match, adjacency-constrained partial alignment and
    the per-paragraph set of used word indices), [pdf_error_annotator.py]
    (the [PDFErrorAnnotator] class: containment test, phrase parser,
    exact-match selection and the whole-paragraph fallback) and the
    script-local containment test of [Simple.py].

    Python [str] values are lists of characters, word indices are natural
    numbers, the [used_indices] set is a finite set of naturals, coordinates
    are exact rationals, and exceptions are an explicit error result. *)

From Stdlib Require Import Ascii String QArith Qminmax Qabs Lqa.
From stdpp Require Import base list gmap sets.

Set Warnings "-clear-no-such-hyp".

Open Scope nat_scope.

(** ** Python strings *)

Abbreviation str := (list ascii).

(** A string literal of the sources. *)
Definition py (s : string) : str := list_ascii_of_string s.

Definition space : ascii := " "%char.

(** [s.startswith(p)] *)
Fixpoint startswith (s p : str) : bool :=
  match p, s with
  | [], _ => true
  | _ :: _, [] => false
  | c :: p', d :: s' => if Ascii.eqb c d then startswith s' p' else false
  end.

(** [s.find(p)], scanning from offset [pos]: the leftmost offset at which [p]
    occurs, [None] standing for Python's [-1]. *)
Fixpoint find_from (s p : str) (pos : nat) : option nat :=
  if startswith s p then Some pos
  else match s with
       | [] => None
       | _ :: s' => find_from s' p (S pos)
       end.

Definition find (s p : str) : option nat := find_from s p 0.

(** [p in s] *)
Definition contains (s p : str) : bool :=
  match find s p with Some _ => true | None => false end.

(** [" ".join(l)] *)
Fixpoint join_space (l : list str) : str :=
  match l with
  | [] => []
  | [w] => w
  | w :: l' => w ++ space :: join_space l'
  end.

(** ["".join(l)] *)
Definition join_empty (l : list str) : str := concat l.

(** [s.replace(" ", "")] *)
Definition remove_spaces (s : str) : str :=
  List.filter (fun c => negb (Ascii.eqb c space)) s.

(** The characters [str.split()] treats as separators: the code points below
    256 for which [str.isspace()] holds. *)
Definition is_whitespace (c : ascii) : bool :=
  let n := nat_of_ascii c in
  ((9 <=? n) && (n <=? 13)) || ((28 <=? n) && (n <=? 32))
  || (n =? 133) || (n =? 160).

(** [s.split()]: maximal runs of non-whitespace characters, in order.
    [cur] is the token being read, reversed. *)
Fixpoint split_ws (s : str) (cur : str) : list str :=
  match s with
  | [] => match cur with [] => [] | _ => [rev cur] end
  | c :: s' =>
      if is_whitespace c
      then match cur with
           | [] => split_ws s' []
           | _ => rev cur :: split_ws s' []
           end
      else split_ws s' (c :: cur)
  end.

Definition split (s : str) : list str := split_ws s [].

(** ** Exceptions *)

Inductive exn := IndexError | KeyError | TypeError | ValueError.

Inductive result (A : Type) :=
| Ok (a : A)
| Raise (e : exn).
Arguments Ok {A} a.
Arguments Raise {A} e.

(** Sequencing: an exception ends the computation. *)
#[global] Instance result_bind : MBind result := fun A B k r =>
  match r with
  | Ok a => k a
  | Raise e => Raise e
  end.

(** [l[i]] for a non-negative index. *)
Definition index {A} (l : list A) (i : nat) : result A :=
  match l !! i with
  | Some a => Ok a
  | None => Raise IndexError
  end.

(** [df.loc[idxs, col].tolist()] on a frame whose index was reset: a label
    that is not a row position raises. *)
Fixpoint loc {A} (rows : list A) (idxs : list nat) : result (list A) :=
  match idxs with
  | [] => Ok []
  | i :: idxs' =>
      match rows !! i with
      | Some a => l ← loc rows idxs'; Ok (a :: l)
      | None => Raise KeyError
      end
  end.

(** ** Geometry *)

(** A bounding box [[x0, y0, x1, y1]]; [b[0]] .. [b[3]] are the fields. *)
Record bbox := Box { bx0 : Q; by0 : Q; bx1 : Q; by1 : Q }.

(** [phrase_bboxes.sort(key=lambda b: b[1])]: the sort is stable, so a box
    goes in front of the boxes of equal key that followed it. *)
Fixpoint insert_by_y (b : bbox) (l : list bbox) : list bbox :=
  match l with
  | [] => [b]
  | c :: l' =>
      if Qle_bool (by0 b) (by0 c) then b :: c :: l'
      else c :: insert_by_y b l'
  end.

Definition sort_by_y (l : list bbox) : list bbox := foldr insert_by_y [] l.

(** [line_groups[-1].append(b)] *)
Definition append_to_last (line_groups : list (list bbox)) (b : bbox)
  : result (list (list bbox)) :=
  match reverse line_groups with
  | [] => Raise IndexError
  | g :: gs => Ok (reverse gs ++ [g ++ [b]])
  end.

(** The loop [for k in range(1, len(phrase_bboxes))] that groups the sorted
    boxes into lines; [ks] is the range still to visit. *)
Fixpoint group_lines (LINE_TOLERANCE : Q) (phrase_bboxes : list bbox)
    (ks : list nat) (line_groups : list (list bbox))
  : result (list (list bbox)) :=
  match ks with
  | [] => Ok line_groups
  | k :: ks' =>
      bk ← index phrase_bboxes k;
      bp ← index phrase_bboxes (k - 1);
      if Qle_bool (Qabs (by0 bk - by0 bp)) LINE_TOLERANCE
      then lg ← append_to_last line_groups bk;
           group_lines LINE_TOLERANCE phrase_bboxes ks' lg
      else group_lines LINE_TOLERANCE phrase_bboxes ks' (line_groups ++ [[bk]])
  end.

(** [min(...)] and [max(...)] over a generator: empty input raises. *)
Definition min_of (l : list Q) : result Q :=
  match l with
  | [] => Raise ValueError
  | x :: l' => Ok (foldl Qmin x l')
  end.

Definition max_of (l : list Q) : result Q :=
  match l with
  | [] => Raise ValueError
  | x :: l' => Ok (foldl Qmax x l')
  end.

(** The rectangle drawn for one line group. *)
Definition line_rect (line : list bbox) : result bbox :=
  x0 ← min_of (map bx0 line);
  y0 ← min_of (map by0 line);
  x1 ← max_of (map bx1 line);
  y1 ← max_of (map by1 line);
  Ok (Box x0 y0 x1 y1).

Fixpoint line_rects (line_groups : list (list bbox)) : result (list bbox) :=
  match line_groups with
  | [] => Ok []
  | line :: rest =>
      r ← line_rect line;
      rs ← line_rects rest;
      Ok (r :: rs)
  end.

(** Sorting, line grouping and one rectangle per line: the block shared by
    every script once [phrase_bboxes] has been fetched. *)
Definition grouped_rects (LINE_TOLERANCE : Q) (boxes : list bbox)
  : result (list bbox) :=
  let phrase_bboxes := sort_by_y boxes in
  first ← index phrase_bboxes 0;
  line_groups ← group_lines LINE_TOLERANCE phrase_bboxes
                  (seq 1 (length phrase_bboxes - 1)) [[first]];
  line_rects line_groups.

(** ** The page and its annotations *)

Inductive colour := EXACT_MATCH_COLOR | POTENTIAL_ERROR_COLOR.

(** One highlight annotation: its rectangle, the stroke colour when one was
    set, and the [content] entry of its info dictionary. *)
Record annot := Annot {
  annot_rect : bbox;
  annot_stroke : option colour;
  annot_content : str
}.

(** ** Word rows *)

(** A span identifier after [safe_literal_eval]: an empty cell reads as NaN,
    anything else as a literal value. *)
Inductive span_id :=
| SpanNaN
| SpanVal (v : list Z).

(** Python's [a != b] on span identifiers: NaN differs from everything,
    itself included. *)
Definition span_ne (a b : span_id) : bool :=
  match a, b with
  | SpanVal u, SpanVal v => negb (bool_decide (u = v))
  | _, _ => true
  end.

(** One row of the word window [matching_rows] (the frame after filtering
    and [reset_index]). The box column is called "Bounding Box" in
    [Annotation.py] and "Clipbounds" in the other scripts. *)
Record word_row := WordRow {
  Content : str;
  Clipbounds : bbox;
  Spans : span_id;
  Next_Word_Span : span_id
}.

Definition all_words_string (matching_rows : list word_row) : str :=
  join_space (map Content matching_rows).

(** ** [Annotation.py]: the alignment pass over one paragraph

    The body of the paragraph loop from the point where [matching_rows] is
    known to be non-empty: [all_words_string], the [used_indices] set, and
    for every phrase the direct match followed, when it selects nothing, by
    the partial matching. *)

Module Annotation.

Definition LINE_TOLERANCE : Q := 2.

(** The paragraph-local state: the set [used_indices] and the highlight
    annotations added to the page so far. *)
Record state := State {
  used_indices : gset nat;
  annots : list annot
}.

(** The scan [for idx, word in enumerate(matching_rows["Content"])] of the
    direct match, with its [break]: [contents] are the words from position
    [idx] on and [current_position] the offset of the first of them. *)
Fixpoint direct_match_scan (used : gset nat) (match_start len_error : nat)
    (contents : list str) (idx current_position : nat) : list nat :=
  match contents with
  | [] => []
  | word :: rest =>
      let word_len := length word in
      let selected :=
        if (match_start <=? current_position)
           && (current_position <? match_start + len_error)
        then negb (bool_decide (idx ∈ used))
        else if (current_position <? match_start + len_error)
                && (match_start <=? current_position + word_len)
        then negb (bool_decide (idx ∈ used))
        else false in
      let current_position' := current_position + word_len + 1 in
      (if selected then [idx] else [])
      ++ (if match_start + len_error <? current_position' then []
          else direct_match_scan used match_start len_error rest
                 (S idx) current_position')
  end.

(** One entry of [all_matches]. *)
Record candidate := Candidate {
  sequence : list nat;
  text : str;
  is_full_match : bool;
  length_ : nat;
  sub_error : str;
  original_error : str
}.

(** The inner loop [while j < len(matching_rows) and
    clean_error.startswith(built)]: [prev] is row [j - 1] and [rest] the rows
    from [j] on. Returns [temp_sequence] and [j] as the loop leaves them. *)
Fixpoint extend_run (clean_error built : str) (prev : word_row)
    (rest : list word_row) (j : nat) (temp_sequence : list nat)
  : list nat * nat :=
  match rest with
  | [] => (temp_sequence, j)
  | cur :: rest' =>
      if startswith clean_error built then
        let prev_span := Next_Word_Span prev in
        let curr_span := Spans cur in
        if span_ne prev_span curr_span then (temp_sequence, j)
        else
          let next_content := remove_spaces (Content cur) in
          let built' := built ++ next_content in
          if startswith clean_error built'
          then extend_run clean_error built' cur rest' (S j)
                 (temp_sequence ++ [j])
          else (temp_sequence, j)
      else (temp_sequence, j)
  end.

(** [str(matching_rows.loc[x, "Content"])] for a row position [x]; the
    sequences built by the scan only hold positions of the frame. *)
Definition content_at (matching_rows : list word_row) (x : nat) : str :=
  match matching_rows !! x with
  | Some r => Content r
  | None => []
  end.

(** The loop [while i < len(matching_rows)] for one suffix of the phrase,
    returning the candidates it appends to [all_matches]. Every iteration
    moves [i] forward, so [fuel] bounds the iterations left. *)
Fixpoint scan_from (fuel : nat) (matching_rows : list word_row)
    (used : gset nat) (error sub_error clean_error : str) (i : nat)
  : list candidate :=
  match fuel with
  | 0 => []
  | S fuel' =>
      match drop i matching_rows with
      | [] => []
      | row_i :: rest =>
          if bool_decide (i ∈ used)
          then scan_from fuel' matching_rows used error sub_error
                 clean_error (S i)
          else
            let built := remove_spaces (Content row_i) in
            let '(temp_sequence, j) :=
              extend_run clean_error built row_i rest (S i) [i] in
            let match_text :=
              join_empty (map (content_at matching_rows) temp_sequence) in
            let match_clean := remove_spaces match_text in
            if startswith clean_error match_clean && (0 <? length match_clean)
            then Candidate temp_sequence match_text
                   (bool_decide (match_clean = clean_error))
                   (length match_clean) sub_error error
                 :: scan_from fuel' matching_rows used error sub_error
                      clean_error j
            else scan_from fuel' matching_rows used error sub_error
                   clean_error (S i)
      end
  end.

(** One iteration of the loop [while i < len(matching_rows)] taken on its
    own: [None] when the loop condition is false at [i], otherwise the value
    of [i] when the iteration ends and the candidate it appends to
    [all_matches], if it appends one. *)
Definition scan_iteration (matching_rows : list word_row) (used : gset nat)
    (error sub_error clean_error : str) (i : nat)
  : option (nat * option candidate) :=
  match drop i matching_rows with
  | [] => None
  | row_i :: rest =>
      if bool_decide (i ∈ used) then Some (S i, None)
      else
        let built := remove_spaces (Content row_i) in
        let '(temp_sequence, j) :=
          extend_run clean_error built row_i rest (S i) [i] in
        let match_text :=
          join_empty (map (content_at matching_rows) temp_sequence) in
        let match_clean := remove_spaces match_text in
        if startswith clean_error match_clean && (0 <? length match_clean)
        then Some (j, Some (Candidate temp_sequence match_text
                              (bool_decide (match_clean = clean_error))
                              (length match_clean) sub_error error))
        else Some (S i, None)
  end.

(** The same loop as a relation, with no bound on its iterations:
    [scan_loop .. i n cands] when the loop entered at [i] ends after [n]
    iterations and has appended [cands]. *)
Inductive scan_loop (matching_rows : list word_row) (used : gset nat)
    (error sub_error clean_error : str) : nat -> nat -> list candidate -> Prop :=
| scan_loop_end i :
    scan_iteration matching_rows used error sub_error clean_error i = None ->
    scan_loop matching_rows used error sub_error clean_error i 0 []
| scan_loop_next i i' c n cands :
    scan_iteration matching_rows used error sub_error clean_error i
    = Some (i', c) ->
    scan_loop matching_rows used error sub_error clean_error i' n cands ->
    scan_loop matching_rows used error sub_error clean_error i (S n)
      (option_list c ++ cands).

(** The loop [for start in range(len(error.split()))]: the candidates of
    every suffix of the phrase, in the order they are appended. *)
Definition partial_matches (matching_rows : list word_row) (used : gset nat)
    (error : str) : list candidate :=
  flat_map
    (fun start =>
       let sub_error := join_space (drop start (split error)) in
       let clean_error := remove_spaces sub_error in
       scan_from (length matching_rows) matching_rows used error sub_error
         clean_error 0)
    (seq 0 (length (split error))).

(** The choice of [match_to_highlight]; [None] is the [continue] taken when
    [all_matches] is empty. *)
Definition select_match (all_matches : list candidate) : option candidate :=
  let full_matches := List.filter is_full_match all_matches in
  match full_matches with
  | m :: _ => Some m
  | [] =>
      match all_matches with
      | [] => None
      | _ :: _ =>
          let max_len := max_list (map length_ all_matches) in
          List.find (fun m => length_ m =? max_len) all_matches
      end
  end.

(** [any(idx in used_indices for idx in seq)] *)
Definition any_used (used : gset nat) (seq : list nat) : bool :=
  existsb (fun idx => bool_decide (idx ∈ used)) seq.

(** The highlighting block: fetch the boxes of the selected rows, draw one
    rectangle per line with the phrase as its content, and mark the indices
    as used. *)
Definition highlight (matching_rows : list word_row) (idxs : list nat)
    (error : str) (st : state) : result state :=
  phrase_bboxes ← loc (map Clipbounds matching_rows) idxs;
  rects ← grouped_rects LINE_TOLERANCE phrase_bboxes;
  Ok (State (used_indices st ∪ list_to_set idxs)
        (annots st
         ++ map (fun r => Annot r None (py "Error Phrase: " ++ error)) rects)).

(** What one iteration of [for error in error_list] did. *)
Inductive outcome :=
| Skipped
| DirectMatch (match_word_indices : list nat)
| NoCandidate
| PartialAccepted (match_to_highlight : candidate)
| PartialRejected (match_to_highlight : candidate).

(** The partial matching logic of one phrase, from [all_matches = []] to the
    end of the iteration. *)
Definition partial_matching (matching_rows : list word_row) (st : state)
    (error : str) : result (state * outcome) :=
  let all_matches := partial_matches matching_rows (used_indices st) error in
  match select_match all_matches with
  | None => Ok (st, NoCandidate)
  | Some match_to_highlight =>
      if negb (any_used (used_indices st) (sequence match_to_highlight))
      then st' ← highlight matching_rows (sequence match_to_highlight)
                   (original_error match_to_highlight) st;
           Ok (st', PartialAccepted match_to_highlight)
      else Ok (st, PartialRejected match_to_highlight)
  end.

(** One iteration of [for error in error_list]. *)
Definition process_error (matching_rows : list word_row) (st : state)
    (error : str) : result (state * outcome) :=
  match error with
  | [] => Ok (st, Skipped)
  | _ :: _ =>
      match find (all_words_string matching_rows) error with
      | Some match_start =>
          let match_word_indices :=
            direct_match_scan (used_indices st) match_start (length error)
              (map Content matching_rows) 0 0 in
          match match_word_indices with
          | _ :: _ =>
              st' ← highlight matching_rows match_word_indices error st;
              Ok (st', DirectMatch match_word_indices)
          | [] => partial_matching matching_rows st error
          end
      | None => partial_matching matching_rows st error
      end
  end.

(** The whole loop, with the outcome of every phrase in order. *)
Fixpoint process_errors (matching_rows : list word_row) (st : state)
    (error_list : list str) : result (state * list outcome) :=
  match error_list with
  | [] => Ok (st, [])
  | error :: rest =>
      '(st1, o) ← process_error matching_rows st error;
      '(st2, os) ← process_errors matching_rows st1 rest;
      Ok (st2, o :: os)
  end.

(** A paragraph: [used_indices = set()], then the loop. *)
Definition process_paragraph_words (matching_rows : list word_row)
    (page : list annot) (error_list : list str)
  : result (state * list outcome) :=
  process_errors matching_rows (State ∅ page) error_list.

(** The word indices a phrase was highlighted with. *)
Definition accepted (o : outcome) : list nat :=
  match o with
  | DirectMatch idxs => idxs
  | PartialAccepted m => sequence m
  | _ => []
  end.

End Annotation.

(** ** [pdf_error_annotator.py]: the [PDFErrorAnnotator] class *)

Module PdfErrorAnnotator.

(** The Python values the phrase field and its parsed form range over. *)
#[warnings="-register-all"]
Inductive pyval :=
| PyNone
| PyNaN
| PyNum (q : Q)
| PyStr (s : str)
| PyList (l : list pyval).

(** [isinstance(v, str)] *)
Definition is_str (v : pyval) : bool :=
  match v with PyStr _ => true | _ => false end.

(** Truth value of [v], as [not v] and [if v] read it. *)
Definition truthy (v : pyval) : bool :=
  match v with
  | PyNone => false
  | PyNaN => true
  | PyNum q => negb (Qeq_bool q 0)
  | PyStr s => match s with [] => false | _ => true end
  | PyList l => match l with [] => false | _ => true end
  end.

(** A cell of the phrase column as the spreadsheet reader yields it: NaN
    for an empty cell, a string, or a number. *)
Inductive cell :=
| CellNaN
| CellStr (s : str)
| CellNum (q : Q).

Definition cell_value (c : cell) : pyval :=
  match c with
  | CellNaN => PyNaN
  | CellStr s => PyStr s
  | CellNum q => PyNum q
  end.

(** [pd.isna(c)] on a cell. *)
Definition isna (c : cell) : bool :=
  match c with CellNaN => true | _ => false end.

(** [for x in v]: the elements visited; a string yields its characters. *)
Definition iterate (v : pyval) : result (list pyval) :=
  match v with
  | PyList l => Ok l
  | PyStr s => Ok (map (fun c => PyStr [c]) s)
  | _ => Raise TypeError
  end.

(** [', '.join(v)]: every element has to be a string. *)
Fixpoint join_comma_strs (l : list pyval) : result str :=
  match l with
  | [] => Ok []
  | PyStr s :: l' =>
      match l' with
      | [] => Ok s
      | _ :: _ => r ← join_comma_strs l'; Ok (s ++ py ", " ++ r)
      end
  | _ :: _ => Raise TypeError
  end.

Definition join_comma (v : pyval) : result str :=
  l ← iterate v; join_comma_strs l.

(** One row of the word table [df_words]; its box may be absent. *)
Record word_record := WordRecord {
  File_Name : str;
  word_Page_Number : Z;
  word_Clipbounds : option bbox;
  word_Content : str;
  word_Spans : span_id;
  word_Next_Word_Span : span_id
}.

(** The annotator object: [self.BUFFER], [self.LINE_TOLERANCE] and the word
    table. *)
Record annotator := Annotator {
  BUFFER : Q;
  LINE_TOLERANCE : Q;
  df_words : list word_record
}.

(** One row of the paragraph table, its box as [load_data] stores it. *)
Record para_row := ParaRow {
  Page_Number : Z;
  para_Clipbounds : option bbox;
  error_phrase : cell
}.

(** A page of the document: its height and its annotation list. *)
Record page := Page {
  height : Q;
  page_annots : list annot
}.

(** The document as [pdf_document[i]] shows it: a page, or the exception
    raised for an index it does not hold. *)
Definition document := Z -> result page.

(** The four comparisons of the containment test, in source order. *)
Definition within (bbox container : bbox) : bool :=
  Qle_bool (bx0 container) (bx0 bbox) && Qle_bool (bx1 bbox) (bx1 container)
  && Qle_bool (by0 container) (by0 bbox) && Qle_bool (by1 bbox) (by1 container).

(** [is_within(bbox, container)]; [None] is an absent (falsy) box. *)
Definition is_within (bbox container : option bbox) : result bool :=
  match bbox, container with
  | Some b, Some c => Ok (within b c)
  | _, _ => Ok false
  end.

Section Parser.

(** [ast.parse] on a non-empty source, restricted to literals: the value, or
    [None] when the source is not a literal and [literal_eval] raises. *)
Variable parse_literal : str -> option pyval.

(** [ast.literal_eval(s)]: the empty source is no expression. *)
Definition literal_eval (s : str) : option pyval :=
  match s with
  | [] => None
  | _ :: _ => parse_literal s
  end.

(** [parse_error_phrases(self, error_phrases)] *)
Definition parse_error_phrases (error_phrases : pyval) : pyval :=
  match error_phrases with
  | PyStr s =>
      match literal_eval s with
      | Some v => v
      | None => PyList [PyStr s]
      end
  | PyList l => PyList l
  | _ => PyList []
  end.

End Parser.

(** The state a paragraph's processing threads through: the list
    [annotation_bboxes] and the annotations of the page. *)
Record pstate := PState {
  annotation_bboxes : list bbox;
  annots : list annot
}.

(** [highlight_paragraph(self, pdf_page, para_bbox, error_list,
    annotation_bboxes)] *)
Definition highlight_paragraph (st : pstate) (para_bbox : bbox)
    (error_list : pyval) : result pstate :=
  joined ← join_comma error_list;
  Ok (PState (annotation_bboxes st ++ [para_bbox])
        (annots st
         ++ [Annot para_bbox (Some POTENTIAL_ERROR_COLOR)
               (py "Potential Errors: " ++ joined)])).

(** [highlight_matched_words(self, pdf_page, matching_rows,
    match_word_indices, error, annotation_bboxes)] *)
Definition highlight_matched_words (self : annotator) (st : pstate)
    (matching_rows : list word_row) (match_word_indices : list nat)
    (error : str) : result pstate :=
  phrase_bboxes ← loc (map Clipbounds matching_rows) match_word_indices;
  rects ← grouped_rects (LINE_TOLERANCE self) phrase_bboxes;
  Ok (PState (annotation_bboxes st ++ rects)
        (annots st
         ++ map (fun r => Annot r (Some EXACT_MATCH_COLOR)
                            (py "Error Phrase: " ++ error)) rects)).

(** The scan [for word_idx, word in enumerate(matching_rows["Content"])]:
    [contents] are the words from [word_idx] on, [current_position] the
    offset of the first of them. *)
Fixpoint overlap_scan (match_start match_end : nat) (contents : list str)
    (word_idx current_position : nat) : list nat :=
  match contents with
  | [] => []
  | word_str :: rest =>
      let word_start := current_position in
      let word_end := word_start + length word_str in
      (if (word_start <=? match_end) && (match_start <=? word_end)
       then [word_idx] else [])
      ++ overlap_scan match_start match_end rest (S word_idx) (word_end + 1)
  end.

(** The phrases the loop does not skip: non-empty strings. *)
Definition phrase_of (error : pyval) : option str :=
  match error with
  | PyStr (c :: s) => Some (c :: s)
  | _ => None
  end.

(** [match_word_indices] of a phrase found in [all_words_string]. *)
Definition match_word_indices (matching_rows : list word_row) (error : str)
  : option (list nat) :=
  match find (all_words_string matching_rows) error with
  | Some match_start =>
      let match_end := match_start + length error in
      Some (overlap_scan match_start match_end (map Content matching_rows) 0 0)
  | None => None
  end.

(** The loop [for error in error_list] of [process_word_matches], threading
    [matches_found]. *)
Fixpoint match_loop (self : annotator) (matching_rows : list word_row)
    (errors : list pyval) (matches_found : bool) (st : pstate)
  : result (bool * pstate) :=
  match errors with
  | [] => Ok (matches_found, st)
  | error :: rest =>
      match phrase_of error with
      | None => match_loop self matching_rows rest matches_found st
      | Some e =>
          match match_word_indices matching_rows e with
          | Some idxs =>
              st' ← match idxs with
                    | [] => Ok st
                    | _ :: _ =>
                        highlight_matched_words self st matching_rows idxs e
                    end;
              match_loop self matching_rows rest true st'
          | None => match_loop self matching_rows rest matches_found st
          end
      end
  end.

(** [process_word_matches(self, pdf_page, matching_rows, error_list,
    para_bbox, annotation_bboxes)] *)
Definition process_word_matches (self : annotator) (st : pstate)
    (matching_rows : list word_row) (error_list : pyval) (para_bbox : bbox)
  : result pstate :=
  errors ← iterate error_list;
  '(matches_found, st') ← match_loop self matching_rows errors false st;
  if negb matches_found
  then highlight_paragraph st' para_bbox error_list
  else Ok st'.

(** The rows of the word table on the paragraph's page whose box lies within
    the paragraph box, in table order. *)
Fixpoint select_rows (df : list word_record) (filename : str)
    (page_number : Z) (para_bbox : bbox) : result (list word_row) :=
  match df with
  | [] => Ok []
  | w :: df' =>
      keep ← (if bool_decide (File_Name w = filename)
                 && bool_decide (word_Page_Number w = page_number)
              then is_within (word_Clipbounds w) (Some para_bbox)
              else Ok false);
      rest ← select_rows df' filename page_number para_bbox;
      match keep, word_Clipbounds w with
      | true, Some b =>
          Ok (WordRow (word_Content w) b (word_Spans w)
                (word_Next_Word_Span w) :: rest)
      | _, _ => Ok rest
      end
  end.

(** The conversion to the page's coordinate system followed by the buffer. *)
Definition convert_and_buffer (self : annotator) (page_height : Q)
    (para_bbox : bbox) : bbox :=
  let converted :=
    Box (bx0 para_bbox) (page_height - by0 para_bbox)
        (bx1 para_bbox) (page_height - by1 para_bbox) in
  Box (bx0 converted - BUFFER self) (by0 converted - BUFFER self)
      (bx1 converted + BUFFER self) (by1 converted + BUFFER self).

(** [process_paragraph(self, pdf_document, para_row, idx, filename)]:
    [None] when it returns before anything is stored, otherwise the list
    stored in the results table and the page as annotated. *)
Definition process_paragraph (parse_literal : str -> option pyval)
    (self : annotator) (pdf_document : document) (row : para_row)
    (filename : str) : result (option (list bbox * page)) :=
  let page_index := (Page_Number row - 1)%Z in
  match para_Clipbounds row with
  | None => Ok None
  | Some para_bbox =>
      if isna (error_phrase row) then Ok None
      else
        match pdf_document page_index with
        | Raise IndexError => Ok None
        | Raise e => Raise e
        | Ok pdf_page =>
            let page_height := height pdf_page in
            let para_bbox := convert_and_buffer self page_height para_bbox in
            let error_list :=
              parse_error_phrases parse_literal
                (cell_value (error_phrase row)) in
            if negb (truthy error_list) then Ok None
            else
              matching_rows ← select_rows (df_words self) filename
                                (page_index + 1)%Z para_bbox;
              let st := PState [] (page_annots pdf_page) in
              st' ← match matching_rows with
                    | [] => highlight_paragraph st para_bbox error_list
                    | _ :: _ =>
                        process_word_matches self st matching_rows error_list
                          para_bbox
                    end;
              Ok (Some (annotation_bboxes st',
                        Page (height pdf_page) (annots st')))
        end
  end.

(** One row of the results table [df_results]: the paragraph's cell and the
    list in its ["Annotation_bbox"] column. *)
Record result_row := ResultRow {
  result_error_phrase : cell;
  Annotation_bbox : list bbox
}.

(** [load_data]: the results table is a copy of the paragraph table with an
    empty list in every row of the new column. *)
Definition load_results (df_para : list para_row) : list result_row :=
  map (fun r => ResultRow (error_phrase r) []) df_para.

(** The last statement of [process_paragraph],
    [self.df_results.at[idx, "Annotation_bbox"] = annotation_bboxes], for
    the row label [idx] of the paragraph; an early return stores nothing. *)
Definition store_result (df_results : list result_row) (idx : nat)
    (outcome : option (list bbox * page)) : list result_row :=
  match outcome with
  | Some (annotation_bboxes, _) =>
      alter (fun r => ResultRow (result_error_phrase r) annotation_bboxes)
        idx df_results
  | None => df_results
  end.

(** [verify_annotations(self)]: the labels of the rows that have a phrase
    cell and an empty list. *)
Definition verify_annotations (df_results : list result_row) : list nat :=
  List.filter
    (fun i =>
       match df_results !! i with
       | Some r => negb (isna (result_error_phrase r))
                   && (length (Annotation_bbox r) =? 0)
       | None => false
       end)
    (seq 0 (length df_results)).

End PdfErrorAnnotator.

(** ** [Simple.py] *)

Module Simple.

(** [is_within(bbox, container)] as the script defines it inside its
    paragraph loop: it subscripts both boxes at once, and [None] cannot be
    subscripted. *)
Definition is_within (bbox container : option bbox) : result bool :=
  match bbox, container with
  | Some b, Some c =>
      Ok (Qle_bool (bx0 c) (bx0 b) && Qle_bool (bx1 b) (bx1 c)
          && Qle_bool (by0 c) (by0 b) && Qle_bool (by1 b) (by1 c))
  | _, _ => Raise TypeError
  end.

(** The configuration constants of the script. *)
Definition BUFFER : Q := 4.
Definition LINE_TOLERANCE : Q := 2.

Definition config (df_words : list PdfErrorAnnotator.word_record)
  : PdfErrorAnnotator.annotator :=
  PdfErrorAnnotator.Annotator BUFFER LINE_TOLERANCE df_words.

(** The window: the rows of the page, kept when the script-local test says
    so; the test is applied to every row of the page, in table order. *)
Fixpoint select_rows (df : list PdfErrorAnnotator.word_record)
    (filename : str) (page_number : Z) (para_bbox : bbox)
  : result (list word_row) :=
  match df with
  | [] => Ok []
  | w :: df' =>
      keep ← (if bool_decide (PdfErrorAnnotator.File_Name w = filename)
                 && bool_decide
                      (PdfErrorAnnotator.word_Page_Number w = page_number)
              then is_within (PdfErrorAnnotator.word_Clipbounds w)
                     (Some para_bbox)
              else Ok false);
      rest ← select_rows df' filename page_number para_bbox;
      match keep, PdfErrorAnnotator.word_Clipbounds w with
      | true, Some b =>
          Ok (WordRow (PdfErrorAnnotator.word_Content w) b
                (PdfErrorAnnotator.word_Spans w)
                (PdfErrorAnnotator.word_Next_Word_Span w) :: rest)
      | _, _ => Ok rest
      end
  end.

(** The head of the phrase loop: [if not error: continue], then
    [error in all_words_string], which needs a string on its left. *)
Definition phrase_of (error : PdfErrorAnnotator.pyval)
  : result (option str) :=
  if negb (PdfErrorAnnotator.truthy error) then Ok None
  else match error with
       | PdfErrorAnnotator.PyStr s => Ok (Some s)
       | _ => Raise TypeError
       end.

(** The loop [for error in error_list], threading [exact_match_found]; the
    highlighting block is the one the class has in
    [highlight_matched_words]. *)
Fixpoint match_loop (df_words : list PdfErrorAnnotator.word_record)
    (matching_rows : list word_row) (errors : list PdfErrorAnnotator.pyval)
    (exact_match_found : bool) (st : PdfErrorAnnotator.pstate)
  : result (bool * PdfErrorAnnotator.pstate) :=
  match errors with
  | [] => Ok (exact_match_found, st)
  | error :: rest =>
      phrase ← phrase_of error;
      match phrase with
      | None => match_loop df_words matching_rows rest exact_match_found st
      | Some e =>
          match PdfErrorAnnotator.match_word_indices matching_rows e with
          | Some idxs =>
              st' ← match idxs with
                    | [] => Ok st
                    | _ :: _ =>
                        PdfErrorAnnotator.highlight_matched_words
                          (config df_words) st matching_rows idxs e
                    end;
              match_loop df_words matching_rows rest true st'
          | None =>
              match_loop df_words matching_rows rest exact_match_found st
          end
      end
  end.

(** One row of the script's paragraph table as the loop sees it. The load
    rewrites the box of every row with [lambda x: [x[0], x[3], x[2], x[1]]],
    without a guard, so a row that reaches the loop holds a list of four
    entries and the test [if not para_bbox] of the loop never fires. The
    loop over the files only visits the rows whose ["Asset Name"] is the
    [filename] at hand. *)
Record para_row := ParaRow {
  Asset_Name : str;
  Page_Number : Z;
  Atom_ID : PdfErrorAnnotator.cell;
  para_Clipbounds : bbox;
  error_phrase : PdfErrorAnnotator.cell
}.

(** The same paragraph as a row of the class's paragraph table. *)
Definition class_row (row : para_row) : PdfErrorAnnotator.para_row :=
  PdfErrorAnnotator.ParaRow (Page_Number row) (Some (para_Clipbounds row))
    (error_phrase row).

(** The body of the paragraph loop up to the update of the results table:
    [None] for a [continue], otherwise the list [annotation_bboxes] and the
    page as annotated. The fallback block is the one the class has in
    [highlight_paragraph]. *)
Definition process_paragraph
    (parse_literal : str -> option PdfErrorAnnotator.pyval)
    (df_words : list PdfErrorAnnotator.word_record)
    (pdf_document : PdfErrorAnnotator.document) (row : para_row)
  : result (option (list bbox * PdfErrorAnnotator.page)) :=
  let filename := Asset_Name row in
  let page_index := (Page_Number row - 1)%Z in
  pdf_page ← pdf_document page_index;
  let page_height := PdfErrorAnnotator.height pdf_page in
  let para_bbox :=
    PdfErrorAnnotator.convert_and_buffer (config df_words) page_height
      (para_Clipbounds row) in
  let error_list :=
    PdfErrorAnnotator.parse_error_phrases parse_literal
      (PdfErrorAnnotator.cell_value (error_phrase row)) in
  if negb (PdfErrorAnnotator.truthy error_list) then Ok None
  else
    matching_rows ← select_rows df_words filename (page_index + 1)%Z
                      para_bbox;
    match matching_rows with
    | [] => Ok None
    | _ :: _ =>
        let st :=
          PdfErrorAnnotator.PState []
            (PdfErrorAnnotator.page_annots pdf_page) in
        errors ← PdfErrorAnnotator.iterate error_list;
        '(exact_match_found, st') ←
          match_loop df_words matching_rows errors false st;
        st'' ← (if negb exact_match_found
                then PdfErrorAnnotator.highlight_paragraph st' para_bbox
                       error_list
                else Ok st');
        Ok (Some (PdfErrorAnnotator.annotation_bboxes st'',
                  PdfErrorAnnotator.Page page_height
                    (PdfErrorAnnotator.annots st'')))
    end.

(** A row of [df_results]: the copy of a paragraph row and the list in its
    ["Annotation_bbox"] column. *)
Record result_row := ResultRow {
  result_para : para_row;
  Annotation_bbox : list bbox
}.

(** [df_results = df_para.copy()] with an empty list in every row of the new
    column. *)
Definition load_results (df_para : list para_row) : list result_row :=
  map (fun r => ResultRow r []) df_para.

(** [==] between an entry of a column and a cell, as the mask computes it:
    NaN is equal to nothing, itself included. *)
Definition cell_eq (a b : PdfErrorAnnotator.cell) : bool :=
  match a, b with
  | PdfErrorAnnotator.CellStr s, PdfErrorAnnotator.CellStr t =>
      bool_decide (s = t)
  | PdfErrorAnnotator.CellNum p, PdfErrorAnnotator.CellNum q => Qeq_bool p q
  | _, _ => false
  end.

(** The mask of the lookup on one row of the results table. *)
Definition key_matches (r : result_row) (row : para_row) : bool :=
  bool_decide (Asset_Name (result_para r) = Asset_Name row)
  && bool_decide (Page_Number (result_para r) = Page_Number row)
  && cell_eq (Atom_ID (result_para r)) (Atom_ID row).

(** [results_idx = df_results.index[mask].tolist()]: the labels of the rows
    the mask keeps, in table order; the table has the default index. *)
Definition results_idx (df_results : list result_row) (row : para_row)
  : list nat :=
  List.filter
    (fun i =>
       match df_results !! i with
       | Some r => key_matches r row
       | None => false
       end)
    (seq 0 (length df_results)).

(** [if results_idx: df_results.at[results_idx[0], "Annotation_bbox"] =
    annotation_bboxes] *)
Definition store_result (df_results : list result_row) (row : para_row)
    (annotation_bboxes : list bbox) : list result_row :=
  match results_idx df_results row with
  | [] => df_results
  | i :: _ =>
      alter (fun r => ResultRow (result_para r) annotation_bboxes) i
        df_results
  end.

End Simple.

(** ** [Annotation.py]: the body of the paragraph loop

    The alignment pass of [Module Annotation] as the script reaches it: the
    page, the buffered box, the phrase list and the window come first. The
    window is selected with a containment test the script defines locally,
    word for word the one [Simple.py] defines. As in [Simple.py] the load
    rewrites every paragraph box without a guard, so the loop is given a
    box. *)

Module AnnotationScript.

Definition BUFFER : Q := 5.

Definition config (df_words : list PdfErrorAnnotator.word_record)
  : PdfErrorAnnotator.annotator :=
  PdfErrorAnnotator.Annotator BUFFER Annotation.LINE_TOLERANCE df_words.

(** The head of an iteration of [for error in error_list]:
    [if not error: continue], then [re.escape(error)], which needs a
    string. *)
Definition phrase_of (error : PdfErrorAnnotator.pyval)
  : result (option str) :=
  if negb (PdfErrorAnnotator.truthy error) then Ok None
  else match error with
       | PdfErrorAnnotator.PyStr s => Ok (Some s)
       | _ => Raise TypeError
       end.

(** The loop [for error in error_list] over the values the list holds. *)
Fixpoint process_values (matching_rows : list word_row)
    (st : Annotation.state) (error_list : list PdfErrorAnnotator.pyval)
  : result (Annotation.state * list Annotation.outcome) :=
  match error_list with
  | [] => Ok (st, [])
  | error :: rest =>
      phrase ← phrase_of error;
      '(st1, o) ← match phrase with
                  | None => Ok (st, Annotation.Skipped)
                  | Some e => Annotation.process_error matching_rows st e
                  end;
      '(st2, os) ← process_values matching_rows st1 rest;
      Ok (st2, o :: os)
  end.

(** The body of the paragraph loop: [None] for the [continue] taken on an
    empty window, otherwise the page as annotated and what every phrase
    came to. *)
Definition process_paragraph
    (parse_literal : str -> option PdfErrorAnnotator.pyval)
    (df_words : list PdfErrorAnnotator.word_record)
    (pdf_document : PdfErrorAnnotator.document) (filename : str)
    (page_number : Z) (para_bbox : bbox)
    (error_phrases : PdfErrorAnnotator.cell)
  : result (option (PdfErrorAnnotator.page * list Annotation.outcome)) :=
  let page_index := (page_number - 1)%Z in
  pdf_page ← pdf_document page_index;
  let page_height := PdfErrorAnnotator.height pdf_page in
  let para_bbox :=
    PdfErrorAnnotator.convert_and_buffer (config df_words) page_height
      para_bbox in
  let error_list :=
    PdfErrorAnnotator.parse_error_phrases parse_literal
      (PdfErrorAnnotator.cell_value error_phrases) in
  matching_rows ← Simple.select_rows df_words filename (page_index + 1)%Z
                    para_bbox;
  match matching_rows with
  | [] => Ok None
  | _ :: _ =>
      errors ← PdfErrorAnnotator.iterate error_list;
      '(st, outs) ← process_values matching_rows
                      (Annotation.State ∅
                         (PdfErrorAnnotator.page_annots pdf_page))
                      errors;
      Ok (Some (PdfErrorAnnotator.Page page_height (Annotation.annots st),
                outs))
  end.

End AnnotationScript.

(** ** [load_data]: the paragraph boxes as stored *)

(** The rewrite of the paragraph ["Clipbounds"] column,
    [lambda x: [x[0], x[3], x[2], x[1]] if x else None]: the two vertical
    bounds change places, an absent box stays absent. *)
Definition load_clipbounds (x : option bbox) : option bbox :=
  match x with
  | Some b => Some (Box (bx0 b) (by1 b) (bx1 b) (by0 b))
  | None => None
  end.

(** ** The word spans of the specification

    The second reading of the exact-match selection, written from the
    specification's words: a word occupies [offset, offset + len(content))
    in the concatenated string, offsets advance by [len(content) + 1] per
    word, and a word is selected when its span overlaps the span of the
    match. *)

Module Spec.

(** The offset of word [i]: every earlier word advances it by its length
    plus one. *)
Definition word_offset (contents : list str) (i : nat) : nat :=
  sum_list_with (fun w => length w + 1) (take i contents).

(** The half-open spans [ws, we) and [ms, me) overlap: each starts before
    the other ends. *)
Definition spans_overlap (ws we ms me : nat) : bool :=
  (ws <? me) && (ms <? we).

(** Word [i] overlaps the match [match_start, match_end). *)
Definition word_overlaps (contents : list str) (match_start match_end i : nat)
  : bool :=
  match contents !! i with
  | Some w =>
      spans_overlap (word_offset contents i)
        (word_offset contents i + length w) match_start match_end
  | None => false
  end.

(** The word indices overlapping the match, without those already used. *)
Definition overlapping_unused (used : gset nat) (contents : list str)
    (match_start match_end : nat) : list nat :=
  List.filter
    (fun i => word_overlaps contents match_start match_end i
              && negb (bool_decide (i ∈ used)))
    (seq 0 (length contents)).

End Spec.

(** ** The tests of the two exact-match scans, per word index *)

(** The test [Annotation.py] applies to word [i]. *)
Definition annotation_test (contents : list str)
    (match_start match_end i : nat) : bool :=
  match contents !! i with
  | Some w =>
      (Spec.word_offset contents i <? match_end)
      && (match_start <=? Spec.word_offset contents i + length w)
  | None => false
  end.

(** The test [pdf_error_annotator.py] applies to word [i]. *)
Definition annotator_test (contents : list str)
    (match_start match_end i : nat) : bool :=
  match contents !! i with
  | Some w =>
      (Spec.word_offset contents i <=? match_end)
      && (match_start <=? Spec.word_offset contents i + length w)
  | None => false
  end.

(** ** Predicates used in the statements *)

(** The groups are well formed: there is one, and none is empty. *)
Definition groups_ok (line_groups : list (list bbox)) : Prop :=
  line_groups <> [] /\ Forall (fun g => g <> []) line_groups.

(** A run of the window: consecutive positions of the frame, every two
    neighbours linked by equal span identifiers. *)
Definition adjacent_run (matching_rows : list word_row) (s : list nat)
  : Prop :=
  exists i n,
    s = seq i (S n) /\ i + n < length matching_rows
    /\ forall k, i <= k < i + n ->
         exists a b, matching_rows !! k = Some a
                     /\ matching_rows !! S k = Some b
                     /\ span_ne (Next_Word_Span a) (Spans b) = false.

(** What the scan records about a candidate. *)
Definition candidate_ok (matching_rows : list word_row) (used : gset nat)
    (error : str)
    (m : Annotation.candidate) : Prop :=
  adjacent_run matching_rows (Annotation.sequence m)
  /\ Annotation.text m
     = join_empty (map (Annotation.content_at matching_rows)
                     (Annotation.sequence m))
  /\ Annotation.length_ m = length (remove_spaces (Annotation.text m))
  /\ 0 < Annotation.length_ m
  /\ Annotation.is_full_match m
     = bool_decide (remove_spaces (Annotation.text m)
                    = remove_spaces (Annotation.sub_error m))
  /\ startswith (remove_spaces (Annotation.sub_error m))
       (remove_spaces (Annotation.text m)) = true
  /\ Annotation.original_error m = error
  /\ (exists i, head (Annotation.sequence m) = Some i /\ i ∉ used).

(** The output the specification promises: a sequence whose elements are
    all non-empty strings. *)
Definition nonempty_phrases (v : PdfErrorAnnotator.pyval) : Prop :=
  exists l,
    v = PdfErrorAnnotator.PyList l
    /\ Forall (fun e => exists c s, e = PdfErrorAnnotator.PyStr (c :: s)) l.

(** Runs the sequencing of a computation whose first step is known. *)
Ltac run := cbn [mbind result_bind].

(** ** A sample window *)

Definition sample_row (content : string) (span next : Z) (x0 x1 y : Q)
  : word_row :=
  WordRow (py content) (Box x0 y x1 (y + 5)) (SpanVal [span]) (SpanVal [next]).

(** "The quick brown fox" on one line, with contiguous spans. *)
Definition sample_rows : list word_row :=
  [ sample_row "The" 1 2 0 3 10; sample_row "quick" 2 3 4 9 10;
    sample_row "brown" 3 4 10 15 10; sample_row "fox" 4 5 16 19 10 ].

(** Two one-letter words "a" "a", both with the phrase "a". *)
Definition twin_rows : list word_row :=
  [sample_row "a" 1 2 0 1 10; sample_row "a" 2 3 2 3 10].

(** Words "a" and "b" of one span flow. *)
Definition ab_rows : list word_row :=
  [sample_row "a" 1 2 0 1 10; sample_row "b" 2 3 2 3 10].

(** The sample window with the span link between "quick" and "brown"
    broken: "quick" announces span 9 as its successor. *)
Definition broken_rows : list word_row :=
  [ sample_row "The" 1 2 0 3 10; sample_row "quick" 2 9 4 9 10;
    sample_row "brown" 3 4 10 15 10; sample_row "fox" 4 5 16 19 10 ].

(** The sample window as rows of the word table of "doc.pdf", page 1, a
    one-page document of height 100, and a paragraph around the words whose
    phrase cell holds the misspelt "quikc". *)
Definition sample_words : list PdfErrorAnnotator.word_record :=
  map (fun r => PdfErrorAnnotator.WordRecord (py "doc.pdf") 1
                  (Some (Clipbounds r)) (Content r) (Spans r)
                  (Next_Word_Span r))
    sample_rows.

Definition sample_annotator : PdfErrorAnnotator.annotator :=
  PdfErrorAnnotator.Annotator 5 2 sample_words.

Definition sample_document : PdfErrorAnnotator.document :=
  fun i => if (i =? 0)%Z then Ok (PdfErrorAnnotator.Page 100 [])
           else Raise IndexError.

Definition sample_para : PdfErrorAnnotator.para_row :=
  PdfErrorAnnotator.ParaRow 1 (Some (Box 0 95 30 80))
    (PdfErrorAnnotator.CellStr (py "quikc")).

(** * Properties *)

(** ** Strings *)

Section Strings.

Implicit Types s p t : str.

Lemma startswith_spec s p :
  startswith s p = true <-> exists t, s = p ++ t.
Proof.
  revert s. induction p as [|c p IH]; intros s.
  - split; [intros _; exists s; reflexivity | destruct s; reflexivity].
  - destruct s as [|d s]; simpl.
    + split; [discriminate | intros [t Ht]; discriminate].
    + destruct (Ascii.eqb_spec c d) as [->|Hne].
      * rewrite IH. split; intros [t Ht]; exists t; congruence.
      * split; [discriminate | intros [t Ht]; congruence].
Qed.

Lemma startswith_app s p : startswith (p ++ s) p = true.
Proof. apply startswith_spec. exists s. reflexivity. Qed.

Lemma find_from_nil p pos :
  find_from [] p pos = if startswith [] p then Some pos else None.
Proof. reflexivity. Qed.

Lemma find_from_cons c s p pos :
  find_from (c :: s) p pos
  = if startswith (c :: s) p then Some pos else find_from s p (S pos).
Proof. reflexivity. Qed.

(** [find] returns the offset of an occurrence, and no occurrence starts
    before it. *)
Lemma find_from_Some s p pos m :
  find_from s p pos = Some m ->
  exists pre suf, s = pre ++ p ++ suf /\ m = pos + length pre /\
    forall pre' suf', s = pre' ++ p ++ suf' -> length pre <= length pre'.
Proof.
  revert pos. induction s as [|c s IH]; intros pos.
  - rewrite find_from_nil. destruct (startswith [] p) eqn:E; [|discriminate].
    intros [= <-]. apply startswith_spec in E as [t Ht].
    exists [], t. simpl. repeat split; [assumption | lia | intros; lia].
  - rewrite find_from_cons. destruct (startswith (c :: s) p) eqn:E.
    + intros [= <-]. apply startswith_spec in E as [t Ht].
      exists [], t. simpl. repeat split; [assumption | lia | intros; lia].
    + intros H. apply IH in H as (pre & suf & -> & -> & Hmin).
      exists (c :: pre), suf. simpl. repeat split; [lia|].
      intros pre' suf' Heq. destruct pre' as [|c' pre'].
      * simpl in Heq. rewrite Heq, startswith_app in E. discriminate.
      * simpl in Heq. injection Heq as _ Heq. apply Hmin in Heq. simpl. lia.
Qed.

Lemma find_from_None s p pos :
  find_from s p pos = None -> forall pre suf, s <> pre ++ p ++ suf.
Proof.
  revert pos. induction s as [|c s IH]; intros pos.
  - rewrite find_from_nil. destruct (startswith [] p) eqn:E; [discriminate|].
    intros _ pre suf Heq. destruct pre; simpl in Heq.
    + rewrite Heq, startswith_app in E. discriminate.
    + discriminate.
  - rewrite find_from_cons.
    destruct (startswith (c :: s) p) eqn:E; [discriminate|].
    intros H pre suf Heq. destruct pre as [|c' pre]; simpl in Heq.
    + rewrite Heq, startswith_app in E. discriminate.
    + injection Heq as _ Heq. exact (IH _ H _ _ Heq).
Qed.

(** A phrase that occurs is found. *)
Lemma find_complete s p pre suf :
  s = pre ++ p ++ suf -> exists m, find s p = Some m.
Proof.
  intros Heq. unfold find. destruct (find_from s p 0) as [m|] eqn:E.
  - exists m. reflexivity.
  - exfalso. exact (find_from_None _ _ _ E _ _ Heq).
Qed.

Lemma find_Some s p m :
  find s p = Some m ->
  exists pre suf, s = pre ++ p ++ suf /\ m = length pre.
Proof.
  intros H. apply find_from_Some in H as (pre & suf & Hs & Hm & _).
  exists pre, suf. split; [assumption | lia].
Qed.

Lemma find_bound s p m :
  find s p = Some m -> m + length p <= length s.
Proof.
  intros H. apply find_Some in H as (pre & suf & -> & ->).
  rewrite !length_app. lia.
Qed.

(** The characters of the occurrence are those of the phrase. *)
Lemma find_chars s p m k c :
  find s p = Some m -> p !! k = Some c -> s !! (m + k) = Some c.
Proof.
  intros H Hk. apply find_Some in H as (pre & suf & -> & ->).
  rewrite lookup_app_r by lia.
  replace (length pre + k - length pre) with k by lia.
  apply lookup_app_l_Some. exact Hk.
Qed.

End Strings.

(** ** The concatenated window string *)

Section Joined.

Implicit Types contents : list str.

Lemma join_space_cons w contents :
  contents <> [] ->
  join_space (w :: contents) = w ++ space :: join_space contents.
Proof. destruct contents; [congruence | reflexivity]. Qed.

Lemma join_space_app l1 l2 :
  l1 <> [] -> l2 <> [] ->
  join_space (l1 ++ l2) = join_space l1 ++ space :: join_space l2.
Proof.
  induction l1 as [|w l1 IH]; intros H1 H2; [congruence|].
  destruct l1 as [|w' l1].
  - simpl app. rewrite join_space_cons by assumption. reflexivity.
  - change ((w :: w' :: l1) ++ l2) with (w :: ((w' :: l1) ++ l2)).
    rewrite !join_space_cons by (simpl; congruence).
    rewrite IH by congruence. rewrite <- app_assoc. reflexivity.
Qed.

Lemma word_offset_0 contents : Spec.word_offset contents 0 = 0.
Proof. unfold Spec.word_offset. rewrite take_0. reflexivity. Qed.

Lemma word_offset_S contents i w :
  contents !! i = Some w ->
  Spec.word_offset contents (S i) = Spec.word_offset contents i + length w + 1.
Proof.
  intros H. unfold Spec.word_offset.
  rewrite (take_S_r _ _ _ H), sum_list_with_app. simpl. lia.
Qed.

(** The offset of a word is the length of what is joined before it. *)
Lemma word_offset_join contents i :
  i <= length contents ->
  Spec.word_offset contents i
  = match i with
    | 0 => 0
    | S _ => length (join_space (take i contents)) + 1
    end.
Proof.
  induction i as [|i IH]; intros Hi; [apply word_offset_0|].
  destruct (lookup_lt_is_Some_2 contents i) as [w Hw]; [lia|].
  rewrite (word_offset_S _ _ _ Hw), IH by lia.
  rewrite (take_S_r _ _ _ Hw).
  destruct i as [|i].
  - rewrite take_0. simpl. lia.
  - rewrite join_space_app;
      [|destruct contents; [simpl in Hi; lia|discriminate]|discriminate].
    rewrite length_app. simpl. lia.
Qed.

Lemma join_space_middle (pre post : list str) w :
  join_space (pre ++ w :: post)
  = match pre with [] => [] | _ :: _ => join_space pre ++ [space] end
    ++ w ++ match post with [] => [] | _ :: _ => space :: join_space post end.
Proof.
  destruct pre as [|p pre].
  - destruct post; simpl; [rewrite app_nil_r|]; reflexivity.
  - rewrite join_space_app by discriminate. rewrite <- app_assoc. simpl.
    destruct post; simpl; [rewrite app_nil_r|]; reflexivity.
Qed.

(** The whole string around word [i]: what stands before it is empty or
    ends with the separator, what follows is empty or starts with it. *)
Lemma join_space_split contents i w :
  contents !! i = Some w ->
  exists before after,
    join_space contents = before ++ w ++ after
    /\ length before = Spec.word_offset contents i
    /\ (after = [] \/ exists t, after = space :: t)
    /\ (before = [] \/ exists t, before = t ++ [space]).
Proof.
  intros Hw.
  pose proof (lookup_lt_Some _ _ _ Hw) as Hlt.
  pose proof (take_drop_middle _ _ _ Hw) as Hc.
  pose proof (word_offset_join contents i ltac:(lia)) as Hoff.
  pose proof (length_take_le contents i ltac:(lia)) as Htake.
  eexists _, _. split; [rewrite <- Hc at 1; apply join_space_middle|].
  destruct (take i contents) as [|p pre] eqn:Ht;
    destruct (drop (S i) contents) as [|q post] eqn:Hd;
    simpl in Htake; subst i.
  - split; [|split]; [rewrite Hoff; reflexivity|eauto|eauto].
  - split; [|split]; [rewrite Hoff; reflexivity|eauto|eauto].
  - split; [|split]; [rewrite Hoff, length_app; simpl; lia|eauto|eauto].
  - split; [|split]; [rewrite Hoff, length_app; simpl; lia|eauto|eauto].
Qed.

Lemma word_offset_mono contents i j :
  i <= j -> Spec.word_offset contents i <= Spec.word_offset contents j.
Proof.
  induction j as [|j IH]; intros Hij.
  - replace i with 0 by lia. lia.
  - destruct (decide (i = S j)) as [->|Hne]; [lia|].
    specialize (IH ltac:(lia)).
    destruct (contents !! j) as [w|] eqn:Hw.
    + rewrite (word_offset_S _ _ _ Hw). lia.
    + apply lookup_ge_None in Hw. unfold Spec.word_offset in *.
      rewrite (take_ge contents (S j)) by lia.
      rewrite (take_ge contents j) in IH by lia. exact IH.
Qed.

End Joined.

(** ** The exact-match scans as filters *)

Section Scans.

Implicit Types contents : list str.

Lemma filter_seq_nil (f : nat -> bool) start len :
  (forall i, start <= i < start + len -> f i = false) ->
  List.filter f (seq start len) = [].
Proof.
  revert start. induction len as [|len IH]; intros start H; [reflexivity|].
  simpl. rewrite H by lia. apply IH. intros i Hi. apply H. lia.
Qed.

Lemma direct_match_scan_filter used match_start len_error contents rest pre :
  contents = pre ++ rest ->
  Annotation.direct_match_scan used match_start len_error rest (length pre)
    (Spec.word_offset contents (length pre))
  = List.filter
      (fun i => annotation_test contents match_start (match_start + len_error) i
                && negb (bool_decide (i ∈ used)))
      (seq (length pre) (length rest)).
Proof.
  revert pre. induction rest as [|w rest IH]; intros pre Hc; [reflexivity|].
  assert (Hw : contents !! length pre = Some w).
  { subst contents. rewrite lookup_app_r by lia.
    rewrite Nat.sub_diag. reflexivity. }
  specialize (IH (pre ++ [w])). rewrite length_app in IH. simpl in IH.
  rewrite Nat.add_1_r in IH. rewrite (word_offset_S _ _ _ Hw) in IH.
  specialize (IH ltac:(rewrite <- app_assoc; exact Hc)).
  cbn [Annotation.direct_match_scan length seq List.filter].
  unfold annotation_test at 1. rewrite Hw.
  set (cp := Spec.word_offset contents (length pre)) in *.
  assert (Hsel :
    (if (match_start <=? cp) && (cp <? match_start + len_error)
     then negb (bool_decide (length pre ∈ used))
     else if (cp <? match_start + len_error)
             && (match_start <=? cp + length w)
          then negb (bool_decide (length pre ∈ used)) else false)
    = (cp <? match_start + len_error) && (match_start <=? cp + length w)
      && negb (bool_decide (length pre ∈ used))).
  { destruct (Nat.leb_spec match_start cp), (Nat.ltb_spec cp (match_start + len_error)),
      (Nat.leb_spec match_start (cp + length w)); simpl; try reflexivity; lia. }
  rewrite Hsel. clear Hsel.
  assert (Htail :
    (if match_start + len_error <? cp + length w + 1 then []
     else Annotation.direct_match_scan used match_start len_error rest
            (S (length pre)) (cp + length w + 1))
    = List.filter
        (fun i => annotation_test contents match_start (match_start + len_error) i
                  && negb (bool_decide (i ∈ used)))
        (seq (S (length pre)) (length rest))).
  { destruct (Nat.ltb_spec (match_start + len_error) (cp + length w + 1)) as [Hlt|Hge];
      [|exact IH].
    symmetry. apply filter_seq_nil. intros i Hi.
    unfold annotation_test. destruct (contents !! i) as [wi|] eqn:Hwi; [|reflexivity].
    pose proof (word_offset_mono contents (S (length pre)) i ltac:(lia)) as Hm.
    rewrite (word_offset_S _ _ _ Hw) in Hm. fold cp in Hm.
    destruct (Nat.ltb_spec (Spec.word_offset contents i) (match_start + len_error));
      [lia|reflexivity]. }
  rewrite Htail.
  destruct ((cp <? match_start + len_error) && (match_start <=? cp + length w)
            && negb (bool_decide (length pre ∈ used))); reflexivity.
Qed.

Lemma overlap_scan_filter match_start match_end contents rest pre :
  contents = pre ++ rest ->
  PdfErrorAnnotator.overlap_scan match_start match_end rest (length pre)
    (Spec.word_offset contents (length pre))
  = List.filter (annotator_test contents match_start match_end)
      (seq (length pre) (length rest)).
Proof.
  revert pre. induction rest as [|w rest IH]; intros pre Hc; [reflexivity|].
  assert (Hw : contents !! length pre = Some w).
  { subst contents. rewrite lookup_app_r by lia.
    rewrite Nat.sub_diag. reflexivity. }
  specialize (IH (pre ++ [w])). rewrite length_app in IH. simpl in IH.
  rewrite Nat.add_1_r in IH. rewrite (word_offset_S _ _ _ Hw) in IH.
  specialize (IH ltac:(rewrite <- app_assoc; exact Hc)).
  cbn [PdfErrorAnnotator.overlap_scan length seq List.filter].
  unfold annotator_test at 1. rewrite Hw, IH.
  destruct ((Spec.word_offset contents (length pre) <=? match_end)
            && (match_start <=? Spec.word_offset contents (length pre) + length w));
    reflexivity.
Qed.

(** A word that ends where the match starts is followed by the separator,
    so the phrase would start with a space. *)
Lemma word_end_not_match_start contents p m i w :
  find (join_space contents) p = Some m ->
  p <> [] -> head p <> Some space ->
  contents !! i = Some w ->
  Spec.word_offset contents i + length w <> m.
Proof.
  intros Hfind Hne Hhead Hw Heq.
  destruct (join_space_split _ _ _ Hw) as (before & after & Hs & Hlen & Hafter & _).
  pose proof (find_bound _ _ _ Hfind) as Hb.
  destruct p as [|c p]; [congruence|].
  pose proof (find_chars _ _ _ 0 c Hfind eq_refl) as Hc.
  rewrite Nat.add_0_r, Hs, app_assoc in Hc.
  rewrite lookup_app_r in Hc by (rewrite length_app; lia).
  rewrite length_app, Hlen, Heq, Nat.sub_diag in Hc.
  destruct Hafter as [->|[t ->]]; [discriminate|].
  simpl in Hc, Hhead. congruence.
Qed.

(** A word that starts where the match ends is preceded by the separator,
    so the phrase would end with a space. *)
Lemma word_start_not_match_end contents p m i w :
  find (join_space contents) p = Some m ->
  p <> [] -> last p <> Some space ->
  contents !! i = Some w ->
  Spec.word_offset contents i <> m + length p.
Proof.
  intros Hfind Hne Hlast Hw Heq.
  destruct (join_space_split _ _ _ Hw) as (before & after & Hs & Hlen & _ & Hbefore).
  destruct (last p) as [c|] eqn:Hl; [|apply last_None in Hl; congruence].
  rewrite last_lookup in Hl.
  pose proof (find_chars _ _ _ _ c Hfind Hl) as Hc.
  assert (0 < length p) by (destruct p; [congruence|simpl; lia]).
  destruct Hbefore as [->|[t ->]]; [simpl in Hlen; lia|].
  rewrite length_app in Hlen. simpl in Hlen.
  rewrite Hs, <- app_assoc in Hc.
  rewrite lookup_app_r in Hc by lia.
  replace (m + pred (length p) - length t) with 0 in Hc by lia.
  simpl in Hc. congruence.
Qed.

End Scans.

(** ** Step 2: the words an exact match selects *)

Section ExactMatch.

Lemma annotation_test_overlap contents p m i :
  find (join_space contents) p = Some m ->
  p <> [] -> head p <> Some space ->
  annotation_test contents m (m + length p) i
  = Spec.word_overlaps contents m (m + length p) i.
Proof.
  intros Hfind Hne Hhead. unfold annotation_test, Spec.word_overlaps.
  destruct (contents !! i) as [w|] eqn:Hw; [|reflexivity].
  pose proof (word_end_not_match_start _ _ _ _ _ Hfind Hne Hhead Hw).
  unfold Spec.spans_overlap. f_equal.
  destruct (Nat.leb_spec m (Spec.word_offset contents i + length w)),
    (Nat.ltb_spec m (Spec.word_offset contents i + length w)); try reflexivity; lia.
Qed.

Lemma annotator_test_overlap contents p m i :
  find (join_space contents) p = Some m ->
  p <> [] -> head p <> Some space -> last p <> Some space ->
  annotator_test contents m (m + length p) i
  = Spec.word_overlaps contents m (m + length p) i.
Proof.
  intros Hfind Hne Hhead Hlast. unfold annotator_test, Spec.word_overlaps.
  destruct (contents !! i) as [w|] eqn:Hw; [|reflexivity].
  pose proof (word_end_not_match_start _ _ _ _ _ Hfind Hne Hhead Hw).
  pose proof (word_start_not_match_end _ _ _ _ _ Hfind Hne Hlast Hw).
  unfold Spec.spans_overlap.
  destruct (Nat.leb_spec m (Spec.word_offset contents i + length w)),
    (Nat.ltb_spec m (Spec.word_offset contents i + length w)),
    (Nat.leb_spec (Spec.word_offset contents i) (m + length p)),
    (Nat.ltb_spec (Spec.word_offset contents i) (m + length p));
    try reflexivity; lia.
Qed.

(** C3 (as amended): for a phrase that does not start with a space, the
    direct match of [Annotation.py] selects exactly the indices of the words
    whose character span overlaps the span of the leftmost occurrence,
    without the indices already used; when the phrase does not end with a
    space either, [pdf_error_annotator.py] selects exactly the overlapping
    indices, and leaves none out since it keeps no used set. *)
Theorem exact_match_selects_overlapping_words
    (matching_rows : list word_row) (used : gset nat) (error : str)
    (match_start : nat) :
  find (all_words_string matching_rows) error = Some match_start ->
  error <> [] ->
  head error <> Some space ->
  Annotation.direct_match_scan used match_start (length error)
    (map Content matching_rows) 0 0
  = Spec.overlapping_unused used (map Content matching_rows) match_start
      (match_start + length error)
  /\ (last error <> Some space ->
      PdfErrorAnnotator.match_word_indices matching_rows error
      = Some (Spec.overlapping_unused ∅ (map Content matching_rows)
                match_start (match_start + length error))).
Proof.
  intros Hfind Hne Hhead. unfold all_words_string in Hfind.
  set (contents := map Content matching_rows) in *.
  split.
  - pose proof (direct_match_scan_filter used match_start (length error)
                  contents contents [] eq_refl) as H.
    simpl length in H. rewrite word_offset_0 in H. rewrite H.
    unfold Spec.overlapping_unused. apply List.filter_ext. intros i.
    rewrite (annotation_test_overlap _ _ _ _ Hfind Hne Hhead). reflexivity.
  - intros Hlast. unfold PdfErrorAnnotator.match_word_indices, all_words_string.
    fold contents. rewrite Hfind. f_equal.
    pose proof (overlap_scan_filter match_start (match_start + length error)
                  contents contents [] eq_refl) as H.
    simpl length in H. rewrite word_offset_0 in H. rewrite H.
    unfold Spec.overlapping_unused. apply List.filter_ext. intros i.
    rewrite (annotator_test_overlap _ _ _ _ Hfind Hne Hhead Hlast).
    rewrite bool_decide_eq_false_2 by set_solver.
    rewrite andb_true_r. reflexivity.
Qed.

Lemma exact_match_selects_overlapping_words_witness :
  Annotation.direct_match_scan {[2]} 4 (length (py "quick brown"))
    (map Content sample_rows) 0 0
  = Spec.overlapping_unused {[2]} (map Content sample_rows) 4
      (4 + length (py "quick brown"))
  /\ (last (py "quick brown") <> Some space ->
      PdfErrorAnnotator.match_word_indices sample_rows (py "quick brown")
      = Some (Spec.overlapping_unused ∅ (map Content sample_rows)
                4 (4 + length (py "quick brown")))).
Proof.
  apply (exact_match_selects_overlapping_words sample_rows {[2]}
           (py "quick brown") 4);
    [reflexivity | discriminate | discriminate].
Defined.

(** C3 as stated fails: with two phrases "quick" the class selects word 1
    for the second one although the first one already took it (there is no
    used set to exclude it), and for the phrase "quick " it selects "brown"
    as well, a word whose span [10, 15) does not overlap the match
    [4, 10). *)
Lemma exact_match_selection_counterexample :
  PdfErrorAnnotator.match_word_indices sample_rows (py "quick") = Some [1]
  /\ find (all_words_string sample_rows) (py "quick") = Some 4
  /\ Spec.overlapping_unused {[1]} (map Content sample_rows) 4 9 = []
  /\ PdfErrorAnnotator.match_word_indices sample_rows (py "quick ")
     = Some [1; 2]
  /\ Spec.overlapping_unused ∅ (map Content sample_rows) 4 10 = [1].
Proof. repeat split; vm_compute; reflexivity. Qed.

End ExactMatch.

(** ** Line grouping never fails on a non-empty selection *)

Section Grouping.

Lemma length_insert_by_y b l : length (insert_by_y b l) = S (length l).
Proof.
  induction l as [|c l IH]; [reflexivity|]. simpl.
  destruct (Qle_bool (by0 b) (by0 c)); simpl; [reflexivity | rewrite IH; reflexivity].
Qed.

Lemma length_sort_by_y l : length (sort_by_y l) = length l.
Proof.
  induction l as [|b l IH]; [reflexivity|]. simpl.
  rewrite length_insert_by_y, IH. reflexivity.
Qed.

Lemma index_Ok {A} (l : list A) i :
  i < length l -> exists a, index l i = Ok a.
Proof.
  intros H. unfold index.
  destruct (lookup_lt_is_Some_2 l i H) as [a ->]. eauto.
Qed.

Lemma loc_Ok {A} (rows : list A) idxs :
  Forall (fun i => i < length rows) idxs ->
  exists l, loc rows idxs = Ok l /\ length l = length idxs.
Proof.
  induction 1 as [|i idxs Hi _ (l & IH & Hlen)]; [exists []; split; reflexivity|].
  simpl. destruct (lookup_lt_is_Some_2 rows i Hi) as [a ->].
  rewrite IH. exists (a :: l). simpl. split; [reflexivity | lia].
Qed.

Lemma append_to_last_Ok line_groups b :
  groups_ok line_groups ->
  exists lg, append_to_last line_groups b = Ok lg /\ groups_ok lg.
Proof.
  intros [Hne Hall]. destruct line_groups as [|g0 gs0] using rev_ind; [congruence|].
  clear IHgs0. unfold append_to_last. rewrite reverse_snoc.
  rewrite reverse_involutive. eexists. split; [reflexivity|].
  apply Forall_app in Hall as [Hgs _]. split.
  - destruct gs0; discriminate.
  - apply Forall_app. split; [exact Hgs|].
    constructor; [destruct g0; discriminate | constructor].
Qed.

Lemma group_lines_Ok tol phrase_bboxes ks line_groups :
  Forall (fun k => 1 <= k < length phrase_bboxes) ks ->
  groups_ok line_groups ->
  exists lg, group_lines tol phrase_bboxes ks line_groups = Ok lg /\ groups_ok lg.
Proof.
  intros Hks. revert line_groups.
  induction Hks as [|k ks [Hk1 Hk2] _ IH]; intros line_groups Hok.
  - exists line_groups. split; [reflexivity | exact Hok].
  - cbn [group_lines].
    destruct (index_Ok phrase_bboxes k Hk2) as [bk ->].
    destruct (index_Ok phrase_bboxes (k - 1) ltac:(lia)) as [bp ->].
    run. destruct (Qle_bool (Qabs (by0 bk - by0 bp)) tol).
    + destruct (append_to_last_Ok line_groups bk Hok) as (lg & -> & Hlg).
      run. apply IH. exact Hlg.
    + apply IH. destruct Hok as [Hne Hall]. split.
      * destruct line_groups; discriminate.
      * apply Forall_app. split; [exact Hall|].
        constructor; [discriminate | constructor].
Qed.

Lemma line_rect_Ok line : line <> [] -> exists r, line_rect line = Ok r.
Proof.
  destruct line as [|b line]; [congruence|]. intros _.
  unfold line_rect. simpl. eauto.
Qed.

Lemma line_rects_Ok line_groups :
  Forall (fun g => g <> []) line_groups ->
  exists rs, line_rects line_groups = Ok rs /\ length rs = length line_groups.
Proof.
  induction 1 as [|g gs Hg _ (rs & IH & Hlen)]; [exists []; split; reflexivity|].
  simpl. destruct (line_rect_Ok g Hg) as [r ->]. simpl. rewrite IH. simpl.
  exists (r :: rs). split; [reflexivity | simpl; lia].
Qed.

(** Sorting, grouping and drawing succeed on every non-empty list of boxes
    and yield at least one rectangle. *)
Lemma grouped_rects_Ok tol boxes :
  boxes <> [] -> exists rs, grouped_rects tol boxes = Ok rs /\ rs <> [].
Proof.
  intros Hne. unfold grouped_rects.
  assert (Hlen : 0 < length (sort_by_y boxes)).
  { rewrite length_sort_by_y. destruct boxes; [congruence | simpl; lia]. }
  destruct (index_Ok _ 0 Hlen) as [first ->]. run.
  destruct (group_lines_Ok tol (sort_by_y boxes)
              (seq 1 (length (sort_by_y boxes) - 1)) [[first]])
    as (lg & -> & Hne' & Hall).
  - apply Forall_forall. intros k Hk. apply elem_of_seq in Hk. lia.
  - split; [discriminate | constructor; [discriminate | constructor]].
  - run. destruct (line_rects_Ok lg Hall) as (rs & -> & Hl).
    exists rs. split; [reflexivity|].
    destruct rs; [destruct lg; [congruence | discriminate] | discriminate].
Qed.

(** On no boxes at all the first subscript raises. *)
Lemma grouped_rects_nil tol : grouped_rects tol [] = Raise IndexError.
Proof. reflexivity. Qed.

End Grouping.

(** ** Step 3: the runs of the partial matching *)

Section Runs.

Implicit Types matching_rows rest : list word_row.

(** [a != b] is false exactly for two equal identifiers that are not NaN. *)
Lemma span_ne_false a b :
  span_ne a b = false <-> exists v, a = SpanVal v /\ b = SpanVal v.
Proof.
  destruct a as [|u], b as [|v]; simpl;
    try (split; [discriminate | intros (w & ? & ?); discriminate]).
  rewrite negb_false_iff, bool_decide_eq_true. split.
  - intros ->. eauto.
  - intros (w & [= ->] & [= ->]). reflexivity.
Qed.

(** What the inner loop returns: the run it was given, extended by the [n]
    positions that follow, each of them joined to its predecessor by equal
    span identifiers. *)
Lemma extend_run_spec clean_error rest :
  forall built prev j temp_sequence seq' j',
    Annotation.extend_run clean_error built prev rest j temp_sequence
    = (seq', j') ->
    exists n,
      j' = j + n /\ n <= length rest /\ seq' = temp_sequence ++ seq j n
      /\ forall m, m < n ->
           exists a b, (prev :: rest) !! m = Some a /\ rest !! m = Some b
                       /\ span_ne (Next_Word_Span a) (Spans b) = false.
Proof.
  induction rest as [|cur rest IH]; intros built prev j temp seq' j' H.
  - injection H as <- <-. exists 0. rewrite app_nil_r.
    repeat split; [lia | lia | intros; lia].
  - cbn [Annotation.extend_run] in H.
    destruct (startswith clean_error built);
      [|injection H as <- <-; exists 0; rewrite app_nil_r;
        split; [|split; [|split]]; [lia | simpl; lia | reflexivity | intros; lia]].
    destruct (span_ne (Next_Word_Span prev) (Spans cur)) eqn:Hsp;
      [injection H as <- <-; exists 0; rewrite app_nil_r;
        split; [|split; [|split]]; [lia | simpl; lia | reflexivity | intros; lia]|].
    destruct (startswith clean_error (built ++ remove_spaces (Content cur)));
      [|injection H as <- <-; exists 0; rewrite app_nil_r;
        split; [|split; [|split]]; [lia | simpl; lia | reflexivity | intros; lia]].
    apply IH in H as (n & -> & Hn & -> & Hadj).
    exists (S n). split; [|split; [|split]].
    + lia.
    + simpl. lia.
    + rewrite <- app_assoc. reflexivity.
    + intros [|m] Hm.
      * exists prev, cur. repeat split. exact Hsp.
      * destruct (Hadj m ltac:(lia)) as (a & b & Ha & Hb & Hab).
        exists a, b. repeat split; assumption.
Qed.

Lemma scan_from_ok matching_rows used error sub_error fuel :
  forall i m,
    m ∈ Annotation.scan_from fuel matching_rows used error sub_error
          (remove_spaces sub_error) i ->
    candidate_ok matching_rows used error m /\ Annotation.sub_error m = sub_error.
Proof.
  induction fuel as [|fuel IH]; intros i m Hm; [inversion Hm|].
  cbn [Annotation.scan_from] in Hm.
  destruct (drop i matching_rows) as [|row_i rest] eqn:Hd; [inversion Hm|].
  destruct (bool_decide (i ∈ used)) eqn:Hu; [exact (IH _ _ Hm)|].
  apply bool_decide_eq_false in Hu.
  destruct (Annotation.extend_run _ _ _ _ _ _) as [temp j] eqn:Hrun.
  apply extend_run_spec in Hrun as (n & -> & Hn & -> & Hadj).
  match type of Hm with
  | _ ∈ (if ?c then _ else _) => destruct c eqn:Hc
  end; [|exact (IH _ _ Hm)].
  apply elem_of_cons in Hm as [->|Hm]; [|exact (IH _ _ Hm)].
  apply andb_true_iff in Hc as [Hpre Hlen]. apply Nat.ltb_lt in Hlen.
  split; [|reflexivity]. unfold candidate_ok. cbn.
  assert (Hlenrows : i + S (length rest) = length matching_rows).
  { destruct (decide (i < length matching_rows)).
    - apply (f_equal length) in Hd. rewrite length_drop in Hd.
      simpl in Hd. lia.
    - rewrite drop_ge in Hd by lia. discriminate. }
  repeat split; try assumption; try reflexivity.
  - exists i, n. split; [reflexivity|]. split; [lia|].
    intros k Hk. destruct (Hadj (k - i) ltac:(lia)) as (a & b & Ha & Hb & Hab).
    exists a, b. split; [|split; [|exact Hab]].
    + rewrite <- Hd, lookup_drop in Ha.
      replace (i + (k - i)) with k in Ha by lia. exact Ha.
    + assert (Hd' : rest = drop (S i) matching_rows).
      { replace (S i) with (i + 1) by lia.
        rewrite <- drop_drop, Hd. reflexivity. }
      rewrite Hd', lookup_drop in Hb.
      replace (S i + (k - i)) with (S k) in Hb by lia. exact Hb.
  - exists i. split; [reflexivity | exact Hu].
Qed.

(** Every candidate of a phrase is well formed. *)
Lemma partial_matches_ok matching_rows used error m :
  m ∈ Annotation.partial_matches matching_rows used error ->
  candidate_ok matching_rows used error m.
Proof.
  unfold Annotation.partial_matches. intros Hm.
  apply list_elem_of_In, in_flat_map in Hm as (start & _ & Hm).
  apply list_elem_of_In in Hm. apply scan_from_ok in Hm. apply Hm.
Qed.

End Runs.

Section Fuel.

(** The scan is given as much fuel as the window has rows; more would not
    change what it returns, since every iteration moves [i] forward. *)
Lemma scan_from_fuel matching_rows used error sub_error clean_error fuel1 :
  forall fuel2 i,
    length matching_rows - i <= fuel1 ->
    length matching_rows - i <= fuel2 ->
    Annotation.scan_from fuel1 matching_rows used error sub_error clean_error i
    = Annotation.scan_from fuel2 matching_rows used error sub_error
        clean_error i.
Proof.
  induction fuel1 as [|fuel1 IH]; intros fuel2 i H1 H2.
  - destruct fuel2 as [|fuel2]; [reflexivity|].
    cbn [Annotation.scan_from]. rewrite drop_ge by lia. reflexivity.
  - destruct fuel2 as [|fuel2].
    + cbn [Annotation.scan_from]. rewrite drop_ge by lia. reflexivity.
    + cbn [Annotation.scan_from].
      destruct (drop i matching_rows) as [|row_i rest] eqn:Hd; [reflexivity|].
      assert (i < length matching_rows).
      { destruct (decide (i < length matching_rows)); [assumption|].
        rewrite drop_ge in Hd by lia. discriminate. }
      destruct (bool_decide (i ∈ used)); [apply IH; lia|].
      destruct (Annotation.extend_run _ _ _ _ _ _) as [temp j] eqn:Hrun.
      apply extend_run_spec in Hrun as (n & -> & _ & -> & _).
      match goal with
      | |- (if ?c then _ else _) = _ => destruct c
      end; [f_equal|]; apply IH; lia.
Qed.

End Fuel.

(** ** C5: adjacency of the words of a run *)

(** C5: every candidate of the partial matching is a run of consecutive
    window positions whose text is the concatenation of its words, and any
    two neighbouring words [k], [k + 1] of the run have equal span
    identifiers ([Next Word Span] of the first, [Spans] of the second); so
    where the two identifiers differ the run holds [k] without [k + 1]. *)
Theorem partial_runs_respect_adjacency
    (matching_rows : list word_row) (used : gset nat) (error : str)
    (m : Annotation.candidate) :
  m ∈ Annotation.partial_matches matching_rows used error ->
  (exists i n, Annotation.sequence m = seq i (S n)
               /\ i + n < length matching_rows)
  /\ Annotation.text m
     = join_empty (map (Annotation.content_at matching_rows)
                     (Annotation.sequence m))
  /\ (forall k a b,
        k ∈ Annotation.sequence m -> S k ∈ Annotation.sequence m ->
        matching_rows !! k = Some a -> matching_rows !! S k = Some b ->
        span_ne (Next_Word_Span a) (Spans b) = false
        /\ Next_Word_Span a = Spans b)
  /\ (forall k a b,
        k ∈ Annotation.sequence m ->
        matching_rows !! k = Some a -> matching_rows !! S k = Some b ->
        span_ne (Next_Word_Span a) (Spans b) = true ->
        S k ∉ Annotation.sequence m).
Proof.
  intros Hm. apply partial_matches_ok in Hm as ((i & n & Hseq & Hlen & Hadj) & Htext & _).
  assert (Hpair : forall k a b,
    k ∈ Annotation.sequence m -> S k ∈ Annotation.sequence m ->
    matching_rows !! k = Some a -> matching_rows !! S k = Some b ->
    span_ne (Next_Word_Span a) (Spans b) = false).
  { intros k a b Hk HSk Ha Hb. rewrite Hseq in Hk, HSk.
    apply elem_of_seq in Hk, HSk.
    destruct (Hadj k ltac:(lia)) as (a' & b' & Ha' & Hb' & Hab).
    congruence. }
  split; [eauto|]. split; [exact Htext|]. split.
  - intros k a b Hk HSk Ha Hb. pose proof (Hpair _ _ _ Hk HSk Ha Hb) as Hne.
    split; [exact Hne|].
    apply span_ne_false in Hne as (v & -> & ->). reflexivity.
  - intros k a b Hk Ha Hb Hne HSk.
    rewrite (Hpair _ _ _ Hk HSk Ha Hb) in Hne. discriminate.
Qed.

Lemma partial_runs_respect_adjacency_witness :
  let m := Annotation.Candidate [1; 2] (py "quickbrown") false 10
             (py "quick brownie") (py "quick brownie") in
  (exists i n, Annotation.sequence m = seq i (S n)
               /\ i + n < length sample_rows)
  /\ Annotation.text m
     = join_empty (map (Annotation.content_at sample_rows)
                     (Annotation.sequence m))
  /\ (forall k a b,
        k ∈ Annotation.sequence m -> S k ∈ Annotation.sequence m ->
        sample_rows !! k = Some a -> sample_rows !! S k = Some b ->
        span_ne (Next_Word_Span a) (Spans b) = false
        /\ Next_Word_Span a = Spans b)
  /\ (forall k a b,
        k ∈ Annotation.sequence m ->
        sample_rows !! k = Some a -> sample_rows !! S k = Some b ->
        span_ne (Next_Word_Span a) (Spans b) = true ->
        S k ∉ Annotation.sequence m).
Proof.
  apply (partial_runs_respect_adjacency sample_rows ∅ (py "quick brownie")).
  vm_compute. left.
Defined.

(** ** C6: the choice among the candidates *)

Section Selection.

Import Annotation.

Lemma filter_first_split {A} (f : A -> bool) (l : list A) m rest :
  List.filter f l = m :: rest ->
  f m = true
  /\ exists pre post, l = pre ++ m :: post /\ Forall (fun c => f c = false) pre.
Proof.
  induction l as [|a l IH]; [discriminate|]. simpl.
  destruct (f a) eqn:Ha.
  - intros [= -> <-]. split; [exact Ha|]. exists [], l. split; [reflexivity | constructor].
  - intros H. destruct (IH H) as (Hm & pre & post & -> & Hpre).
    split; [exact Hm|]. exists (a :: pre), post.
    split; [reflexivity | constructor; assumption].
Qed.

Lemma find_first_split {A} (f : A -> bool) (l : list A) m :
  List.find f l = Some m ->
  f m = true
  /\ exists pre post, l = pre ++ m :: post /\ Forall (fun c => f c = false) pre.
Proof.
  induction l as [|a l IH]; [discriminate|]. simpl.
  destruct (f a) eqn:Ha.
  - intros [= ->]. split; [exact Ha|]. exists [], l. split; [reflexivity | constructor].
  - intros H. destruct (IH H) as (Hm & pre & post & -> & Hpre).
    split; [exact Hm|]. exists (a :: pre), post.
    split; [reflexivity | constructor; assumption].
Qed.

Lemma find_max_Some (all_matches : list candidate) :
  all_matches <> [] ->
  exists m,
    List.find (fun m => length_ m =? max_list (map length_ all_matches))
      all_matches = Some m.
Proof.
  intros Hne.
  assert (Hin : max_list (map length_ all_matches) ∈ map length_ all_matches).
  { apply max_list_elem_of. destruct all_matches; [congruence | discriminate]. }
  apply list_elem_of_In, in_map_iff in Hin as (c & Hc & Hcin).
  destruct (List.find _ all_matches) as [m|] eqn:Hf; [eauto|].
  pose proof (List.find_none _ _ Hf c Hcin) as Hnone. simpl in Hnone.
  apply Nat.eqb_neq in Hnone. congruence.
Qed.

(** The winner is a candidate; it is the first full match when there is a
    full match, and otherwise the first candidate of maximum length. *)
Lemma select_match_split (all_matches : list candidate) m :
  select_match all_matches = Some m ->
  exists pre post,
    all_matches = pre ++ m :: post
    /\ ((exists c, c ∈ all_matches /\ is_full_match c = true) ->
        is_full_match m = true
        /\ Forall (fun c => is_full_match c = false) pre)
    /\ ((forall c, c ∈ all_matches -> is_full_match c = false) ->
        (forall c, c ∈ all_matches -> length_ c <= length_ m)
        /\ Forall (fun c => length_ c < length_ m) pre).
Proof.
  intros Hsel. unfold select_match in Hsel.
  destruct (List.filter is_full_match all_matches) as [|f fs] eqn:Hfilter.
  - assert (Hnofull : forall c, c ∈ all_matches -> is_full_match c = false).
    { intros c Hc. destruct (is_full_match c) eqn:Hf; [|reflexivity].
      assert (Hin : In c (List.filter is_full_match all_matches))
        by (apply filter_In; split; [apply list_elem_of_In|]; assumption).
      rewrite Hfilter in Hin. destruct Hin. }
    destruct all_matches as [|c0 cs] eqn:Hall; [discriminate|].
    rewrite <- Hall in *. clear Hall c0 cs.
    apply find_first_split in Hsel as (Hmax & pre & post & Hsplit & Hpre).
    apply Nat.eqb_eq in Hmax.
    assert (Hle : forall c, c ∈ all_matches -> length_ c <= length_ m).
    { intros c Hc. rewrite Hmax. apply max_list_elem_of_le.
      apply list_elem_of_In, in_map, list_elem_of_In, Hc. }
    exists pre, post. split; [exact Hsplit|]. split.
    + intros (c & Hc & Hf). rewrite (Hnofull c Hc) in Hf. discriminate.
    + intros _. split; [exact Hle|].
      apply Forall_forall. intros c Hc.
      assert (Hcall : c ∈ all_matches).
      { rewrite Hsplit. apply elem_of_app. left. exact Hc. }
      pose proof (Hle c Hcall).
      rewrite Forall_forall in Hpre. specialize (Hpre c Hc).
      apply Nat.eqb_neq in Hpre. lia.
  - injection Hsel as ->.
    apply filter_first_split in Hfilter as (Hfull & pre & post & Hsplit & Hpre).
    exists pre, post. split; [exact Hsplit|]. split.
    + intros _. split; assumption.
    + intros Hno. rewrite Hno in Hfull; [discriminate|].
      rewrite Hsplit. apply elem_of_app. right. left.
Qed.

Lemma select_match_elem (all_matches : list candidate) m :
  select_match all_matches = Some m -> m ∈ all_matches.
Proof.
  intros H. apply select_match_split in H as (pre & post & -> & _).
  apply elem_of_app. right. left.
Qed.

Lemma select_match_Some (all_matches : list candidate) :
  all_matches <> [] -> exists m, select_match all_matches = Some m.
Proof.
  intros Hne. unfold select_match.
  destruct (List.filter is_full_match all_matches) as [|f fs]; [|eauto].
  destruct all_matches as [|c cs] eqn:Hall; [congruence|].
  apply find_max_Some. discriminate.
Qed.

(** C6: among the candidates collected for one phrase, a full match (one
    whose stripped text equals the stripped suffix it was matched against)
    wins over every candidate that is not full, the first full match being
    taken; when none is full the winner has the maximum stripped length, and
    every candidate found before it is strictly shorter; a winner exists as
    soon as there is a candidate. *)
Theorem select_match_prefers_full_then_longest
    (matching_rows : list word_row) (used : gset nat) (error : str) :
  let all_matches := partial_matches matching_rows used error in
  (forall c, c ∈ all_matches ->
     is_full_match c
     = bool_decide (remove_spaces (text c) = remove_spaces (sub_error c))
     /\ length_ c = length (remove_spaces (text c)))
  /\ (all_matches <> [] -> exists m, select_match all_matches = Some m)
  /\ (forall m, select_match all_matches = Some m ->
        exists pre post,
          all_matches = pre ++ m :: post
          /\ ((exists c, c ∈ all_matches /\ is_full_match c = true) ->
              is_full_match m = true
              /\ Forall (fun c => is_full_match c = false) pre)
          /\ ((forall c, c ∈ all_matches -> is_full_match c = false) ->
              (forall c, c ∈ all_matches -> length_ c <= length_ m)
              /\ Forall (fun c => length_ c < length_ m) pre)).
Proof.
  intros all_matches. split; [|split].
  - intros c Hc. apply partial_matches_ok in Hc as (_ & _ & Hlen & _ & Hfull & _).
    split; assumption.
  - apply select_match_Some.
  - apply select_match_split.
Qed.

End Selection.

(** ** The used set along a paragraph *)

Section UsedIndices.

Import Annotation.

Lemma direct_match_scan_elem used match_start len_error contents x :
  x ∈ direct_match_scan used match_start len_error contents 0 0 ->
  x < length contents /\ x ∉ used.
Proof.
  pose proof (direct_match_scan_filter used match_start len_error contents
                contents [] eq_refl) as H.
  simpl length in H. rewrite word_offset_0 in H. rewrite H.
  intros Hx. apply list_elem_of_In, filter_In in Hx as [Hin Hf].
  apply in_seq in Hin. apply andb_true_iff in Hf as [_ Hu].
  apply negb_true_iff, bool_decide_eq_false in Hu. split; [lia | exact Hu].
Qed.

Lemma any_used_false used s :
  any_used used s = false <-> forall x, x ∈ s -> x ∉ used.
Proof.
  unfold any_used. induction s as [|a s IH]; simpl.
  - split; [intros _ x Hx; inversion Hx | reflexivity].
  - rewrite orb_false_iff, IH, bool_decide_eq_false. split.
    + intros [Ha Hs] x Hx. apply elem_of_cons in Hx as [->|Hx]; auto.
    + intros H. split; [apply H; left | intros x Hx; apply H; right; exact Hx].
Qed.

Lemma any_used_true used s :
  any_used used s = true <-> exists x, x ∈ s /\ x ∈ used.
Proof.
  unfold any_used. rewrite existsb_exists. split.
  - intros (x & Hx & Hu). exists x. split; [apply list_elem_of_In, Hx|].
    apply bool_decide_eq_true in Hu. exact Hu.
  - intros (x & Hx & Hu). exists x. split; [apply list_elem_of_In, Hx|].
    apply bool_decide_eq_true. exact Hu.
Qed.

(** Highlighting a non-empty selection of window positions succeeds, adds
    the selection to the used set and at least one annotation to the page. *)
Lemma highlight_Ok matching_rows idxs error st :
  idxs <> [] ->
  Forall (fun i => i < length matching_rows) idxs ->
  exists rects,
    rects <> []
    /\ highlight matching_rows idxs error st
       = Ok (State (used_indices st ∪ list_to_set idxs)
               (annots st
                ++ map (fun r => Annot r None (py "Error Phrase: " ++ error))
                     rects)).
Proof.
  intros Hne Hall. unfold highlight.
  destruct (loc_Ok (map Clipbounds matching_rows) idxs) as (boxes & -> & Hlen).
  { rewrite length_map. exact Hall. }
  run. destruct (grouped_rects_Ok LINE_TOLERANCE boxes) as (rects & -> & Hrects).
  { destruct boxes; [destruct idxs; [congruence | discriminate] | discriminate]. }
  run. eauto.
Qed.

(** What an iteration of the phrase loop does to the state, whatever the
    phrase: it returns, the indices it accepts were unused and are window
    positions, the used set grows by exactly these, and a phrase that
    accepts nothing leaves the state as it was. *)
Lemma process_error_spec matching_rows st error :
  exists st' o,
    process_error matching_rows st error = Ok (st', o)
    /\ used_indices st' = used_indices st ∪ list_to_set (accepted o)
    /\ (forall x, x ∈ accepted o ->
          (x ∉ used_indices st) /\ x < length matching_rows)
    /\ (accepted o = [] -> st' = st)
    /\ (accepted o <> [] ->
        exists rects, rects <> []
          /\ annots st'
             = annots st
               ++ map (fun r => Annot r None (py "Error Phrase: " ++ error))
                    rects).
Proof.
  assert (Hskip : forall o, accepted o = [] ->
    exists st' o',
      Ok (st, o) = Ok (st', o')
      /\ used_indices st' = used_indices st ∪ list_to_set (accepted o')
      /\ (forall x, x ∈ accepted o' ->
            (x ∉ used_indices st) /\ x < length matching_rows)
      /\ (accepted o' = [] -> st' = st)
      /\ (accepted o' <> [] ->
          exists rects, rects <> []
            /\ annots st'
               = annots st
                 ++ map (fun r => Annot r None (py "Error Phrase: " ++ error))
                      rects)).
  { intros o Ho. exists st, o. rewrite Ho. simpl.
    split; [reflexivity|]. split; [set_solver|].
    split; [intros x Hx; inversion Hx|]. split; [reflexivity | congruence]. }
  assert (Hpartial : exists st' o,
    partial_matching matching_rows st error = Ok (st', o)
    /\ used_indices st' = used_indices st ∪ list_to_set (accepted o)
    /\ (forall x, x ∈ accepted o ->
          (x ∉ used_indices st) /\ x < length matching_rows)
    /\ (accepted o = [] -> st' = st)
    /\ (accepted o <> [] ->
        exists rects, rects <> []
          /\ annots st'
             = annots st
               ++ map (fun r => Annot r None (py "Error Phrase: " ++ error))
                    rects)).
  { unfold partial_matching.
    destruct (select_match _) as [m|] eqn:Hsel; [|apply Hskip; reflexivity].
    pose proof (select_match_elem _ _ Hsel) as Hm.
    apply partial_matches_ok in Hm
      as ((i & n & Hseq & Hlen & _) & _ & _ & _ & _ & _ & Horig & _).
    destruct (any_used (used_indices st) (sequence m)) eqn:Hany;
      [apply Hskip; reflexivity|].
    cbn [negb].
    destruct (highlight_Ok matching_rows (sequence m) (original_error m) st)
      as (rects & Hrects & ->).
    { rewrite Hseq. discriminate. }
    { rewrite Hseq. apply Forall_forall. intros x Hx.
      apply elem_of_seq in Hx. lia. }
    run. eexists _, _. split; [reflexivity|]. cbn.
    split; [reflexivity|]. split; [|split].
    - intros x Hx. split; [eapply any_used_false; eassumption|].
      rewrite Hseq in Hx. apply elem_of_seq in Hx. lia.
    - rewrite Hseq. discriminate.
    - intros _. exists rects. rewrite Horig. split; [assumption | reflexivity]. }
  unfold process_error. destruct error as [|c error]; [apply Hskip; reflexivity|].
  destruct (find _ _) as [match_start|]; [|exact Hpartial].
  destruct (direct_match_scan _ _ _ _ _ _) as [|x xs] eqn:Hscan; [exact Hpartial|].
  destruct (highlight_Ok matching_rows (x :: xs) (c :: error) st)
    as (rects & Hrects & ->).
  { discriminate. }
  { apply Forall_forall. intros y Hy. rewrite <- Hscan in Hy.
    apply direct_match_scan_elem in Hy as [Hy _].
    rewrite length_map in Hy. exact Hy. }
  run. eexists _, _. split; [reflexivity|]. cbn.
  split; [reflexivity|]. split; [|split].
  - intros y Hy. rewrite <- Hscan in Hy.
    apply direct_match_scan_elem in Hy as [Hy Hu].
    rewrite length_map in Hy. split; assumption.
  - discriminate.
  - intros _. exists rects. split; [assumption | reflexivity].
Qed.

(** The loop over the phrases returns for every list of phrases, with one
    outcome per phrase; the used set it ends with is the one it started
    with plus everything accepted, and what a later phrase accepts is apart
    from what an earlier one accepted. *)
Lemma process_errors_spec matching_rows error_list :
  forall st,
  exists st' outs,
    process_errors matching_rows st error_list = Ok (st', outs)
    /\ length outs = length error_list
    /\ used_indices st'
       = used_indices st ∪ list_to_set (concat (map accepted outs))
    /\ (forall o x, o ∈ outs -> x ∈ accepted o -> x ∉ used_indices st)
    /\ (forall i j oi oj x,
          i < j -> outs !! i = Some oi -> outs !! j = Some oj ->
          x ∈ accepted oi -> x ∉ accepted oj).
Proof.
  induction error_list as [|error rest IH]; intros st.
  - exists st, []. cbn. split; [reflexivity|]. split; [reflexivity|].
    split; [set_solver|]. split.
    + intros o x Ho. inversion Ho.
    + intros i j oi oj x _ Hi. rewrite lookup_nil in Hi. discriminate.
  - cbn [process_errors].
    destruct (process_error_spec matching_rows st error)
      as (st1 & o & -> & Hused1 & Hfresh1 & _).
    run. destruct (IH st1) as (st2 & os & -> & Hlen & Hused2 & Hfresh2 & Hdisj).
    run. exists st2, (o :: os). split; [reflexivity|]. split; [simpl; lia|].
    split; [|split].
    + rewrite Hused2, Hused1. cbn. rewrite list_to_set_app_L. set_solver.
    + intros o' x Ho' Hx. apply elem_of_cons in Ho' as [->|Ho'].
      * apply Hfresh1. exact Hx.
      * pose proof (Hfresh2 o' x Ho' Hx) as Hn. rewrite Hused1 in Hn. set_solver.
    + intros i j oi oj x Hij Hi Hj Hx.
      destruct j as [|j]; [lia|]. cbn in Hj.
      destruct i as [|i].
      * cbn in Hi. injection Hi as <-. intros Hxj.
        apply (Hfresh2 oj x); [eapply list_elem_of_lookup_2; eassumption | exact Hxj |].
        rewrite Hused1. set_solver.
      * cbn in Hi. apply (Hdisj i j oi oj x); [lia | assumption..].
Qed.

End UsedIndices.

(** ** C1: no word index is used twice *)

Section NoDoubleUse.

Import Annotation.

Lemma process_errors_app matching_rows l1 l2 :
  forall st,
    process_errors matching_rows st (l1 ++ l2)
    = '(st1, o1) ← process_errors matching_rows st l1;
      '(st2, o2) ← process_errors matching_rows st1 l2;
      Ok (st2, o1 ++ o2).
Proof.
  induction l1 as [|e l1 IH]; intros st.
  - cbn. destruct (process_errors matching_rows st l2) as [[st2 o2]|]; reflexivity.
  - cbn [app process_errors].
    destruct (process_error matching_rows st e) as [[st1 o]|]; [|reflexivity].
    run. rewrite IH.
    destruct (process_errors matching_rows st1 l1) as [[st1' o1]|]; [|reflexivity].
    run. destruct (process_errors matching_rows st1' l2) as [[st2 o2]|]; reflexivity.
Qed.

(** C1 (as amended): in [Annotation.py] the pass over a paragraph returns
    for every window and every list of phrases; the index sets accepted for
    two distinct phrases are disjoint; and after any number [k] of phrases
    the used set is exactly the union of what these [k] phrases accepted,
    hence included in the set after more phrases: it only grows and is never
    reset. *)
Theorem used_indices_disjoint_and_growing
    (matching_rows : list word_row) (page : list annot)
    (error_list : list str) :
  exists st outs,
    process_paragraph_words matching_rows page error_list = Ok (st, outs)
    /\ length outs = length error_list
    /\ (forall i j oi oj x,
          i <> j -> outs !! i = Some oi -> outs !! j = Some oj ->
          x ∈ accepted oi -> x ∉ accepted oj)
    /\ (forall k,
          exists stk,
            process_paragraph_words matching_rows page (take k error_list)
            = Ok (stk, take k outs)
            /\ used_indices stk
               = list_to_set (concat (map accepted (take k outs)))
            /\ used_indices stk ⊆ used_indices st).
Proof.
  unfold process_paragraph_words.
  destruct (process_errors_spec matching_rows error_list (State ∅ page))
    as (st & outs & Hrun & Hlen & Hused & _ & Hdisj).
  exists st, outs. split; [exact Hrun|]. split; [exact Hlen|]. split.
  - intros i j oi oj x Hij Hi Hj Hx Hxj.
    destruct (Nat.lt_total i j) as [Hlt|[Heq|Hgt]]; [|lia|].
    + exact (Hdisj i j oi oj x Hlt Hi Hj Hx Hxj).
    + exact (Hdisj j i oj oi x Hgt Hj Hi Hxj Hx).
  - intros k.
    destruct (process_errors_spec matching_rows (take k error_list) (State ∅ page))
      as (stk & outk & Hrunk & Hlenk & Husedk & _).
    destruct (process_errors_spec matching_rows (drop k error_list) stk)
      as (st2 & out2 & Hrun2 & _ & Hused2 & _).
    pose proof (process_errors_app matching_rows (take k error_list)
                  (drop k error_list) (State ∅ page)) as Happ.
    rewrite take_drop, Hrun, Hrunk in Happ. cbn in Happ.
    rewrite Hrun2 in Happ. cbn in Happ. injection Happ as -> ->.
    assert (Htake : take k (outk ++ out2) = outk).
    { rewrite length_take in Hlenk.
      rewrite length_app in Hlen.
      destruct (decide (k <= length error_list)).
      - rewrite take_app_length' by lia. reflexivity.
      - rewrite take_ge by (rewrite length_app; lia).
        assert (length out2 = 0) as Hz by lia.
        destruct out2; [apply app_nil_r | discriminate]. }
    exists stk. rewrite Htake. split; [exact Hrunk|]. split.
    + rewrite Husedk. cbn. set_solver.
    + rewrite Hused2. set_solver.
Qed.

End NoDoubleUse.

(** ** Every offset of the window string belongs to a word *)

Section Covering.

Lemma word_offset_app_l (l1 l2 : list str) i :
  i <= length l1 -> Spec.word_offset (l1 ++ l2) i = Spec.word_offset l1 i.
Proof.
  intros Hi. unfold Spec.word_offset. rewrite take_app_le by lia. reflexivity.
Qed.

Lemma length_join_space_snoc (l : list str) w :
  length (join_space (l ++ [w]))
  = Spec.word_offset (l ++ [w]) (length l) + length w.
Proof.
  rewrite word_offset_app_l by lia.
  rewrite word_offset_join by lia.
  destruct l as [|w0 l]; [reflexivity|].
  rewrite join_space_app by discriminate.
  rewrite take_ge by lia. rewrite length_app. simpl. lia.
Qed.

(** An offset up to the length of the string lies in a word or on the
    separator right after it. *)
Lemma covering_word (contents : list str) m :
  contents <> [] -> m <= length (join_space contents) ->
  exists i w,
    contents !! i = Some w
    /\ Spec.word_offset contents i <= m <= Spec.word_offset contents i + length w.
Proof.
  induction contents as [|w l IH] using rev_ind; [congruence|].
  intros _ Hm. rewrite length_join_space_snoc in Hm.
  destruct (decide (Spec.word_offset (l ++ [w]) (length l) <= m)) as [Hle|Hgt].
  - exists (length l), w. split; [|lia].
    rewrite lookup_app_r by lia. rewrite Nat.sub_diag. reflexivity.
  - assert (Hl : l <> []).
    { intros ->. simpl in Hgt. rewrite word_offset_0 in Hgt. lia. }
    rewrite word_offset_app_l in Hgt by lia.
    rewrite word_offset_join in Hgt by lia.
    destruct l as [|w0 l'] eqn:El; [congruence|]. rewrite <- El in *.
    assert (Hlen : length l = S (length l')) by (rewrite El; reflexivity).
    rewrite Hlen in Hgt. rewrite <- Hlen in Hgt.
    rewrite take_ge in Hgt by lia.
    destruct (IH Hl ltac:(lia)) as (i & wi & Hi & Hrange).
    exists i, wi. pose proof (lookup_lt_Some _ _ _ Hi).
    rewrite lookup_app_l by lia. rewrite word_offset_app_l by lia.
    split; assumption.
Qed.

(** The word that holds the start of an occurrence passes the test of both
    scans. *)
Lemma occurrence_touches_word (contents : list str) p m :
  contents <> [] -> p <> [] ->
  find (join_space contents) p = Some m ->
  exists i,
    i < length contents
    /\ annotation_test contents m (m + length p) i = true
    /\ annotator_test contents m (m + length p) i = true.
Proof.
  intros Hc Hp Hfind. pose proof (find_bound _ _ _ Hfind) as Hb.
  assert (0 < length p) by (destruct p; [congruence | simpl; lia]).
  destruct (covering_word contents m Hc ltac:(lia)) as (i & w & Hi & Hlo & Hhi).
  exists i. split; [eapply lookup_lt_Some; eassumption|].
  unfold annotation_test, annotator_test. rewrite Hi.
  split; apply andb_true_iff; split;
    first [apply Nat.ltb_lt | apply Nat.leb_le]; lia.
Qed.

End Covering.

(** ** C2: exact match before partial alignment *)

Section Precedence.

Import Annotation.

(** The scan with a used set is the scan with none, without the used
    indices. *)
Lemma direct_match_scan_used used match_start len_error contents :
  direct_match_scan used match_start len_error contents 0 0
  = List.filter (fun i => negb (bool_decide (i ∈ used)))
      (direct_match_scan ∅ match_start len_error contents 0 0).
Proof.
  pose proof (direct_match_scan_filter used match_start len_error contents
                contents [] eq_refl) as H1.
  pose proof (direct_match_scan_filter ∅ match_start len_error contents
                contents [] eq_refl) as H2.
  simpl length in H1, H2. rewrite word_offset_0 in H1, H2. rewrite H1, H2.
  clear H1 H2.
  induction (seq 0 (length contents)) as [|i l IH]; [reflexivity|].
  simpl. rewrite (bool_decide_eq_false_2 (i ∈ (∅ : gset nat))) by set_solver.
  simpl. rewrite andb_true_r.
  destruct (annotation_test contents match_start (match_start + len_error) i);
    simpl; [|exact IH].
  destruct (negb (bool_decide (i ∈ used))); [f_equal|]; exact IH.
Qed.

Lemma direct_match_scan_touches contents p m :
  contents <> [] -> p <> [] ->
  find (join_space contents) p = Some m ->
  direct_match_scan ∅ m (length p) contents 0 0 <> [].
Proof.
  intros Hc Hp Hfind.
  destruct (occurrence_touches_word contents p m Hc Hp Hfind) as (i & Hi & Ht & _).
  pose proof (direct_match_scan_filter ∅ m (length p) contents contents []
                eq_refl) as H.
  simpl length in H. rewrite word_offset_0 in H. rewrite H.
  match goal with |- ?l <> [] => assert (Hin : In i l) end.
  { apply filter_In. split; [apply in_seq; lia|].
    rewrite Ht, bool_decide_eq_false_2 by set_solver. reflexivity. }
  intros Hnil. rewrite Hnil in Hin. destruct Hin.
Qed.

(** C2 (as amended): a non-empty phrase that occurs in the window string is
    found by the direct match; if a word touched by its leftmost occurrence
    is still unused, the phrase is settled by the direct match on the unused
    touched words and the partial matching is not entered (in particular for
    the first phrase of a paragraph); if every touched word is already used,
    the direct match selects nothing and the phrase goes through the partial
    matching. *)
Theorem exact_match_precedes_partial
    (matching_rows : list word_row) (st : state) (error pre suf : str) :
  error <> [] ->
  all_words_string matching_rows = pre ++ error ++ suf ->
  exists match_start,
    find (all_words_string matching_rows) error = Some match_start
    /\ let touched :=
         direct_match_scan ∅ match_start (length error)
           (map Content matching_rows) 0 0 in
       let unused :=
         List.filter (fun i => negb (bool_decide (i ∈ used_indices st)))
           touched in
       ((exists i, i ∈ touched /\ i ∉ used_indices st) ->
        unused <> []
        /\ exists st', process_error matching_rows st error
                       = Ok (st', DirectMatch unused))
       /\ ((forall i, i ∈ touched -> i ∈ used_indices st) ->
           process_error matching_rows st error
           = partial_matching matching_rows st error)
       /\ (matching_rows <> [] -> touched <> []).
Proof.
  intros Hne Hocc. destruct (find_complete _ _ _ _ Hocc) as [m Hfind].
  exists m. split; [exact Hfind|]. cbv zeta.
  pose proof (direct_match_scan_used (used_indices st) m (length error)
                (map Content matching_rows)) as Hscan.
  set (touched := direct_match_scan ∅ m (length error)
                    (map Content matching_rows) 0 0) in *.
  split; [|split].
  - intros (i & Hi & Hu).
    assert (Hin : In i (List.filter
                          (fun i => negb (bool_decide (i ∈ used_indices st)))
                          touched)).
    { apply filter_In. split; [apply list_elem_of_In, Hi|].
      rewrite bool_decide_eq_false_2 by assumption. reflexivity. }
    split; [intros Hnil; rewrite Hnil in Hin; destruct Hin|].
    unfold process_error. destruct error as [|c error]; [congruence|].
    rewrite Hfind, Hscan.
    destruct (List.filter _ touched) as [|x xs] eqn:Hf; [destruct Hin|].
    destruct (highlight_Ok matching_rows (x :: xs) (c :: error) st)
      as (rects & _ & ->).
    { discriminate. }
    { apply Forall_forall. intros y Hy. rewrite <- Hscan in Hy.
      apply direct_match_scan_elem in Hy as [Hy _].
      rewrite length_map in Hy. exact Hy. }
    run. eauto.
  - intros Hall. unfold process_error. destruct error as [|c error]; [congruence|].
    rewrite Hfind, Hscan.
    destruct (List.filter _ touched) as [|x xs] eqn:Hf; [reflexivity|].
    assert (Hin : In x (List.filter
                          (fun i => negb (bool_decide (i ∈ used_indices st)))
                          touched)) by (rewrite Hf; left; reflexivity).
    apply filter_In in Hin as [Hx Hu].
    apply list_elem_of_In, Hall in Hx.
    rewrite bool_decide_eq_true_2 in Hu by assumption. discriminate.
  - intros Hrows. apply direct_match_scan_touches; try assumption.
    destruct matching_rows; [congruence | discriminate].
Qed.

Lemma exact_match_precedes_partial_witness :
  exists match_start,
    find (all_words_string sample_rows) (py "quick brown") = Some match_start
    /\ let touched :=
         direct_match_scan ∅ match_start (length (py "quick brown"))
           (map Content sample_rows) 0 0 in
       let unused :=
         List.filter
           (fun i => negb (bool_decide (i ∈ used_indices (State {[2]} []))))
           touched in
       ((exists i, i ∈ touched /\ i ∉ used_indices (State {[2]} [])) ->
        unused <> []
        /\ exists st', process_error sample_rows (State {[2]} [])
                         (py "quick brown")
                       = Ok (st', DirectMatch unused))
       /\ ((forall i, i ∈ touched -> i ∈ used_indices (State {[2]} [])) ->
           process_error sample_rows (State {[2]} []) (py "quick brown")
           = partial_matching sample_rows (State {[2]} []) (py "quick brown"))
       /\ (sample_rows <> [] -> touched <> []).
Proof.
  apply (exact_match_precedes_partial sample_rows (State {[2]} [])
           (py "quick brown") (py "The ") (py " fox"));
    [discriminate | reflexivity].
Defined.

(** C2 as stated fails: the second phrase "a" occurs in the window string
    "a a", but the only word its leftmost occurrence touches was used by the
    first phrase, so it is settled by the partial matching, on word 1. *)
Lemma exact_match_precedence_counterexample :
  contains (all_words_string twin_rows) (py "a") = true
  /\ exists st m,
       process_paragraph_words twin_rows [] [py "a"; py "a"]
       = Ok (st, [DirectMatch [0]; PartialAccepted m])
       /\ sequence m = [1].
Proof.
  split; [reflexivity|].
  eexists _, _. split; [vm_compute; reflexivity | reflexivity].
Qed.

End Precedence.

(** ** C9: a winner that overlaps the used set is dropped *)

Section Rejection.

Import Annotation.

(** C9: when the partial matching of a phrase picks a winner that shares a
    word index with the used set, the iteration ends with the state it
    started with (same used set, no annotation added) and reports the winner
    as rejected: no other candidate is tried. This is what the whole
    iteration returns whenever the direct match did not settle the phrase. *)
Theorem overlapping_winner_is_dropped
    (matching_rows : list word_row) (st : state) (error : str)
    (m : candidate) :
  select_match (partial_matches matching_rows (used_indices st) error)
  = Some m ->
  (exists idx, idx ∈ sequence m /\ idx ∈ used_indices st) ->
  partial_matching matching_rows st error = Ok (st, PartialRejected m)
  /\ accepted (PartialRejected m) = []
  /\ forall st' o,
       process_error matching_rows st error = Ok (st', o) ->
       (exists idxs, o = DirectMatch idxs /\ idxs <> [])
       \/ (st' = st /\ o = PartialRejected m).
Proof.
  intros Hsel Hshared.
  assert (Hpartial :
    partial_matching matching_rows st error = Ok (st, PartialRejected m)).
  { unfold partial_matching. rewrite Hsel.
    apply any_used_true in Hshared. rewrite Hshared. reflexivity. }
  split; [exact Hpartial|]. split; [reflexivity|].
  intros st' o. unfold process_error.
  destruct error as [|c error].
  - unfold partial_matches in Hsel. discriminate.
  - destruct (find _ _) as [match_start|];
      [|rewrite Hpartial; intros [= <- <-]; right; split; reflexivity].
    destruct (direct_match_scan _ _ _ _ _ _) as [|x xs];
      [rewrite Hpartial; intros [= <- <-]; right; split; reflexivity|].
    destruct (highlight _ _ _ _) as [st1|]; [|discriminate].
    run. intros [= <- <-]. left. eexists. split; [reflexivity | discriminate].
Qed.

Lemma overlapping_winner_is_dropped_witness :
  let st := State {[1]} [] in
  let m := Candidate [0; 1] (py "ab") true 2 (py "ab") (py "ab") in
  partial_matching ab_rows st (py "ab") = Ok (st, PartialRejected m)
  /\ accepted (PartialRejected m) = []
  /\ forall st' o,
       process_error ab_rows st (py "ab") = Ok (st', o) ->
       (exists idxs, o = DirectMatch idxs /\ idxs <> [])
       \/ (st' = st /\ o = PartialRejected m).
Proof.
  apply (overlapping_winner_is_dropped ab_rows (State {[1]} []) (py "ab")).
  - vm_compute. reflexivity.
  - exists 1. split; [right; left | set_solver].
Defined.

(** The same on a whole paragraph: "b" takes word 1, then "ab" finds the run
    of words 0 and 1 and is dropped; one annotation, used set {1}. *)
Example overlapping_winner_paragraph :
  exists st m,
    process_paragraph_words ab_rows [] [py "b"; py "ab"]
    = Ok (st, [DirectMatch [1]; PartialRejected m])
    /\ sequence m = [0; 1]
    /\ elements (used_indices st) = [1]
    /\ length (annots st) = 1.
Proof.
  eexists _, _. split; [vm_compute; reflexivity|].
  repeat split; vm_compute; reflexivity.
Qed.

End Rejection.

(** ** C1, the class: no used set *)

Section AnnotatorReuse.

Import PdfErrorAnnotator.

(** C1 as stated fails for [process_word_matches]: the phrases "quick" and
    "quick brown" are both matched, on the index lists [1] and [1; 2], and
    both are highlighted although they share word 1. *)
Lemma no_double_use_counterexample :
  match_word_indices sample_rows (py "quick") = Some [1]
  /\ match_word_indices sample_rows (py "quick brown") = Some [1; 2]
  /\ exists st,
       process_word_matches (Annotator 5 2 []) (PState [] []) sample_rows
         (PyList [PyStr (py "quick"); PyStr (py "quick brown")])
         (Box 0 0 100 100)
       = Ok st
       /\ annotation_bboxes st = [Box 4 10 9 15; Box 4 10 15 15].
Proof.
  split; [reflexivity|]. split; [reflexivity|].
  eexists. split; [vm_compute; reflexivity | reflexivity].
Qed.

End AnnotatorReuse.

(** ** C8: the containment test *)

Section Containment.

Lemma within_spec (b c : bbox) :
  PdfErrorAnnotator.within b c = true
  <-> (bx0 c <= bx0 b /\ bx1 b <= bx1 c /\ by0 c <= by0 b /\ by1 b <= by1 c)%Q.
Proof.
  unfold PdfErrorAnnotator.within.
  rewrite !andb_true_iff, !Qle_bool_iff. tauto.
Qed.

(** C8 (as amended): [is_within] of the class returns without raising on
    every pair of boxes, answers true exactly when the four inequalities
    hold, and answers false as soon as one of the boxes is absent; the
    script-local test of [Simple.py] agrees with it on two boxes that are
    present, and raises when one of them is absent. *)
Theorem is_within_iff_four_inequalities (b c : bbox) :
  (exists r, PdfErrorAnnotator.is_within (Some b) (Some c) = Ok r)
  /\ (PdfErrorAnnotator.is_within (Some b) (Some c) = Ok true
      <-> (bx0 c <= bx0 b /\ bx1 b <= bx1 c
           /\ by0 c <= by0 b /\ by1 b <= by1 c)%Q)
  /\ (forall o, PdfErrorAnnotator.is_within None o = Ok false
                /\ PdfErrorAnnotator.is_within o None = Ok false)
  /\ Simple.is_within (Some b) (Some c)
     = PdfErrorAnnotator.is_within (Some b) (Some c)
  /\ (forall o, Simple.is_within None o = Raise TypeError
                /\ Simple.is_within o None = Raise TypeError).
Proof.
  split; [eexists; reflexivity|]. split; [|split; [|split]].
  - simpl. rewrite <- within_spec.
    split; [intros [= ->]; reflexivity | intros ->; reflexivity].
  - intros [o|]; split; reflexivity.
  - reflexivity.
  - intros [o|]; split; reflexivity.
Qed.

(** C8 as stated fails for the script-local test of [Simple.py]: it has no
    guard, and an absent box makes it raise instead of answering false. *)
Lemma is_within_absent_counterexample :
  Simple.is_within None (Some (Box 0 0 10 10)) = Raise TypeError
  /\ Simple.is_within (Some (Box 1 1 2 2)) None = Raise TypeError
  /\ Simple.is_within None (Some (Box 0 0 10 10)) <> Ok false.
Proof. repeat split; discriminate. Qed.

End Containment.

(** ** C7: the phrase parser *)

Section PhraseParser.

Import PdfErrorAnnotator.

(** C7 (as amended): the parser returns a list unchanged; for a string it
    returns the evaluated literal when there is one, and otherwise the
    one-element list holding the string itself, so that the empty string
    yields the list holding the empty string; every other input yields the
    empty list. It filters nothing: a non-empty string that is no literal
    and a list of non-empty strings come out as sequences of non-empty
    phrase strings. *)
Theorem parse_error_phrases_cases (parse_literal : str -> option pyval) :
  (forall l, parse_error_phrases parse_literal (PyList l) = PyList l)
  /\ (forall s r,
        literal_eval parse_literal s = Some r ->
        parse_error_phrases parse_literal (PyStr s) = r)
  /\ (forall s,
        literal_eval parse_literal s = None ->
        parse_error_phrases parse_literal (PyStr s) = PyList [PyStr s])
  /\ parse_error_phrases parse_literal (PyStr []) = PyList [PyStr []]
  /\ parse_error_phrases parse_literal PyNone = PyList []
  /\ parse_error_phrases parse_literal PyNaN = PyList []
  /\ (forall q, parse_error_phrases parse_literal (PyNum q) = PyList [])
  /\ (forall c s,
        literal_eval parse_literal (c :: s) = None ->
        nonempty_phrases (parse_error_phrases parse_literal (PyStr (c :: s))))
  /\ (forall l,
        nonempty_phrases (PyList l) ->
        nonempty_phrases (parse_error_phrases parse_literal (PyList l))).
Proof.
  repeat match goal with |- _ /\ _ => split end; try reflexivity.
  - intros s r H. unfold parse_error_phrases. rewrite H. reflexivity.
  - intros s H. unfold parse_error_phrases. rewrite H. reflexivity.
  - intros c s H. unfold parse_error_phrases. rewrite H.
    eexists. split; [reflexivity|]. constructor; [eauto | constructor].
  - intros l H. exact H.
Qed.

(** C7 as stated fails: whatever the literal parser, the empty string yields
    the one-element list holding the empty string, which is neither the
    empty sequence nor a sequence of non-empty phrases; and a list holding a
    number comes back with the number in it. *)
Lemma parse_error_phrases_counterexample :
  (forall parse_literal,
     parse_error_phrases parse_literal (PyStr []) = PyList [PyStr []])
  /\ ~ (forall parse_literal v,
          nonempty_phrases (parse_error_phrases parse_literal v))
  /\ ~ (forall parse_literal,
          parse_error_phrases parse_literal (PyStr []) = PyList [])
  /\ (forall parse_literal,
        parse_error_phrases parse_literal (PyList [PyNum 1])
        = PyList [PyNum 1]).
Proof.
  split; [reflexivity|]. split; [|split; [|reflexivity]].
  - intros H. destruct (H (fun _ => None) (PyStr [])) as (l & Hl & Hall).
    cbn in Hl. injection Hl as <-.
    apply Forall_cons in Hall as [(c & s & Hcs) _]. discriminate.
  - intros H. specialize (H (fun _ => None)). discriminate.
Qed.

End PhraseParser.

(** ** C10: the highlighting routine and its caller *)

Section Highlighting.

Import PdfErrorAnnotator.

Lemma overlap_scan_elem match_start match_end contents x :
  x ∈ overlap_scan match_start match_end contents 0 0 -> x < length contents.
Proof.
  pose proof (overlap_scan_filter match_start match_end contents contents []
                eq_refl) as H.
  simpl length in H. rewrite word_offset_0 in H. rewrite H.
  intros Hx. apply list_elem_of_In, filter_In in Hx as [Hin _].
  apply in_seq in Hin. lia.
Qed.

(** The indices selected for a phrase are positions of the window, and
    there is at least one. *)
Lemma match_word_indices_spec matching_rows error idxs :
  error <> [] ->
  match_word_indices matching_rows error = Some idxs ->
  idxs <> [] /\ Forall (fun i => i < length matching_rows) idxs.
Proof.
  intros Hne. unfold match_word_indices, all_words_string.
  destruct (find _ _) as [m|] eqn:Hfind; [|discriminate]. intros [= <-].
  assert (Hrows : map Content matching_rows <> []).
  { intros Hnil. rewrite Hnil in Hfind. simpl in Hfind.
    pose proof (find_bound _ _ _ Hfind) as Hb. simpl in Hb.
    destruct error; [congruence | simpl in Hb; lia]. }
  split.
  - destruct (occurrence_touches_word _ _ _ Hrows Hne Hfind) as (i & Hi & _ & Ht).
    pose proof (overlap_scan_filter m (m + length error)
                  (map Content matching_rows) (map Content matching_rows) []
                  eq_refl) as H.
    simpl length in H. rewrite word_offset_0 in H. rewrite H.
    match goal with |- ?l <> [] => assert (Hin : In i l) end.
    { apply filter_In. split; [apply in_seq; lia | exact Ht]. }
    intros Hnil. rewrite Hnil in Hin. destruct Hin.
  - apply Forall_forall. intros x Hx. apply overlap_scan_elem in Hx.
    rewrite length_map in Hx. exact Hx.
Qed.

Lemma highlight_matched_words_Ok self st matching_rows idxs error :
  idxs <> [] ->
  Forall (fun i => i < length matching_rows) idxs ->
  exists rects,
    rects <> []
    /\ highlight_matched_words self st matching_rows idxs error
       = Ok (PState (annotation_bboxes st ++ rects)
               (annots st
                ++ map (fun r => Annot r (Some EXACT_MATCH_COLOR)
                                   (py "Error Phrase: " ++ error)) rects)).
Proof.
  intros Hne Hall. unfold highlight_matched_words.
  destruct (loc_Ok (map Clipbounds matching_rows) idxs) as (boxes & -> & Hlen).
  { rewrite length_map. exact Hall. }
  run. destruct (grouped_rects_Ok (LINE_TOLERANCE self) boxes) as (rects & -> & Hrects).
  { destruct boxes; [destruct idxs; [congruence | discriminate] | discriminate]. }
  run. eauto.
Qed.

Lemma phrase_of_nonempty e p : phrase_of e = Some p -> p <> [].
Proof.
  destruct e as [| |q|[|c s]|l]; try discriminate. intros [= <-]. discriminate.
Qed.

(** The phrase loop returns for every list of phrases; when no phrase is
    found in the window it leaves the flag and the state as they were, and
    when it leaves the flag unset it drew nothing. *)
Lemma match_loop_Ok self matching_rows errors :
  forall matches_found st,
  exists found' st',
    match_loop self matching_rows errors matches_found st = Ok (found', st')
    /\ ((forall e p, e ∈ errors -> phrase_of e = Some p ->
           match_word_indices matching_rows p = None) ->
        found' = matches_found /\ st' = st)
    /\ (matches_found = true -> found' = true)
    /\ (found' = false -> st' = st).
Proof.
  induction errors as [|e errors IH]; intros found st.
  - exists found, st. repeat split; auto.
  - cbn [match_loop]. destruct (phrase_of e) as [p|] eqn:Hp.
    + destruct (match_word_indices matching_rows p) as [idxs|] eqn:Hidx.
      * destruct (match_word_indices_spec _ _ _ (phrase_of_nonempty _ _ Hp) Hidx)
          as [Hne Hall].
        destruct idxs as [|i idxs]; [congruence|].
        destruct (highlight_matched_words_Ok self st matching_rows (i :: idxs) p
                    Hne Hall) as (rects & _ & ->).
        run. destruct (IH true (PState (annotation_bboxes st ++ rects)
                                  (annots st
                                   ++ map (fun r => Annot r (Some EXACT_MATCH_COLOR)
                                                      (py "Error Phrase: " ++ p))
                                        rects)))
          as (found' & st' & -> & _ & Htrue & _).
        exists found', st'. split; [reflexivity|]. split; [|split].
        -- intros Hnone. rewrite (Hnone e p) in Hidx; [discriminate | left | exact Hp].
        -- intros _. apply Htrue. reflexivity.
        -- intros Hf. rewrite Htrue in Hf; [discriminate | reflexivity].
      * destruct (IH found st) as (found' & st' & -> & Hnone & Htrue & Hkeep).
        exists found', st'. split; [reflexivity|]. split; [|split; assumption].
        intros H. apply Hnone. intros e' p' He'. apply H. right. exact He'.
    + destruct (IH found st) as (found' & st' & -> & Hnone & Htrue & Hkeep).
      exists found', st'. split; [reflexivity|]. split; [|split; assumption].
      intros H. apply Hnone. intros e' p' He'. apply H. right. exact He'.
Qed.

End Highlighting.

Section HighlightingSafety.

Import PdfErrorAnnotator.

(** C10: the highlighting routine succeeds on every non-empty list of window
    positions, so none of its subscripts is out of range; the list its
    caller selects for a phrase is non-empty and holds window positions
    only; the caller's loop therefore never raises, and the only exception
    [process_word_matches] can end with is the type error of a phrase list
    that is no sequence of strings. On an empty list the routine would
    raise at its first subscript. *)
Theorem highlight_matched_words_in_range
    (self : annotator) (st : pstate) (matching_rows : list word_row) :
  (forall idxs error,
     idxs <> [] -> Forall (fun i => i < length matching_rows) idxs ->
     exists st', highlight_matched_words self st matching_rows idxs error
                 = Ok st')
  /\ (forall error idxs,
        error <> [] ->
        match_word_indices matching_rows error = Some idxs ->
        idxs <> [] /\ Forall (fun i => i < length matching_rows) idxs)
  /\ (forall errors matches_found,
        exists r, match_loop self matching_rows errors matches_found st = Ok r)
  /\ (forall error_list para_bbox e,
        process_word_matches self st matching_rows error_list para_bbox
        = Raise e ->
        e = TypeError)
  /\ (forall error,
        highlight_matched_words self st matching_rows [] error
        = Raise IndexError).
Proof.
  split; [|split; [|split; [|split]]].
  - intros idxs error Hne Hall.
    destruct (highlight_matched_words_Ok self st matching_rows idxs error Hne Hall)
      as (rects & _ & ->). eauto.
  - intros error idxs. apply match_word_indices_spec.
  - intros errors found.
    destruct (match_loop_Ok self matching_rows errors found st)
      as (found' & st' & -> & _). eauto.
  - intros error_list para_bbox e. unfold process_word_matches.
    destruct (iterate error_list) as [errors|e'] eqn:Hit.
    + run. destruct (match_loop_Ok self matching_rows errors false st)
        as (found' & st' & -> & _).
      run. destruct found'; [discriminate|]. cbn [negb].
      unfold highlight_paragraph, join_comma. rewrite Hit. run.
      destruct (join_comma_strs errors) as [joined|e''] eqn:Hj; [discriminate|].
      run. intros [= <-]. clear -Hj. revert e'' Hj.
      induction errors as [|x errors IH]; intros e'' Hj; [discriminate|].
      cbn [join_comma_strs] in Hj. destruct x; try (injection Hj as <-; reflexivity).
      destruct errors as [|y errors]; [discriminate|].
      destruct (join_comma_strs (y :: errors)) as [r|e3] eqn:Hr; [discriminate|].
      run. injection Hj as <-. eapply IH. reflexivity.
    + run. intros [= <-].
      destruct error_list; try discriminate; injection Hit as <-; reflexivity.
  - intros error. reflexivity.
Qed.

End HighlightingSafety.

(** ** C4: the whole-paragraph fallback *)

Section Fallback.

Import PdfErrorAnnotator.

Lemma select_rows_Ok df filename page_number para_bbox :
  exists rows, select_rows df filename page_number para_bbox = Ok rows.
Proof.
  induction df as [|w df [rows IH]]; [exists []; reflexivity|].
  cbn [select_rows]. rewrite IH.
  destruct (_ && _); run; [|eauto].
  destruct (word_Clipbounds w) as [b|]; cbn [is_within]; run; [|eauto].
  destruct (within b para_bbox); eauto.
Qed.

Lemma join_comma_strs_Ok errs :
  Forall (fun e => is_str e = true) errs ->
  exists joined, join_comma_strs errs = Ok joined.
Proof.
  induction 1 as [|e errs He _ [joined IH]]; [exists []; reflexivity|].
  destruct e; try discriminate. cbn [join_comma_strs].
  destruct errs; [eauto|]. rewrite IH. run. eauto.
Qed.

(** C4: the sample paragraph with the phrase cell ['quikc', 5]. The cell
    parses to a list that carries the phrase "quikc" and the number 5; the
    window holds the four sample words and the phrase is not found in it,
    so no phrase has a match and the fallback is due. The phrase loop skips
    the number, but the label of the fallback annotation joins the whole
    list, and [process_paragraph] ends in a type error instead of storing
    the buffered box; so it does on a table without words, where the window
    is empty. *)
Theorem fallback_fails_on_a_non_string_phrase :
  let parse_literal := fun s : str =>
    if bool_decide (s = py "['quikc', 5]")
    then Some (PyList [PyStr (py "quikc"); PyNum 5])
    else None in
  let row :=
    ParaRow 1 (Some (Box 0 95 30 80)) (CellStr (py "['quikc', 5]")) in
  parse_error_phrases parse_literal (cell_value (error_phrase row))
  = PyList [PyStr (py "quikc"); PyNum 5]
  /\ select_rows sample_words (py "doc.pdf") 1
       (convert_and_buffer sample_annotator 100 (Box 0 95 30 80))
     = Ok sample_rows
  /\ match_word_indices sample_rows (py "quikc") = None
  /\ process_paragraph parse_literal sample_annotator sample_document row
       (py "doc.pdf")
     = Raise TypeError
  /\ process_paragraph parse_literal (Annotator 5 2 []) sample_document row
       (py "doc.pdf")
     = Raise TypeError.
Proof. cbv zeta. repeat split; vm_compute; reflexivity. Qed.

(** The sample paragraph evaluated: the window holds the four words, the
    phrase "quikc" is not found, and the buffered box is the one result. *)
Example fallback_on_sample :
  select_rows sample_words (py "doc.pdf") 1
    (convert_and_buffer sample_annotator 100 (Box 0 95 30 80))
  = Ok sample_rows
  /\ exists a,
       process_paragraph (fun _ => None) sample_annotator sample_document
         sample_para (py "doc.pdf")
       = Ok (Some ([convert_and_buffer sample_annotator 100 (Box 0 95 30 80)],
                   Page 100 [a])).
Proof. split; [vm_compute; reflexivity | eexists; vm_compute; reflexivity]. Qed.

End Fallback.

(** ** Scenarios *)

Section Scenarios.

Import Annotation.

Example find_quick_brown :
  find (all_words_string sample_rows) (py "quick brown") = Some 4.
Proof. reflexivity. Qed.

Example split_drops_blanks :
  split (py "  quikc   brown ") = [py "quikc"; py "brown"].
Proof. reflexivity. Qed.

(** Three boxes, two of them on one line: two rectangles. *)
Example grouping_two_lines :
  group_lines 2 (sort_by_y [Box 0 40 5 45; Box 0 10 5 15; Box 6 10 11 15])
    [1; 2] [[Box 0 10 5 15]]
  = Ok [[Box 0 10 5 15; Box 6 10 11 15]; [Box 0 40 5 45]]
  /\ grouped_rects 2 [Box 0 40 5 45; Box 0 10 5 15; Box 6 10 11 15]
     = Ok [Box 0 10 11 15; Box 0 40 5 45].
Proof. split; reflexivity. Qed.

(** "quick brown" is in the window string: the direct match takes words 1
    and 2, in both scripts. *)
Example exact_phrase_scenario :
  (exists st, process_paragraph_words sample_rows [] [py "quick brown"]
              = Ok (st, [DirectMatch [1; 2]]))
  /\ PdfErrorAnnotator.match_word_indices sample_rows (py "quick brown")
     = Some [1; 2].
Proof. split; [eexists; vm_compute; reflexivity | reflexivity]. Qed.

(** "quikc brown" is not in the window string; the partial matching finds
    nothing for the whole phrase, and for the suffix "brown" the full match
    on word 2, which is accepted. *)
Example typo_phrase_scenario :
  find (all_words_string sample_rows) (py "quikc brown") = None
  /\ map sequence (partial_matches sample_rows ∅ (py "quikc brown")) = [[2]]
  /\ exists st m,
       process_paragraph_words sample_rows [] [py "quikc brown"]
       = Ok (st, [PartialAccepted m])
       /\ sequence m = [2] /\ is_full_match m = true
       /\ sub_error m = py "brown".
Proof.
  split; [reflexivity|]. split; [vm_compute; reflexivity|].
  eexists _, _. split; [vm_compute; reflexivity|]. repeat split.
Qed.

(** Two phrases that both cover word 2: the first takes it, the second is
    left with word 3 only. *)
Example shared_word_scenario :
  exists st,
    process_paragraph_words sample_rows [] [py "brown"; py "brown fox"]
    = Ok (st, [DirectMatch [2]; DirectMatch [3]]).
Proof. eexists. vm_compute. reflexivity. Qed.

(** For "quick brownie" the run started at "quick" takes "brown" when the
    spans are contiguous and stops at "quick" when they are not; the suffix
    "brownie" adds the run of "brown" alone. *)
Example adjacency_scenario :
  map sequence (partial_matches sample_rows ∅ (py "quick brownie"))
  = [[1; 2]; [2]]
  /\ map sequence (partial_matches broken_rows ∅ (py "quick brownie"))
     = [[1]; [2]].
Proof. split; vm_compute; reflexivity. Qed.

End Scenarios.

(** * Further properties of the scripts *)

(** ** Line grouping: nothing is lost and every box is covered *)

Section GroupingCoverage.

Lemma insert_by_y_elem b c l : c ∈ insert_by_y b l <-> c = b \/ c ∈ l.
Proof.
  induction l as [|d l IH]; simpl.
  - rewrite list_elem_of_singleton. set_solver.
  - destruct (Qle_bool (by0 b) (by0 d)).
    + rewrite !elem_of_cons. tauto.
    + rewrite !elem_of_cons, IH. tauto.
Qed.

Lemma sort_by_y_elem c l : c ∈ sort_by_y l <-> c ∈ l.
Proof.
  induction l as [|b l IH]; simpl; [tauto|].
  rewrite insert_by_y_elem, IH, elem_of_cons. tauto.
Qed.

Lemma append_to_last_concat line_groups b :
  groups_ok line_groups ->
  exists lg,
    append_to_last line_groups b = Ok lg /\ groups_ok lg
    /\ concat lg = concat line_groups ++ [b]
    /\ length lg = length line_groups.
Proof.
  intros [Hne Hall].
  destruct line_groups as [|g0 gs0] using rev_ind; [congruence|].
  clear IHgs0. unfold append_to_last. rewrite reverse_snoc.
  rewrite reverse_involutive. eexists. split; [reflexivity|].
  apply Forall_app in Hall as [Hgs _]. split; [|split].
  - split; [destruct gs0; discriminate|].
    apply Forall_app. split; [exact Hgs|].
    constructor; [destruct g0; discriminate | constructor].
  - rewrite !concat_app. simpl. rewrite !app_nil_r, app_assoc. reflexivity.
  - rewrite !length_app. reflexivity.
Qed.

(** The grouping loop over the positions [k .. k + n - 1]: the groups keep
    spelling out the sorted boxes visited so far, in order. *)
Lemma group_lines_concat tol phrase_bboxes n :
  forall k line_groups,
    1 <= k -> k + n <= length phrase_bboxes ->
    groups_ok line_groups ->
    concat line_groups = take k phrase_bboxes ->
    exists lg,
      group_lines tol phrase_bboxes (seq k n) line_groups = Ok lg
      /\ groups_ok lg
      /\ concat lg = take (k + n) phrase_bboxes.
Proof.
  induction n as [|n IH]; intros k line_groups Hk Hlen Hok Hcat.
  - exists line_groups. rewrite Nat.add_0_r. auto.
  - cbn [seq group_lines].
    destruct (lookup_lt_is_Some_2 phrase_bboxes k ltac:(lia)) as [bk Hbk].
    destruct (lookup_lt_is_Some_2 phrase_bboxes (k - 1) ltac:(lia)) as [bp Hbp].
    unfold index. rewrite Hbk, Hbp. run.
    assert (Htake : take (S k) phrase_bboxes = take k phrase_bboxes ++ [bk])
      by (apply take_S_r; exact Hbk).
    replace (k + S n) with (S k + n) by lia.
    destruct (Qle_bool (Qabs (by0 bk - by0 bp)) tol).
    + destruct (append_to_last_concat line_groups bk Hok)
        as (lg & -> & Hlg & Hcat' & _).
      run. apply IH; [lia | lia | exact Hlg|].
      rewrite Hcat', Hcat, Htake. reflexivity.
    + apply IH; [lia | lia | |].
      * destruct Hok as [Hne Hall]. split; [destruct line_groups; discriminate|].
        apply Forall_app. split; [exact Hall|].
        constructor; [discriminate | constructor].
      * rewrite concat_app, Hcat, Htake. simpl. reflexivity.
Qed.

Lemma foldl_Qmin_le (l : list Q) :
  forall x, (foldl Qmin x l <= x)%Q
            /\ forall y, y ∈ l -> (foldl Qmin x l <= y)%Q.
Proof.
  induction l as [|z l IH]; intros x; simpl.
  - split; [lra | intros y Hy; inversion Hy].
  - destruct (IH (Qmin x z)) as [H1 H2].
    pose proof (Q.le_min_l x z). pose proof (Q.le_min_r x z).
    split; [lra|]. intros y Hy. apply elem_of_cons in Hy as [->|Hy]; [lra|auto].
Qed.

Lemma foldl_Qmax_ge (l : list Q) :
  forall x, (x <= foldl Qmax x l)%Q
            /\ forall y, y ∈ l -> (y <= foldl Qmax x l)%Q.
Proof.
  induction l as [|z l IH]; intros x; simpl.
  - split; [lra | intros y Hy; inversion Hy].
  - destruct (IH (Qmax x z)) as [H1 H2].
    pose proof (Q.le_max_l x z). pose proof (Q.le_max_r x z).
    split; [lra|]. intros y Hy. apply elem_of_cons in Hy as [->|Hy]; [lra|auto].
Qed.

Lemma min_of_le l m y : min_of l = Ok m -> y ∈ l -> (m <= y)%Q.
Proof.
  destruct l as [|x l]; [discriminate|]. intros [= <-] Hy.
  destruct (foldl_Qmin_le l x) as [H1 H2].
  apply elem_of_cons in Hy as [->|Hy]; auto.
Qed.

Lemma max_of_ge l m y : max_of l = Ok m -> y ∈ l -> (y <= m)%Q.
Proof.
  destruct l as [|x l]; [discriminate|]. intros [= <-] Hy.
  destruct (foldl_Qmax_ge l x) as [H1 H2].
  apply elem_of_cons in Hy as [->|Hy]; auto.
Qed.

Lemma line_rect_covers line r b :
  line_rect line = Ok r -> b ∈ line -> PdfErrorAnnotator.within b r = true.
Proof.
  unfold line_rect. intros H Hb.
  destruct (min_of (map bx0 line)) as [x0|] eqn:Hx0; [|discriminate].
  destruct (min_of (map by0 line)) as [y0|] eqn:Hy0; [|discriminate].
  destruct (max_of (map bx1 line)) as [x1|] eqn:Hx1; [|discriminate].
  destruct (max_of (map by1 line)) as [y1|] eqn:Hy1; [|discriminate].
  cbn in H. injection H as <-.
  apply within_spec. cbn.
  repeat split;
    first [ eapply min_of_le; [eassumption|]
          | eapply max_of_ge; [eassumption|] ];
    apply list_elem_of_In, in_map, list_elem_of_In; exact Hb.
Qed.

Lemma line_rects_covers line_groups rs :
  line_rects line_groups = Ok rs ->
  length rs = length line_groups
  /\ forall b, b ∈ concat line_groups ->
       exists r, r ∈ rs /\ PdfErrorAnnotator.within b r = true.
Proof.
  revert rs. induction line_groups as [|g gs IH]; intros rs H.
  - injection H as <-. split; [reflexivity | intros b Hb; inversion Hb].
  - cbn [line_rects] in H.
    destruct (line_rect g) as [r|] eqn:Hr; [|discriminate]. run.
    destruct (line_rects gs) as [rs'|] eqn:Hrs; [|discriminate].
    cbn in H. injection H as <-. destruct (IH rs' eq_refl) as [Hlen Hcov].
    split; [simpl; lia|]. intros b Hb. simpl in Hb.
    apply elem_of_app in Hb as [Hb|Hb].
    + exists r. split; [left | eapply line_rect_covers; eassumption].
    + destruct (Hcov b Hb) as (r' & Hr' & Hw). exists r'. split; [right|]; auto.
Qed.

Lemma length_concat_groups (lg : list (list bbox)) :
  Forall (fun g => g <> []) lg -> length lg <= length (concat lg).
Proof.
  induction 1 as [|g gs Hg _ IH]; [reflexivity|].
  simpl. rewrite length_app. destruct g; [congruence | simpl; lia].
Qed.

(** X1: for a non-empty list of word boxes the grouping block succeeds; it
    draws at least one rectangle and at most one per box, and every box of
    the selection lies within one of the rectangles drawn. *)
Theorem grouped_rects_cover_every_box (tol : Q) (boxes : list bbox) :
  boxes <> [] ->
  exists rects,
    grouped_rects tol boxes = Ok rects
    /\ 1 <= length rects <= length boxes
    /\ forall b, b ∈ boxes ->
         exists r, r ∈ rects /\ PdfErrorAnnotator.within b r = true.
Proof.
  intros Hne. unfold grouped_rects.
  set (pb := sort_by_y boxes).
  assert (Hlen : length pb = length boxes) by apply length_sort_by_y.
  assert (Hpos : 0 < length boxes) by (destruct boxes; [congruence|simpl; lia]).
  destruct (lookup_lt_is_Some_2 pb 0 ltac:(lia)) as [first Hfirst].
  unfold index. rewrite Hfirst. run.
  destruct (group_lines_concat tol pb (length pb - 1) 1 [[first]])
    as (lg & -> & [Hlg1 Hlg2] & Hcat).
  - lia.
  - lia.
  - split; [discriminate | constructor; [discriminate | constructor]].
  - destruct pb as [|b0 pb']; [discriminate|].
    injection Hfirst as ->. reflexivity.
  - run. replace (1 + (length pb - 1)) with (length pb) in Hcat by lia.
    rewrite take_ge in Hcat by lia.
    destruct (line_rects_Ok lg Hlg2) as (rects & Hrects & Hl).
    rewrite Hrects. exists rects. split; [reflexivity|].
    destruct (line_rects_covers lg rects Hrects) as [_ Hcov].
    pose proof (length_concat_groups lg Hlg2) as Hle.
    rewrite Hcat, Hlen in Hle. split.
    + split; [|lia]. destruct lg; [congruence | simpl in Hl; lia].
    + intros b Hb. apply Hcov. rewrite Hcat. apply sort_by_y_elem. exact Hb.
Qed.

Lemma grouped_rects_cover_every_box_witness :
  exists rects,
    grouped_rects 2 [Box 0 40 5 45; Box 0 10 5 15; Box 6 10 11 15] = Ok rects
    /\ 1 <= length rects
       <= length [Box 0 40 5 45; Box 0 10 5 15; Box 6 10 11 15]
    /\ forall b, b ∈ [Box 0 40 5 45; Box 0 10 5 15; Box 6 10 11 15] ->
         exists r, r ∈ rects /\ PdfErrorAnnotator.within b r = true.
Proof.
  apply (grouped_rects_cover_every_box 2
           [Box 0 40 5 45; Box 0 10 5 15; Box 6 10 11 15]).
  discriminate.
Defined.

End GroupingCoverage.

(** ** More on the partial matching of [Annotation.py] *)

Section PartialMatchingFacts.

Import Annotation.

Lemma scan_iteration_advances matching_rows used error sub_error clean_error
    i i' c :
  scan_iteration matching_rows used error sub_error clean_error i
  = Some (i', c) ->
  i < i' <= length matching_rows.
Proof.
  unfold scan_iteration.
  destruct (drop i matching_rows) as [|row_i rest] eqn:Hd; [discriminate|].
  assert (Hlen : i + S (length rest) = length matching_rows).
  { destruct (decide (i < length matching_rows)).
    - apply (f_equal length) in Hd. rewrite length_drop in Hd.
      simpl in Hd. lia.
    - rewrite drop_ge in Hd by lia. discriminate. }
  destruct (bool_decide (i ∈ used)); [intros [= <- <-]; lia|].
  destruct (extend_run _ _ _ _ _ _) as [temp j] eqn:Hrun.
  apply extend_run_spec in Hrun as (n & -> & Hn & _ & _).
  destruct (_ && _); intros [= <- <-]; lia.
Qed.

Lemma scan_iteration_None matching_rows used error sub_error clean_error i :
  scan_iteration matching_rows used error sub_error clean_error i = None
  <-> length matching_rows <= i.
Proof.
  unfold scan_iteration. split.
  - destruct (drop i matching_rows) as [|row_i rest] eqn:Hd.
    + intros _. apply (f_equal length) in Hd. rewrite length_drop in Hd.
      simpl in Hd. lia.
    + destruct (bool_decide (i ∈ used)); [discriminate|].
      destruct (extend_run _ _ _ _ _ _) as [temp j].
      destruct (_ && _); discriminate.
  - intros Hi. rewrite drop_ge by lia. reflexivity.
Qed.

(** The bounded scan does one iteration per unit of fuel. *)
Lemma scan_from_unroll matching_rows used error sub_error clean_error fuel i :
  scan_from (S fuel) matching_rows used error sub_error clean_error i
  = match scan_iteration matching_rows used error sub_error clean_error i with
    | None => []
    | Some (i', c) =>
        option_list c
        ++ scan_from fuel matching_rows used error sub_error clean_error i'
    end.
Proof.
  cbn [scan_from]. unfold scan_iteration.
  destruct (drop i matching_rows) as [|row_i rest]; [reflexivity|].
  destruct (bool_decide (i ∈ used)); [reflexivity|].
  destruct (extend_run _ _ _ _ _ _) as [temp j].
  destruct (_ && _); reflexivity.
Qed.

Lemma scan_loop_fuel matching_rows used error sub_error clean_error fuel :
  forall i,
    length matching_rows - i <= fuel ->
    exists n,
      n <= length matching_rows - i
      /\ scan_loop matching_rows used error sub_error clean_error i n
           (scan_from fuel matching_rows used error sub_error clean_error i).
Proof.
  induction fuel as [|fuel IH]; intros i Hi.
  - exists 0. split; [lia|]. cbn [scan_from]. constructor.
    apply scan_iteration_None. lia.
  - rewrite scan_from_unroll.
    destruct (scan_iteration matching_rows used error sub_error clean_error i)
      as [[i' c]|] eqn:Hit.
    + pose proof (scan_iteration_advances _ _ _ _ _ _ _ _ Hit) as Hadv.
      destruct (IH i' ltac:(lia)) as (n & Hn & Hloop).
      exists (S n). split; [lia|]. econstructor; eassumption.
    + exists 0. split; [lia|]. constructor. exact Hit.
Qed.

Lemma scan_loop_functional matching_rows used error sub_error clean_error
    i n cands :
  scan_loop matching_rows used error sub_error clean_error i n cands ->
  forall n' cands',
    scan_loop matching_rows used error sub_error clean_error i n' cands' ->
    n' = n /\ cands' = cands.
Proof.
  induction 1 as [i Hend | i i' c n cands Hit _ IH]; intros n' cands' H'.
  - inversion H' as [? _ | ? ? ? ? ? Hit' _]; subst; [split; reflexivity|].
    congruence.
  - inversion H' as [? Hend | ? i2 c2 n2 cands2 Hit' Hloop']; subst;
      [congruence|].
    rewrite Hit in Hit'. injection Hit' as <- <-.
    destruct (IH _ _ Hloop') as [-> ->]. split; reflexivity.
Qed.

(** X2: the loop [while i < len(matching_rows)] of the partial matching
    terminates from every position [i]: it ends after at most one iteration
    per row left in the window, every iteration leaves [i] larger than it
    found it and not past the end of the window, and the candidates it has
    appended by then, which are the only ones a run of the loop can give,
    are those of the bounded scan the matching is computed with. *)
Theorem scan_loop_terminates
    (matching_rows : list word_row) (used : gset nat)
    (error sub_error clean_error : str) (i : nat) :
  (exists n,
     n <= length matching_rows - i
     /\ scan_loop matching_rows used error sub_error clean_error i n
          (scan_from (length matching_rows) matching_rows used error
             sub_error clean_error i)
     /\ forall n' cands,
          scan_loop matching_rows used error sub_error clean_error i n' cands ->
          n' = n
          /\ cands = scan_from (length matching_rows) matching_rows used error
                       sub_error clean_error i)
  /\ forall i' c,
       scan_iteration matching_rows used error sub_error clean_error i
       = Some (i', c) ->
       i < i' <= length matching_rows.
Proof.
  split; [|apply scan_iteration_advances].
  destruct (scan_loop_fuel matching_rows used error sub_error clean_error
              (length matching_rows) i ltac:(lia)) as (n & Hn & Hloop).
  exists n. split; [exact Hn|]. split; [exact Hloop|].
  intros n' cands H'. exact (scan_loop_functional _ _ _ _ _ _ _ _ Hloop _ _ H').
Qed.

Lemma scan_from_ascending matching_rows used error sub_error clean_error fuel :
  forall i,
    let l := scan_from fuel matching_rows used error sub_error clean_error i in
    (forall c x, c ∈ l -> x ∈ sequence c -> i <= x)
    /\ (forall l1 c l2 d x y,
          l = l1 ++ c :: l2 -> d ∈ l2 ->
          x ∈ sequence c -> y ∈ sequence d -> x < y).
Proof.
  induction fuel as [|fuel IH]; intros i; cbv zeta.
  - cbn. split; [intros c x Hc; inversion Hc|].
    intros l1 c l2 d x y Hl. destruct l1; discriminate.
  - cbn [scan_from].
    destruct (drop i matching_rows) as [|row_i rest] eqn:Hd.
    { split; [intros c x Hc; inversion Hc|].
      intros l1 c l2 d x y Hl. destruct l1; discriminate. }
    assert (Hnext : forall k, i <= k ->
      let l := scan_from fuel matching_rows used error sub_error clean_error k in
      (forall c x, c ∈ l -> x ∈ sequence c -> i <= x)
      /\ (forall l1 c l2 d x y,
            l = l1 ++ c :: l2 -> d ∈ l2 ->
            x ∈ sequence c -> y ∈ sequence d -> x < y)).
    { intros k Hk. destruct (IH k) as [Ha Hb]. split; [|exact Hb].
      intros c x Hc Hx. specialize (Ha c x Hc Hx). lia. }
    destruct (bool_decide (i ∈ used)); [apply (Hnext (S i)); lia|].
    destruct (extend_run _ _ _ _ _ _) as [temp j] eqn:Hrun.
    apply extend_run_spec in Hrun as (n & -> & _ & -> & _).
    match goal with
    | |- context [if ?c then _ else _] => destruct c
    end; [|apply (Hnext (S i)); lia].
    destruct (IH (S i + n)) as [Ha Hb]. split.
    + intros c x Hc Hx. apply elem_of_cons in Hc as [->|Hc].
      * cbn in Hx. apply elem_of_cons in Hx as [->|Hx]; [lia|].
        apply elem_of_seq in Hx. lia.
      * specialize (Ha c x Hc Hx). lia.
    + intros l1 c l2 d x y Hl Hd' Hx Hy. destruct l1 as [|c0 l1].
      * cbn in Hl. injection Hl as <- <-. specialize (Ha d y Hd' Hy).
        cbn in Hx. apply elem_of_cons in Hx as [->|Hx]; [lia|].
        apply elem_of_seq in Hx. lia.
      * cbn in Hl. injection Hl as _ Hl. eapply Hb; eassumption.
Qed.

(** X3: within the scan of one suffix the candidates do not overlap: every
    word of a candidate comes before every word of a candidate found later,
    since the scan resumes just past the run it recorded. *)
Theorem scan_candidates_do_not_overlap
    (matching_rows : list word_row) (used : gset nat)
    (error sub_error clean_error : str) (i : nat)
    (l1 l2 : list candidate) (c d : candidate) (x y : nat) :
  scan_from (length matching_rows) matching_rows used error sub_error
    clean_error i
  = l1 ++ c :: l2 ->
  d ∈ l2 -> x ∈ sequence c -> y ∈ sequence d -> x < y.
Proof.
  intros Hl. eapply (scan_from_ascending matching_rows used error sub_error
                       clean_error (length matching_rows) i); exact Hl.
Qed.

(** The window "ab ab" and the suffix "ab": two candidates, one after the
    other. *)
Lemma scan_candidates_do_not_overlap_witness :
  scan_from 2 [sample_row "ab" 1 2 0 1 10; sample_row "ab" 2 3 2 3 10] ∅
    (py "ab") (py "ab") (py "ab") 0
  = [] ++ Candidate [0] (py "ab") true 2 (py "ab") (py "ab")
          :: [Candidate [1] (py "ab") true 2 (py "ab") (py "ab")]
  /\ 0 < 1.
Proof.
  split; [vm_compute; reflexivity|].
  apply (scan_candidates_do_not_overlap
           [sample_row "ab" 1 2 0 1 10; sample_row "ab" 2 3 2 3 10] ∅
           (py "ab") (py "ab") (py "ab") 0 []
           [Candidate [1] (py "ab") true 2 (py "ab") (py "ab")]
           (Candidate [0] (py "ab") true 2 (py "ab") (py "ab"))
           (Candidate [1] (py "ab") true 2 (py "ab") (py "ab")) 0 1).
  - vm_compute. reflexivity.
  - left.
  - left.
  - left.
Defined.

(** X4: what a candidate of the partial matching is made of: it was matched
    against one of the suffixes of the phrase's tokens, its stripped text is
    a non-empty prefix of that stripped suffix, it is full exactly when the
    two are equal, and its first word was not used when the scan met it. *)
Theorem candidates_are_prefixes_of_suffixes
    (matching_rows : list word_row) (used : gset nat) (error : str)
    (m : candidate) :
  m ∈ partial_matches matching_rows used error ->
  (exists start,
     start < length (split error)
     /\ sub_error m = join_space (drop start (split error)))
  /\ original_error m = error
  /\ (exists t, remove_spaces (sub_error m) = remove_spaces (text m) ++ t
                /\ (is_full_match m = true <-> t = []))
  /\ remove_spaces (text m) <> []
  /\ length_ m = length (remove_spaces (text m))
  /\ (exists i, head (sequence m) = Some i /\ i ∉ used).
Proof.
  unfold partial_matches. intros Hm.
  apply list_elem_of_In, in_flat_map in Hm as (start & Hstart & Hm).
  apply in_seq in Hstart. apply list_elem_of_In, scan_from_ok in Hm
    as ((_ & _ & Hlen & Hpos & Hfull & Hpre & Horig & Hhead) & Hsub).
  split; [exists start; split; [lia | exact Hsub]|].
  split; [exact Horig|]. split; [|split; [|split; [exact Hlen | exact Hhead]]].
  - apply startswith_spec in Hpre as [t Ht]. exists t. split; [exact Ht|].
    rewrite Hfull, bool_decide_eq_true, Ht. split.
    + intros H. apply (f_equal length) in H. rewrite length_app in H.
      destruct t; [reflexivity | simpl in H; lia].
    + intros ->. rewrite app_nil_r. reflexivity.
  - intros Hnil. rewrite Hlen, Hnil in Hpos. simpl in Hpos. lia.
Qed.

Lemma candidates_are_prefixes_of_suffixes_witness :
  let m := Candidate [2] (py "brown") true 5 (py "brown") (py "quikc brown") in
  (exists start,
     start < length (split (py "quikc brown"))
     /\ sub_error m = join_space (drop start (split (py "quikc brown"))))
  /\ original_error m = py "quikc brown"
  /\ (exists t, remove_spaces (sub_error m) = remove_spaces (text m) ++ t
                /\ (is_full_match m = true <-> t = []))
  /\ remove_spaces (text m) <> []
  /\ length_ m = length (remove_spaces (text m))
  /\ (exists i, head (sequence m) = Some i /\ i ∉ (∅ : gset nat)).
Proof.
  apply (candidates_are_prefixes_of_suffixes sample_rows ∅ (py "quikc brown")).
  vm_compute. left.
Defined.

End PartialMatchingFacts.

(** ** [Annotation.py] has no fallback *)

Section AnnotationPage.

Import Annotation.

(** The annotations a pass adds: the page it started with stays as a prefix,
    what is added carries no stroke colour and the label of a phrase of the
    list, nothing is added when no phrase accepts, and every index it marks
    is a position of the window. *)
Lemma process_errors_page matching_rows error_list :
  forall st st' outs,
    process_errors matching_rows st error_list = Ok (st', outs) ->
    (forall x, x ∈ used_indices st' ->
       x ∈ used_indices st \/ x < length matching_rows)
    /\ exists new,
         annots st' = annots st ++ new
         /\ Forall (fun a =>
                      annot_stroke a = None
                      /\ exists e, e ∈ error_list /\ e <> []
                                   /\ annot_content a
                                      = py "Error Phrase: " ++ e)
              new
         /\ ((forall o, o ∈ outs -> accepted o = []) -> st' = st)
         /\ ((exists o, o ∈ outs /\ accepted o <> []) -> new <> []).
Proof.
  induction error_list as [|error rest IH]; intros st st' outs H.
  - cbn in H. injection H as <- <-. split; [auto|].
    exists []. rewrite app_nil_r. repeat split; auto.
    intros (o & Ho & _). inversion Ho.
  - cbn [process_errors] in H.
    destruct (process_error_spec matching_rows st error)
      as (st1 & o & Hstep & Hused & Hfresh & Hkeep & Hadd).
    rewrite Hstep in H. cbn [mbind result_bind] in H.
    destruct (process_errors matching_rows st1 rest) as [[st2 os]|] eqn:Hrest;
      [|discriminate].
    cbn [mbind result_bind] in H. injection H as <- <-.
    destruct (IH st1 st2 os Hrest)
      as (Hrange & new2 & Hannots & Hstroke & Hnone & Hsome).
    assert (Hstroke' :
      Forall (fun a =>
                annot_stroke a = None
                /\ exists e, e ∈ error :: rest /\ e <> []
                             /\ annot_content a = py "Error Phrase: " ++ e)
        new2).
    { eapply Forall_impl; [exact Hstroke|]. cbn.
      intros a (Hs & e & He & Hne & Hc). split; [exact Hs|].
      exists e. split; [right; exact He | auto]. }
    split.
    + intros x Hx. destruct (Hrange x Hx) as [Hx1|Hx1]; [|auto].
      rewrite Hused in Hx1. apply elem_of_union in Hx1 as [Hx1|Hx1]; [auto|].
      right. apply elem_of_list_to_set in Hx1. apply Hfresh, Hx1.
    + destruct (accepted o) as [|a acc] eqn:Hacc.
      * rewrite (Hkeep eq_refl) in *. exists new2.
        split; [exact Hannots|]. split; [exact Hstroke'|]. split.
        -- intros Hall. apply Hnone. intros o' Ho'. apply Hall. right. exact Ho'.
        -- intros (o' & Ho' & Hne). apply Hsome.
           apply elem_of_cons in Ho' as [->|Ho']; [congruence | eauto].
      * destruct (Hadd ltac:(discriminate)) as (rects & Hrects & Hst1).
        assert (Herr : error <> []).
        { intros ->. cbn in Hstep. injection Hstep as <- <-. discriminate. }
        exists (map (fun r => Annot r None (py "Error Phrase: " ++ error)) rects
                ++ new2).
        split; [rewrite Hannots, Hst1, <- app_assoc; reflexivity|].
        split; [|split].
        -- apply Forall_app. split; [|exact Hstroke'].
           apply Forall_forall. intros a' Ha'.
           apply list_elem_of_In, in_map_iff in Ha' as (r & <- & _).
           split; [reflexivity|]. exists error.
           split; [left | split; [exact Herr | reflexivity]].
        -- intros Hall. specialize (Hall o ltac:(left)). congruence.
        -- intros _. destruct rects; [congruence | discriminate].
Qed.

(** A loop over values that returns has met strings and falsy values only,
    and has done what the loop over these strings does. *)
Lemma process_values_strs matching_rows error_list :
  forall st r,
    AnnotationScript.process_values matching_rows st error_list = Ok r ->
    Forall (fun v => PdfErrorAnnotator.truthy v = true ->
                     PdfErrorAnnotator.is_str v = true) error_list
    /\ process_errors matching_rows st
         (map (fun v => match v with
                        | PdfErrorAnnotator.PyStr s => s
                        | _ => []
                        end) error_list)
       = Ok r.
Proof.
  induction error_list as [|v rest IH]; intros st r H.
  - cbn in H. split; [constructor | exact H].
  - cbn [AnnotationScript.process_values] in H. cbn [map process_errors].
    unfold AnnotationScript.phrase_of in H.
    destruct (PdfErrorAnnotator.truthy v) eqn:Ht; cbn [negb] in H.
    + destruct v as [| | |s|]; cbn [mbind result_bind] in H;
        try discriminate H.
      destruct (process_error matching_rows st s) as [[st1 o]|];
        [|discriminate H].
      cbn [mbind result_bind] in H |- *.
      destruct (AnnotationScript.process_values matching_rows st1 rest)
        as [[st2 os]|] eqn:Hrest; [|discriminate H].
      destruct (IH st1 _ Hrest) as [Hall Hrun].
      split; [constructor; [reflexivity | exact Hall]|].
      rewrite Hrun. exact H.
    + cbn [mbind result_bind] in H.
      assert (Hskip :
        process_error matching_rows st
          match v with PdfErrorAnnotator.PyStr s => s | _ => [] end
        = Ok (st, Skipped)).
      { destruct v as [| | |[|c s]|]; try reflexivity. discriminate Ht. }
      rewrite Hskip. cbn [mbind result_bind].
      destruct (AnnotationScript.process_values matching_rows st rest)
        as [[st2 os]|] eqn:Hrest; [|discriminate H].
      destruct (IH st _ Hrest) as [Hall Hrun].
      split; [constructor; [congruence | exact Hall]|].
      rewrite Hrun. exact H.
Qed.

(** X5: [Annotation.py] has no whole-paragraph fallback. Whenever the body
    of its paragraph loop returns, the page exists; on an empty window it
    has left the page as it was; on a non-empty one every truthy element of
    the phrase list was a string, the page keeps its height and its earlier
    annotations, every annotation added carries no stroke colour and the
    label of a phrase of the list, nothing is added when no phrase is
    accepted and something is when one is. *)
Theorem annotation_script_has_no_fallback
    (parse_literal : str -> option PdfErrorAnnotator.pyval)
    (df_words : list PdfErrorAnnotator.word_record)
    (pdf_document : PdfErrorAnnotator.document) (filename : str)
    (page_number : Z) (para_bbox : bbox)
    (error_phrases : PdfErrorAnnotator.cell)
    (r : option (PdfErrorAnnotator.page * list outcome)) :
  AnnotationScript.process_paragraph parse_literal df_words pdf_document
    filename page_number para_bbox error_phrases = Ok r ->
  exists pdf_page matching_rows,
    pdf_document (page_number - 1)%Z = Ok pdf_page
    /\ Simple.select_rows df_words filename page_number
         (PdfErrorAnnotator.convert_and_buffer
            (AnnotationScript.config df_words)
            (PdfErrorAnnotator.height pdf_page) para_bbox)
       = Ok matching_rows
    /\ (matching_rows = [] <-> r = None)
    /\ forall page' outs,
         r = Some (page', outs) ->
         exists errors new,
           PdfErrorAnnotator.iterate
             (PdfErrorAnnotator.parse_error_phrases parse_literal
                (PdfErrorAnnotator.cell_value error_phrases)) = Ok errors
           /\ Forall (fun v => PdfErrorAnnotator.truthy v = true ->
                               PdfErrorAnnotator.is_str v = true) errors
           /\ length outs = length errors
           /\ PdfErrorAnnotator.height page'
              = PdfErrorAnnotator.height pdf_page
           /\ PdfErrorAnnotator.page_annots page'
              = PdfErrorAnnotator.page_annots pdf_page ++ new
           /\ Forall (fun a =>
                        annot_stroke a = None
                        /\ exists e, PdfErrorAnnotator.PyStr e ∈ errors
                                     /\ annot_content a
                                        = py "Error Phrase: " ++ e)
                new
           /\ ((forall o, o ∈ outs -> accepted o = []) -> new = [])
           /\ ((exists o, o ∈ outs /\ accepted o <> []) -> new <> []).
Proof.
  unfold AnnotationScript.process_paragraph.
  destruct (pdf_document (page_number - 1)%Z) as [pdf_page|] eqn:Hdoc;
    [|discriminate].
  run. replace (page_number - 1 + 1)%Z with page_number by lia.
  destruct (Simple.select_rows _ _ _ _) as [matching_rows|] eqn:Hrows;
    [|discriminate].
  run. intros H. exists pdf_page, matching_rows.
  split; [reflexivity|]. split; [exact Hrows|]. clear Hrows.
  destruct matching_rows as [|row0 rows].
  { injection H as <-. split; [split; reflexivity|]. discriminate. }
  destruct (PdfErrorAnnotator.iterate _) as [errors|] eqn:Hit; [|discriminate].
  cbn [mbind result_bind] in H.
  destruct (AnnotationScript.process_values _ _ _) as [[st outs]|] eqn:Hrun;
    [|discriminate].
  cbn [mbind result_bind] in H. injection H as <-.
  split; [split; discriminate|].
  intros page' outs' [= <- <-].
  destruct (process_values_strs _ _ _ _ Hrun) as [Hstrs Hrun'].
  destruct (process_errors_page _ _ _ _ _ Hrun')
    as (_ & new & Hannots & Hstroke & Hnone & Hsome).
  destruct (process_errors_spec (row0 :: rows)
              (map (fun v => match v with
                             | PdfErrorAnnotator.PyStr s => s
                             | _ => []
                             end) errors)
              (State ∅ (PdfErrorAnnotator.page_annots pdf_page)))
    as (st0 & outs0 & Hrun0 & Hlen & _).
  rewrite Hrun' in Hrun0. injection Hrun0 as <- <-.
  rewrite length_map in Hlen.
  exists errors, new. split; [reflexivity|]. split; [exact Hstrs|].
  split; [exact Hlen|]. split; [reflexivity|]. cbn in Hannots.
  split; [exact Hannots|]. split; [|split; [|exact Hsome]].
  - eapply Forall_impl; [exact Hstroke|]. cbn.
    intros a (Hs & e & He & Hne & Hc). split; [exact Hs|].
    exists e. split; [|exact Hc].
    apply list_elem_of_In, in_map_iff in He as (v & Hv & Hin).
    destruct v; try (subst e; congruence). subst e.
    apply list_elem_of_In. exact Hin.
  - intros Hall. rewrite (Hnone Hall) in Hannots. cbn in Hannots.
    apply (f_equal length) in Hannots. rewrite length_app in Hannots.
    destruct new; [reflexivity | simpl in Hannots; lia].
Qed.

(** The sample window with buffer 5: "quick brown" is found and drawn, the
    empty string is skipped and "quikc" has no candidate. *)
Lemma annotation_script_has_no_fallback_witness :
  exists r pdf_page matching_rows,
    AnnotationScript.process_paragraph
      (fun _ => Some (PdfErrorAnnotator.PyList
                        [PdfErrorAnnotator.PyStr (py "quick brown");
                         PdfErrorAnnotator.PyStr [];
                         PdfErrorAnnotator.PyStr (py "zzz")]))
      sample_words sample_document (py "doc.pdf") 1 (Box 0 95 30 80)
      (PdfErrorAnnotator.CellStr (py "['quick brown', '', 'zzz']"))
    = Ok r
    /\ sample_document (1 - 1)%Z = Ok pdf_page
    /\ Simple.select_rows sample_words (py "doc.pdf") 1
         (PdfErrorAnnotator.convert_and_buffer
            (AnnotationScript.config sample_words)
            (PdfErrorAnnotator.height pdf_page) (Box 0 95 30 80))
       = Ok matching_rows
    /\ (matching_rows = [] <-> r = None)
    /\ forall page' outs,
         r = Some (page', outs) ->
         exists errors new,
           PdfErrorAnnotator.iterate
             (PdfErrorAnnotator.parse_error_phrases
                (fun _ => Some (PdfErrorAnnotator.PyList
                                  [PdfErrorAnnotator.PyStr (py "quick brown");
                                   PdfErrorAnnotator.PyStr [];
                                   PdfErrorAnnotator.PyStr (py "zzz")]))
                (PdfErrorAnnotator.cell_value
                   (PdfErrorAnnotator.CellStr
                      (py "['quick brown', '', 'zzz']")))) = Ok errors
           /\ Forall (fun v => PdfErrorAnnotator.truthy v = true ->
                               PdfErrorAnnotator.is_str v = true) errors
           /\ length outs = length errors
           /\ PdfErrorAnnotator.height page'
              = PdfErrorAnnotator.height pdf_page
           /\ PdfErrorAnnotator.page_annots page'
              = PdfErrorAnnotator.page_annots pdf_page ++ new
           /\ Forall (fun a =>
                        annot_stroke a = None
                        /\ exists e, PdfErrorAnnotator.PyStr e ∈ errors
                                     /\ annot_content a
                                        = py "Error Phrase: " ++ e)
                new
           /\ ((forall o, o ∈ outs -> accepted o = []) -> new = [])
           /\ ((exists o, o ∈ outs /\ accepted o <> []) -> new <> []).
Proof.
  eexists. 
  assert (Hrun :
    AnnotationScript.process_paragraph
      (fun _ => Some (PdfErrorAnnotator.PyList
                        [PdfErrorAnnotator.PyStr (py "quick brown");
                         PdfErrorAnnotator.PyStr [];
                         PdfErrorAnnotator.PyStr (py "zzz")]))
      sample_words sample_document (py "doc.pdf") 1 (Box 0 95 30 80)
      (PdfErrorAnnotator.CellStr (py "['quick brown', '', 'zzz']"))
    = Ok ?[r]) by (vm_compute; reflexivity).
  destruct (annotation_script_has_no_fallback _ _ _ _ _ _ _ _ Hrun)
    as (pdf_page & matching_rows & H).
  exists pdf_page, matching_rows. split; [exact Hrun | exact H].
Defined.

End AnnotationPage.

(** ** The containment test and the paragraph box *)

Section Boxes.

Import PdfErrorAnnotator.

(** X6: containment is reflexive and transitive, as [is_within] computes
    it. *)
Theorem is_within_is_a_preorder :
  (forall b : bbox, is_within (Some b) (Some b) = Ok true)
  /\ (forall a b c : bbox,
        is_within (Some a) (Some b) = Ok true ->
        is_within (Some b) (Some c) = Ok true ->
        is_within (Some a) (Some c) = Ok true).
Proof.
  split.
  - intros b. cbn. f_equal. apply within_spec. repeat split; lra.
  - intros a b c Hab Hbc. cbn in *.
    injection Hab as Hab. injection Hbc as Hbc. f_equal.
    apply within_spec in Hab, Hbc. apply within_spec.
    destruct Hab as (? & ? & ? & ?), Hbc as (? & ? & ? & ?).
    repeat split; lra.
Qed.

End Boxes.

Section ParagraphBox.

Import PdfErrorAnnotator.

(** X7: a box written with its bounds in order (left before right, bottom
    before top, origin at the bottom left) and stored by [load_data] comes
    out of the conversion and the buffer, for a buffer that is not negative,
    with its bounds in order again: the swap of [load_data] is what undoes
    the flip of the vertical axis. Storing twice gives the box back. *)
Theorem stored_box_converts_to_ordered_bounds
    (self : annotator) (page_height : Q) (src stored : bbox) :
  (bx0 src <= bx1 src)%Q -> (by0 src <= by1 src)%Q ->
  (0 <= BUFFER self)%Q ->
  load_clipbounds (Some src) = Some stored ->
  let para_bbox := convert_and_buffer self page_height stored in
  (bx0 para_bbox <= bx1 para_bbox)%Q
  /\ (by0 para_bbox <= by1 para_bbox)%Q
  /\ load_clipbounds (Some stored) = Some src.
Proof.
  intros Hx Hy Hb [= <-]. cbn. destruct src as [x0 y0 x1 y1]. cbn in *.
  repeat split; lra.
Qed.

Lemma stored_box_converts_to_ordered_bounds_witness :
  let para_bbox :=
    convert_and_buffer sample_annotator 100 (Box 0 95 30 80) in
  (bx0 para_bbox <= bx1 para_bbox)%Q
  /\ (by0 para_bbox <= by1 para_bbox)%Q
  /\ load_clipbounds (Some (Box 0 95 30 80)) = Some (Box 0 80 30 95).
Proof.
  apply (stored_box_converts_to_ordered_bounds sample_annotator 100
           (Box 0 80 30 95) (Box 0 95 30 80));
    [discriminate | discriminate | discriminate | reflexivity].
Defined.





End ParagraphBox.

(** ** What [process_word_matches] adds *)

Section WordMatches.

Import PdfErrorAnnotator.

(** A phrase is found in the window exactly when indices are selected for
    it. *)
Lemma match_word_indices_None matching_rows p :
  match_word_indices matching_rows p = None
  <-> contains (all_words_string matching_rows) p = false.
Proof.
  unfold match_word_indices, contains.
  destruct (find _ _); split; intros; congruence.
Qed.

Lemma phrase_of_eq e p : phrase_of e = Some p -> e = PyStr p.
Proof.
  destruct e as [| | |[|c s]|]; try discriminate. intros [= <-]. reflexivity.
Qed.

(** The phrase loop in full: the boxes it records are the rectangles of the
    annotations it adds, all of them exact-match highlights labelled with a
    phrase of the list; the flag ends up set when it was set or something
    was added, and something is added exactly when a phrase is found. *)
Lemma match_loop_annots self matching_rows errors :
  forall matches_found st,
  exists found' new,
    match_loop self matching_rows errors matches_found st
    = Ok (found', PState (annotation_bboxes st ++ map annot_rect new)
                    (annots st ++ new))
    /\ Forall (fun a =>
                 annot_stroke a = Some EXACT_MATCH_COLOR
                 /\ exists p, PyStr p ∈ errors
                              /\ annot_content a = py "Error Phrase: " ++ p)
         new
    /\ (found' = true <-> matches_found = true \/ new <> [])
    /\ (new <> [] <->
        exists e p, e ∈ errors /\ phrase_of e = Some p
                    /\ contains (all_words_string matching_rows) p = true).
Proof.
  induction errors as [|e errors IH]; intros found st.
  - exists found, []. cbn. rewrite !app_nil_r. destruct st.
    split; [reflexivity|]. split; [constructor|]. split.
    + split; [auto | intros [H|H]; congruence].
    + split; [congruence | intros (e & p & He & _); inversion He].
  - assert (Hskip :
      (forall p, phrase_of e = Some p ->
         contains (all_words_string matching_rows) p = false) ->
      match_loop self matching_rows (e :: errors) found st
      = match_loop self matching_rows errors found st).
    { intros Hno. cbn [match_loop]. destruct (phrase_of e) as [p|]; [|reflexivity].
      specialize (Hno p eq_refl). apply match_word_indices_None in Hno.
      rewrite Hno. reflexivity. }
    destruct (phrase_of e) as [p|] eqn:Hp;
      [destruct (match_word_indices matching_rows p) as [idxs|] eqn:Hidx|].
    + destruct (match_word_indices_spec _ _ _ (phrase_of_nonempty _ _ Hp) Hidx)
        as [Hne Hall].
      destruct (highlight_matched_words_Ok self st matching_rows idxs p Hne Hall)
        as (rects & Hrects & Hhl).
      set (mk := fun r => Annot r (Some EXACT_MATCH_COLOR)
                            (py "Error Phrase: " ++ p)) in *.
      destruct (IH true (PState (annotation_bboxes st ++ rects)
                           (annots st ++ map mk rects)))
        as (found' & new2 & Hloop & Hall2 & Hfound & Hnew).
      exists found', (map mk rects ++ new2).
      assert (Hmap : map annot_rect (map mk rects) = rects).
      { rewrite map_map. apply map_id. }
      split; [|split; [|split]].
      * cbn [match_loop]. rewrite Hp, Hidx.
        destruct idxs as [|i idxs]; [congruence|].
        rewrite Hhl. run. rewrite Hloop. cbn [annotation_bboxes annots].
        rewrite map_app, Hmap, !app_assoc. reflexivity.
      * apply Forall_app. split.
        -- apply Forall_forall. intros a Ha.
           apply list_elem_of_In, in_map_iff in Ha as (r & <- & _).
           split; [reflexivity|]. exists p. split; [|reflexivity].
           rewrite (phrase_of_eq _ _ Hp). left.
        -- eapply Forall_impl; [exact Hall2|]. cbn.
           intros a (Hs & q & Hq & Hc). split; [exact Hs|].
           exists q. split; [right; exact Hq | exact Hc].
      * split; [intros _; right; destruct rects; [congruence|discriminate]|].
        intros _. apply Hfound. left. reflexivity.
      * split; [|intros _; destruct rects; [congruence|discriminate]].
        intros _. exists e, p. split; [left|]. split; [exact Hp|].
        unfold contains. unfold match_word_indices in Hidx.
        destruct (find _ _); [reflexivity | discriminate].
    + rewrite Hskip.
      2:{ intros q [= <-]. apply match_word_indices_None. exact Hidx. }
      destruct (IH found st) as (found' & new & Hloop & Hall & Hfound & Hnew).
      exists found', new. split; [exact Hloop|]. split; [|split; [exact Hfound|]].
      * eapply Forall_impl; [exact Hall|]. cbn.
        intros a (Hs & q & Hq & Hc). split; [exact Hs|].
        exists q. split; [right; exact Hq | exact Hc].
      * rewrite Hnew. split.
        -- intros (e' & q & He' & Hq & Hc). exists e', q.
           split; [right; exact He' | auto].
        -- intros (e' & q & He' & Hq & Hc).
           apply elem_of_cons in He' as [->|He']; [|eauto].
           rewrite Hp in Hq. injection Hq as <-.
           apply match_word_indices_None in Hidx. congruence.
    + rewrite Hskip by (intros q Hq; discriminate).
      destruct (IH found st) as (found' & new & Hloop & Hall & Hfound & Hnew).
      exists found', new. split; [exact Hloop|]. split; [|split; [exact Hfound|]].
      * eapply Forall_impl; [exact Hall|]. cbn.
        intros a (Hs & q & Hq & Hc). split; [exact Hs|].
        exists q. split; [right; exact Hq | exact Hc].
      * rewrite Hnew. split.
        -- intros (e' & q & He' & Hq & Hc). exists e', q.
           split; [right; exact He' | auto].
        -- intros (e' & q & He' & Hq & Hc).
           apply elem_of_cons in He' as [->|He']; [|eauto]. congruence.
Qed.

(** X9: whenever [process_word_matches] returns, it has added at least one
    annotation, and the boxes it has recorded are exactly the rectangles of
    the annotations it has added to the page, in order. If some phrase
    occurs in the window string, all of them are exact-match highlights
    labelled with a phrase of the list and the paragraph box is not drawn;
    otherwise the only one is the potential-error highlight on the paragraph
    box, labelled with the phrases joined by commas. *)
Theorem process_word_matches_outcome
    (self : annotator) (st st' : pstate) (matching_rows : list word_row)
    (error_list : pyval) (para_bbox : bbox) :
  process_word_matches self st matching_rows error_list para_bbox = Ok st' ->
  exists errs new,
    iterate error_list = Ok errs
    /\ st' = PState (annotation_bboxes st ++ map annot_rect new)
               (annots st ++ new)
    /\ new <> []
    /\ ((exists e p, e ∈ errs /\ phrase_of e = Some p
                     /\ contains (all_words_string matching_rows) p = true) ->
        Forall (fun a =>
                  annot_stroke a = Some EXACT_MATCH_COLOR
                  /\ exists p, PyStr p ∈ errs
                               /\ annot_content a = py "Error Phrase: " ++ p)
          new)
    /\ ((forall e p, e ∈ errs -> phrase_of e = Some p ->
           contains (all_words_string matching_rows) p = false) ->
        exists joined,
          join_comma error_list = Ok joined
          /\ new = [Annot para_bbox (Some POTENTIAL_ERROR_COLOR)
                      (py "Potential Errors: " ++ joined)]).
Proof.
  unfold process_word_matches.
  destruct (iterate error_list) as [errs|] eqn:Hit; [|discriminate]. run.
  destruct (match_loop_annots self matching_rows errs false st)
    as (found' & new & -> & Hall & Hfound & Hnew).
  run. destruct found'; cbn [negb].
  - intros [= <-]. exists errs, new.
    assert (Hne : new <> []).
    { destruct Hfound as [Hf _]. destruct (Hf eq_refl); [discriminate|assumption]. }
    split; [reflexivity|]. split; [reflexivity|]. split; [exact Hne|]. split.
    + intros _. exact Hall.
    + intros Hno. apply Hnew in Hne as (e & p & He & Hp & Hc).
      rewrite (Hno e p He Hp) in Hc. discriminate.
  - assert (Hnil : new = []).
    { destruct new; [reflexivity|]. destruct Hfound as [_ Hf].
      discriminate Hf. right. discriminate. }
    subst new. cbn [map]. rewrite !app_nil_r.
    unfold highlight_paragraph.
    destruct (join_comma error_list) as [joined|]; [|discriminate]. run.
    cbn [annotation_bboxes annots]. intros [= <-].
    exists errs, [Annot para_bbox (Some POTENTIAL_ERROR_COLOR)
                    (py "Potential Errors: " ++ joined)].
    split; [reflexivity|]. split; [reflexivity|]. split; [discriminate|]. split.
    + intros Hex. apply Hnew in Hex. congruence.
    + intros _. exists joined. split; reflexivity.
Qed.

(** The sample window with a phrase that occurs in it and one that does
    not. *)
Lemma process_word_matches_outcome_witness :
  exists st',
    process_word_matches sample_annotator (PState [] []) sample_rows
      (PyList [PyStr (py "quick"); PyStr (py "nothing")]) (Box 0 0 40 40)
    = Ok st'
    /\ exists errs new,
         iterate (PyList [PyStr (py "quick"); PyStr (py "nothing")]) = Ok errs
         /\ st' = PState ([] ++ map annot_rect new) ([] ++ new)
         /\ new <> []
         /\ ((exists e p, e ∈ errs /\ phrase_of e = Some p
                          /\ contains (all_words_string sample_rows) p = true) ->
             Forall (fun a =>
                       annot_stroke a = Some EXACT_MATCH_COLOR
                       /\ exists p, PyStr p ∈ errs
                                    /\ annot_content a
                                       = py "Error Phrase: " ++ p)
               new)
         /\ ((forall e p, e ∈ errs -> phrase_of e = Some p ->
                contains (all_words_string sample_rows) p = false) ->
             exists joined,
               join_comma (PyList [PyStr (py "quick"); PyStr (py "nothing")])
               = Ok joined
               /\ new = [Annot (Box 0 0 40 40) (Some POTENTIAL_ERROR_COLOR)
                           (py "Potential Errors: " ++ joined)]).
Proof.
  eexists. split; [vm_compute; reflexivity|].
  apply (process_word_matches_outcome sample_annotator (PState [] []) _
           sample_rows (PyList [PyStr (py "quick"); PyStr (py "nothing")])
           (Box 0 0 40 40)).
  vm_compute. reflexivity.
Defined.

Lemma join_comma_strs_non_str errs :
  (exists e, e ∈ errs /\ is_str e = false) ->
  join_comma_strs errs = Raise TypeError.
Proof.
  induction errs as [|x errs IH]; intros (e & He & Hs); [inversion He|].
  cbn [join_comma_strs]. destruct x; try reflexivity.
  apply elem_of_cons in He as [->|He]; [discriminate|].
  destruct errs as [|y errs]; [inversion He|].
  rewrite IH by eauto. reflexivity.
Qed.

(** X10: the phrase loop skips an element that is no string, but the
    fallback does not: when the list holds such an element and no phrase is
    found, building the label of the fallback annotation raises a type
    error, for the empty window ([highlight_paragraph] called directly) and
    for a non-empty one alike. *)
Theorem non_string_phrase_breaks_the_fallback
    (self : annotator) (st : pstate) (matching_rows : list word_row)
    (errs : list pyval) (para_bbox : bbox) :
  (exists e, e ∈ errs /\ is_str e = false) ->
  (forall e p, e ∈ errs -> phrase_of e = Some p ->
     contains (all_words_string matching_rows) p = false) ->
  highlight_paragraph st para_bbox (PyList errs) = Raise TypeError
  /\ process_word_matches self st matching_rows (PyList errs) para_bbox
     = Raise TypeError
  /\ exists r, match_loop self matching_rows errs false st = Ok r.
Proof.
  intros Hnon Hno.
  assert (Hhp : forall st0,
    highlight_paragraph st0 para_bbox (PyList errs) = Raise TypeError).
  { intros st0. unfold highlight_paragraph, join_comma. cbn [iterate]. run.
    rewrite (join_comma_strs_non_str errs Hnon). reflexivity. }
  split; [apply Hhp|].
  destruct (match_loop_annots self matching_rows errs false st)
    as (found' & new & Hloop & _ & Hfound & Hnew).
  split; [|eauto].
  unfold process_word_matches. cbn [iterate]. run. rewrite Hloop. run.
  destruct found'; [|cbn [negb]; apply Hhp].
  destruct Hfound as [Hf _]. destruct (Hf eq_refl) as [H|H]; [discriminate|].
  apply Hnew in H as (e & p & He & Hp & Hc).
  rewrite (Hno e p He Hp) in Hc. discriminate.
Qed.

Lemma non_string_phrase_breaks_the_fallback_witness :
  highlight_paragraph (PState [] []) (Box 0 0 40 40)
    (PyList [PyStr (py "quikc"); PyNum 5]) = Raise TypeError
  /\ process_word_matches sample_annotator (PState [] []) sample_rows
       (PyList [PyStr (py "quikc"); PyNum 5]) (Box 0 0 40 40)
     = Raise TypeError
  /\ exists r,
       match_loop sample_annotator sample_rows [PyStr (py "quikc"); PyNum 5]
         false (PState [] []) = Ok r.
Proof.
  apply (non_string_phrase_breaks_the_fallback sample_annotator (PState [] [])
           sample_rows [PyStr (py "quikc"); PyNum 5] (Box 0 0 40 40)).
  - exists (PyNum 5). split; [right; left | reflexivity].
  - intros e p He Hp.
    apply elem_of_cons in He as [->|He].
    + injection Hp as <-. reflexivity.
    + apply list_elem_of_singleton in He as ->. discriminate.
Defined.

End WordMatches.

(** ** The fallback, when [process_paragraph] returns *)

Section FallbackBox.

Import PdfErrorAnnotator.

(** X17: what the fallback stores, when it is due and [process_paragraph]
    returns with a result. For a paragraph with a box on a page of the
    document whose window is empty, or whose window holds none of the
    phrases of the list, the result is exactly one box, the converted and
    buffered paragraph box, and the page has exactly one more annotation:
    the potential-error highlight on that box, labelled with the phrases
    joined by commas. *)
Theorem fallback_draws_the_buffered_box
    (parse_literal : str -> option pyval) (self : annotator)
    (pdf_document : document) (row : para_row) (filename : str)
    (b : bbox) (pdf_page : page) (rows : list word_row)
    (boxes : list bbox) (page' : page) :
  para_Clipbounds row = Some b ->
  pdf_document (Page_Number row - 1)%Z = Ok pdf_page ->
  select_rows (df_words self) filename (Page_Number row)
    (convert_and_buffer self (height pdf_page) b) = Ok rows ->
  process_paragraph parse_literal self pdf_document row filename
  = Ok (Some (boxes, page')) ->
  (rows = []
   \/ forall errs e p,
        iterate (parse_error_phrases parse_literal
                   (cell_value (error_phrase row))) = Ok errs ->
        e ∈ errs -> phrase_of e = Some p ->
        contains (all_words_string rows) p = false) ->
  exists joined,
    join_comma (parse_error_phrases parse_literal
                  (cell_value (error_phrase row))) = Ok joined
    /\ boxes = [convert_and_buffer self (height pdf_page) b]
    /\ page'
       = Page (height pdf_page)
           (page_annots pdf_page
            ++ [Annot (convert_and_buffer self (height pdf_page) b)
                  (Some POTENTIAL_ERROR_COLOR)
                  (py "Potential Errors: " ++ joined)]).
Proof.
  intros Hb Hdoc Hrows Hrun Hdue.
  set (para_bbox := convert_and_buffer self (height pdf_page) b) in *.
  set (error_list := parse_error_phrases parse_literal
                       (cell_value (error_phrase row))) in *.
  assert (Hfallback : forall st0 st',
    highlight_paragraph st0 para_bbox error_list = Ok st' ->
    exists joined,
      join_comma error_list = Ok joined
      /\ st' = PState (annotation_bboxes st0 ++ [para_bbox])
                 (annots st0
                  ++ [Annot para_bbox (Some POTENTIAL_ERROR_COLOR)
                        (py "Potential Errors: " ++ joined)])).
  { intros st0 st'. unfold highlight_paragraph.
    destruct (join_comma error_list) as [joined|]; [|discriminate]. run.
    intros [= <-]. exists joined. split; reflexivity. }
  unfold process_paragraph in Hrun. rewrite Hb, Hdoc in Hrun.
  destruct (isna (error_phrase row)); [discriminate|].
  fold error_list para_bbox in Hrun.
  destruct (negb (truthy error_list)); [discriminate|].
  replace (Page_Number row - 1 + 1)%Z with (Page_Number row) in Hrun by lia.
  rewrite Hrows in Hrun. cbn [mbind result_bind] in Hrun.
  destruct rows as [|r rows'].
  - destruct (highlight_paragraph _ _ _) as [st'|] eqn:Hhp; [|discriminate].
    cbn [mbind result_bind] in Hrun. injection Hrun as <- <-.
    destruct (Hfallback _ st' Hhp) as (joined & Hjoin & ->).
    exists joined. split; [exact Hjoin|]. split; reflexivity.
  - destruct Hdue as [Hnil|Hno]; [discriminate|].
    unfold process_word_matches in Hrun.
    destruct (iterate error_list) as [errs|] eqn:Hit; [|discriminate].
    cbn [mbind result_bind] in Hrun.
    destruct (match_loop_annots self (r :: rows') errs false
                (PState [] (page_annots pdf_page)))
      as (found' & new & Hloop & _ & Hfound & Hnew).
    rewrite Hloop in Hrun. cbn [mbind result_bind] in Hrun.
    assert (Hnil : new = []).
    { destruct new as [|a new]; [reflexivity|].
      destruct Hnew as [Hex _].
      destruct (Hex ltac:(discriminate)) as (e & p & He & Hp & Hc).
      rewrite (Hno errs e p eq_refl He Hp) in Hc. discriminate. }
    subst new.
    assert (found' = false) as ->.
    { destruct found'; [|reflexivity]. destruct Hfound as [Hf _].
      destruct (Hf eq_refl); [discriminate | congruence]. }
    cbn [negb map annotation_bboxes annots] in Hrun.
    rewrite !app_nil_r in Hrun.
    destruct (highlight_paragraph _ _ _) as [st'|] eqn:Hhp; [|discriminate].
    cbn [mbind result_bind] in Hrun. injection Hrun as <- <-.
    destruct (Hfallback _ st' Hhp) as (joined & Hjoin & ->).
    exists joined. split; [exact Hjoin|]. split; reflexivity.
Qed.

(** The sample paragraph: its window holds the four words and its one
    phrase, "quikc", is not found. *)
Lemma fallback_draws_the_buffered_box_witness :
  exists boxes page',
    process_paragraph (fun _ => None) sample_annotator sample_document
      sample_para (py "doc.pdf")
    = Ok (Some (boxes, page'))
    /\ exists joined,
         join_comma (parse_error_phrases (fun _ => None)
                       (cell_value (error_phrase sample_para))) = Ok joined
         /\ boxes = [convert_and_buffer sample_annotator
                       (height (Page 100 [])) (Box 0 95 30 80)]
         /\ page'
            = Page (height (Page 100 []))
                (page_annots (Page 100 [])
                 ++ [Annot (convert_and_buffer sample_annotator
                              (height (Page 100 [])) (Box 0 95 30 80))
                       (Some POTENTIAL_ERROR_COLOR)
                       (py "Potential Errors: " ++ joined)]).
Proof.
  eexists _, _. split; [vm_compute; reflexivity|].
  apply (fallback_draws_the_buffered_box (fun _ => None) sample_annotator
           sample_document sample_para (py "doc.pdf") (Box 0 95 30 80)
           (Page 100 []) sample_rows);
    [reflexivity | reflexivity | vm_compute; reflexivity
    | vm_compute; reflexivity |].
  right. intros errs e p [= <-] He Hp.
  apply list_elem_of_singleton in He as ->. injection Hp as <-.
  vm_compute. reflexivity.
Defined.

End FallbackBox.

(** ** The words of an exact match are neighbours *)

Section Contiguity.

(** A test that holds at two positions and everywhere between them selects
    a block of consecutive positions. *)
Lemma filter_convex_seq (f : nat -> bool) n :
  forall s,
    (forall i j k, s <= i -> i < j -> j < k -> k < s + n ->
       f i = true -> f k = true -> f j = true) ->
    exists a m, List.filter f (seq s n) = seq a m /\ s <= a /\ a + m <= s + n.
Proof.
  induction n as [|n IH]; intros s Hconv.
  - exists s, 0. cbn. split; [reflexivity | lia].
  - destruct (IH (S s)) as (a & m & Hf & Ha & Ham).
    { intros i j k Hi Hij Hjk Hk. apply Hconv; lia. }
    cbn [seq List.filter]. rewrite Hf. destruct (f s) eqn:Hs.
    + destruct m as [|m].
      * exists s, 1. cbn. split; [reflexivity | lia].
      * exists s, (S (S m)). split; [|lia]. cbn [seq]. f_equal.
        destruct (decide (a = S s)) as [->|Hne]; [reflexivity|].
        assert (Hfa : f a = true).
        { assert (Hin : In a (List.filter f (seq (S s) n)))
            by (rewrite Hf; left; reflexivity).
          apply filter_In in Hin. apply Hin. }
        assert (HfS : f (S s) = true) by (apply (Hconv s (S s) a); lia || auto).
        assert (Hin : In (S s) (List.filter f (seq (S s) n))).
        { apply filter_In. split; [apply in_seq; lia | exact HfS]. }
        rewrite Hf in Hin. apply in_seq in Hin. lia.
    + exists a, m. split; [reflexivity | lia].
Qed.

Lemma word_end_lt_next_offset (contents : list str) i j w :
  contents !! i = Some w -> i < j ->
  Spec.word_offset contents i + length w < Spec.word_offset contents j.
Proof.
  intros Hw Hij.
  pose proof (word_offset_mono contents (S i) j ltac:(lia)) as H.
  rewrite (word_offset_S _ _ _ Hw) in H. lia.
Qed.

Lemma annotator_test_convex (contents : list str) ms me i j k :
  i < j -> j < k -> k < length contents ->
  annotator_test contents ms me i = true ->
  annotator_test contents ms me k = true ->
  annotator_test contents ms me j = true.
Proof.
  intros Hij Hjk Hk. unfold annotator_test.
  destruct (lookup_lt_is_Some_2 contents i ltac:(lia)) as [wi Hi].
  destruct (lookup_lt_is_Some_2 contents j ltac:(lia)) as [wj Hj].
  destruct (lookup_lt_is_Some_2 contents k ltac:(lia)) as [wk Hk'].
  rewrite Hi, Hj, Hk'. rewrite !andb_true_iff, !Nat.leb_le.
  pose proof (word_end_lt_next_offset contents i j wi Hi Hij).
  pose proof (word_offset_mono contents j k ltac:(lia)). lia.
Qed.

Lemma annotation_test_convex (contents : list str) ms me i j k :
  i < j -> j < k -> k < length contents ->
  annotation_test contents ms me i = true ->
  annotation_test contents ms me k = true ->
  annotation_test contents ms me j = true.
Proof.
  intros Hij Hjk Hk. unfold annotation_test.
  destruct (lookup_lt_is_Some_2 contents i ltac:(lia)) as [wi Hi].
  destruct (lookup_lt_is_Some_2 contents j ltac:(lia)) as [wj Hj].
  destruct (lookup_lt_is_Some_2 contents k ltac:(lia)) as [wk Hk'].
  rewrite Hi, Hj, Hk'. rewrite !andb_true_iff, !Nat.leb_le, !Nat.ltb_lt.
  pose proof (word_end_lt_next_offset contents i j wi Hi Hij).
  pose proof (word_offset_mono contents j k ltac:(lia)). lia.
Qed.

(** X11: the words selected for an exact match are neighbours in the
    window: the class selects a non-empty block of consecutive positions in
    ascending order, and so does the direct match of [Annotation.py] before
    it leaves out the used ones. *)
Theorem exact_match_selects_consecutive_words
    (matching_rows : list word_row) (error : str) (idxs : list nat) :
  error <> [] ->
  PdfErrorAnnotator.match_word_indices matching_rows error = Some idxs ->
  (exists a m, idxs = seq a (S m) /\ a + S m <= length matching_rows)
  /\ exists match_start a m,
       find (all_words_string matching_rows) error = Some match_start
       /\ Annotation.direct_match_scan ∅ match_start (length error)
            (map Content matching_rows) 0 0
          = seq a (S m)
       /\ a + S m <= length matching_rows.
Proof.
  intros Hne Hidx.
  destruct (match_word_indices_spec _ _ _ Hne Hidx) as [Hnonempty _].
  unfold PdfErrorAnnotator.match_word_indices in Hidx.
  destruct (find _ _) as [ms|] eqn:Hfind; [|discriminate].
  injection Hidx as <-.
  set (contents := map Content matching_rows) in *.
  assert (Hlen : length contents = length matching_rows) by apply length_map.
  split.
  - pose proof (overlap_scan_filter ms (ms + length error) contents contents []
                  eq_refl) as H.
    simpl length in H. rewrite word_offset_0 in H. rewrite H in *.
    destruct (filter_convex_seq (annotator_test contents ms (ms + length error))
                (length contents) 0) as (a & m & Hf & _ & Ham).
    { intros i j k _ Hij Hjk Hk. apply annotator_test_convex; lia. }
    rewrite Hf in *. destruct m as [|m]; [cbn in Hnonempty; congruence|].
    exists a, m. split; [reflexivity | lia].
  - exists ms.
    pose proof (direct_match_scan_filter ∅ ms (length error) contents contents
                  [] eq_refl) as H.
    simpl length in H. rewrite word_offset_0 in H.
    assert (Hext : forall i,
      annotation_test contents ms (ms + length error) i
      && negb (bool_decide (i ∈ (∅ : gset nat)))
      = annotation_test contents ms (ms + length error) i).
    { intros i. rewrite bool_decide_eq_false_2 by set_solver.
      apply andb_true_r. }
    rewrite (List.filter_ext _ _ Hext) in H.
    destruct (filter_convex_seq (annotation_test contents ms (ms + length error))
                (length contents) 0) as (a & m & Hf & _ & Ham).
    { intros i j k _ Hij Hjk Hk. apply annotation_test_convex; lia. }
    rewrite Hf in H.
    assert (Htouch : Annotation.direct_match_scan ∅ ms (length error) contents
                       0 0 <> []).
    { apply direct_match_scan_touches; [|exact Hne|exact Hfind].
      intros Hnil. unfold all_words_string in Hfind. fold contents in Hfind.
      rewrite Hnil in Hfind. pose proof (find_bound _ _ _ Hfind) as Hb.
      destruct error; [congruence | simpl in Hb; lia]. }
    rewrite H in Htouch. destruct m as [|m]; [cbn in Htouch; congruence|].
    exists a, m. split; [reflexivity|]. split; [exact H | lia].
Qed.

Lemma exact_match_selects_consecutive_words_witness :
  (exists a m, [1; 2] = seq a (S m) /\ a + S m <= length sample_rows)
  /\ exists match_start a m,
       find (all_words_string sample_rows) (py "quick brown")
       = Some match_start
       /\ Annotation.direct_match_scan ∅ match_start
            (length (py "quick brown")) (map Content sample_rows) 0 0
          = seq a (S m)
       /\ a + S m <= length sample_rows.
Proof.
  apply (exact_match_selects_consecutive_words sample_rows (py "quick brown")
           [1; 2]); [discriminate | reflexivity].
Defined.

End Contiguity.

(** ** What [process_paragraph] stores *)

Section StoredResults.

Import PdfErrorAnnotator.

Lemma highlight_paragraph_shape st para_bbox error_list st' :
  highlight_paragraph st para_bbox error_list = Ok st' ->
  exists a,
    annot_rect a = para_bbox
    /\ annot_stroke a = Some POTENTIAL_ERROR_COLOR
    /\ st' = PState (annotation_bboxes st ++ [para_bbox]) (annots st ++ [a]).
Proof.
  unfold highlight_paragraph.
  destruct (join_comma error_list) as [joined|]; [|discriminate].
  run. intros [= <-].
  exists (Annot para_bbox (Some POTENTIAL_ERROR_COLOR)
            (py "Potential Errors: " ++ joined)).
  split; [|split]; reflexivity.
Qed.

Lemma process_word_matches_shape self st matching_rows error_list para_bbox st' :
  process_word_matches self st matching_rows error_list para_bbox = Ok st' ->
  exists new,
    new <> []
    /\ st' = PState (annotation_bboxes st ++ map annot_rect new)
               (annots st ++ new).
Proof.
  unfold process_word_matches.
  destruct (iterate error_list) as [errors|]; [|discriminate]. run.
  destruct (match_loop_annots self matching_rows errors false st)
    as (found' & new & -> & _ & Hfound & _).
  run. destruct found'; cbn [negb].
  - intros [= <-]. exists new. split; [|reflexivity].
    destruct Hfound as [Hf _]. destruct (Hf eq_refl); [discriminate|assumption].
  - assert (Hnil : new = []).
    { destruct new; [reflexivity|]. destruct Hfound as [_ Hf].
      discriminate Hf. right. discriminate. }
    subst new. intros H.
    apply highlight_paragraph_shape in H as (a & Hrect & _ & ->).
    cbn [annotation_bboxes annots map]. rewrite !app_nil_r.
    exists [a]. split; [discriminate|]. cbn. rewrite Hrect. reflexivity.
Qed.

(** X12: [process_paragraph] returns without storing anything exactly for a
    paragraph without box, with an empty phrase cell, on a page the document
    does not hold, or whose phrase cell parses to an empty value; and
    whenever it stores a list, the list is not empty, it holds exactly the
    rectangles of the annotations added to the page, in order, and the page
    keeps its height and its earlier annotations. *)
Theorem process_paragraph_stores_nothing_or_something
    (parse_literal : str -> option pyval) (self : annotator)
    (pdf_document : document) (row : para_row) (filename : str) :
  (process_paragraph parse_literal self pdf_document row filename = Ok None
   <-> para_Clipbounds row = None
       \/ isna (error_phrase row) = true
       \/ pdf_document (Page_Number row - 1)%Z = Raise IndexError
       \/ (exists pdf_page,
             pdf_document (Page_Number row - 1)%Z = Ok pdf_page
             /\ truthy (parse_error_phrases parse_literal
                          (cell_value (error_phrase row))) = false))
  /\ (forall boxes page',
        process_paragraph parse_literal self pdf_document row filename
        = Ok (Some (boxes, page')) ->
        exists pdf_page new,
          pdf_document (Page_Number row - 1)%Z = Ok pdf_page
          /\ new <> []
          /\ boxes = map annot_rect new
          /\ height page' = height pdf_page
          /\ page_annots page' = page_annots pdf_page ++ new).
Proof.
  unfold process_paragraph.
  destruct (para_Clipbounds row) as [b|]; [|split; [tauto | discriminate]].
  destruct (isna (error_phrase row)); [split; [tauto | discriminate]|].
  destruct (pdf_document (Page_Number row - 1)%Z) as [pdf_page|e] eqn:Hdoc.
  2:{ destruct e; (split; [|discriminate]); split;
        try tauto; try discriminate;
        intros [H|[H|[H|(pg & H & _)]]]; discriminate. }
  destruct (truthy _) eqn:Htruthy; cbn [negb].
  2:{ split; [|discriminate]. split; [|reflexivity].
      intros _. right. right. right. exists pdf_page. split; reflexivity. }
  destruct (select_rows_Ok (df_words self) filename (Page_Number row - 1 + 1)%Z
              (convert_and_buffer self (height pdf_page) b)) as [rows ->].
  run.
  set (st := PState [] (page_annots pdf_page)).
  set (step := match rows with
               | [] => highlight_paragraph st _ _
               | _ :: _ => process_word_matches self st rows _ _
               end).
  assert (Hshape : forall st', step = Ok st' ->
    exists new, new <> []
                /\ st' = PState (map annot_rect new) (page_annots pdf_page ++ new)).
  { intros st' H. subst step. destruct rows.
    - apply highlight_paragraph_shape in H as (a & Hrect & _ & ->).
      exists [a]. split; [discriminate|]. cbn. rewrite Hrect. reflexivity.
    - apply process_word_matches_shape in H as (new & Hne & ->).
      exists new. split; [exact Hne | reflexivity]. }
  destruct step as [st'|e]; run.
  - split.
    + split; [discriminate|].
      intros [H|[H|[H|(pg & H & Ht)]]]; discriminate.
    + intros boxes page' [= <- <-].
      destruct (Hshape st' eq_refl) as (new & Hne & ->).
      exists pdf_page, new. repeat split; auto.
  - split; [|discriminate]. split; [discriminate|].
    intros [H|[H|[H|(pg & H & Ht)]]]; discriminate.
Qed.

End StoredResults.

(** ** The results table and [verify_annotations] *)

Section ResultsTable.

Import PdfErrorAnnotator.

Lemma process_paragraph_stored parse_literal self pdf_document row filename
    boxes page' :
  process_paragraph parse_literal self pdf_document row filename
  = Ok (Some (boxes, page')) ->
  boxes <> [].
Proof.
  unfold process_paragraph.
  destruct (para_Clipbounds row) as [b|]; [|discriminate].
  destruct (isna (error_phrase row)); [discriminate|].
  destruct (pdf_document (Page_Number row - 1)%Z) as [pdf_page|e];
    [|destruct e; discriminate].
  destruct (truthy _); cbn [negb]; [|discriminate].
  destruct (select_rows_Ok (df_words self) filename (Page_Number row - 1 + 1)%Z
              (convert_and_buffer self (height pdf_page) b)) as [rows ->].
  run. destruct rows.
  - destruct (highlight_paragraph _ _ _) as [st'|] eqn:H; [|discriminate].
    apply highlight_paragraph_shape in H as (a & _ & _ & ->).
    run. intros [= <- _]. discriminate.
  - destruct (process_word_matches _ _ _ _ _) as [st'|] eqn:H; [|discriminate].
    apply process_word_matches_shape in H as (new & Hne & ->).
    run. intros [= <- _]. cbn. destruct new; [congruence | discriminate].
Qed.

Lemma verify_annotations_elem df_results i :
  i ∈ verify_annotations df_results
  <-> exists r, df_results !! i = Some r
                /\ isna (result_error_phrase r) = false
                /\ Annotation_bbox r = [].
Proof.
  unfold verify_annotations. rewrite list_elem_of_In, filter_In, in_seq.
  split.
  - intros [_ H]. destruct (df_results !! i) as [r|]; [|discriminate].
    apply andb_true_iff in H as [Hna Hlen].
    exists r. split; [reflexivity|]. split; [apply negb_true_iff, Hna|].
    apply Nat.eqb_eq in Hlen. destruct (Annotation_bbox r); [reflexivity|discriminate].
  - intros (r & Hr & Hna & Hbox). split.
    + apply lookup_lt_Some in Hr. lia.
    + rewrite Hr, Hna, Hbox. reflexivity.
Qed.

(** X13: after [load_data] and the processing of one paragraph, that
    paragraph is reported by [verify_annotations] exactly when it has a
    phrase cell and [process_paragraph] returned before storing anything;
    the rows of the other paragraphs are as [load_data] left them. *)
Theorem verify_reports_the_early_returns
    (parse_literal : str -> option pyval) (self : annotator)
    (pdf_document : document) (df_para : list para_row) (idx : nat)
    (row : para_row) (filename : str) (outcome : option (list bbox * page)) :
  df_para !! idx = Some row ->
  process_paragraph parse_literal self pdf_document row filename
  = Ok outcome ->
  let df_results := store_result (load_results df_para) idx outcome in
  (idx ∈ verify_annotations df_results
   <-> isna (error_phrase row) = false /\ outcome = None)
  /\ (forall j, j <> idx -> df_results !! j = load_results df_para !! j)
  /\ length df_results = length df_para.
Proof.
  intros Hrow Hrun. cbv zeta.
  assert (Hload : load_results df_para !! idx
                  = Some (ResultRow (error_phrase row) [])).
  { unfold load_results. rewrite list_lookup_fmap, Hrow. reflexivity. }
  rewrite verify_annotations_elem. destruct outcome as [[boxes page']|].
  - pose proof (process_paragraph_stored _ _ _ _ _ _ _ Hrun) as Hne.
    cbn [store_result]. split; [|split].
    + rewrite list_lookup_alter, Hload. cbn. split.
      * intros (r & Hr & _ & Hbox). cbn in Hr.
        destruct (decide (idx = idx)); [|congruence].
        injection Hr as <-. cbn in Hbox. congruence.
      * intros [_ H]. discriminate.
    + intros j Hj. apply list_lookup_alter_ne. congruence.
    + rewrite length_alter. apply length_map.
  - cbn [store_result]. split; [|split].
    + rewrite Hload. split.
      * intros (r & Hr & Hna & _). injection Hr as <-.
        split; [exact Hna | reflexivity].
      * intros [Hna _]. eexists. split; [reflexivity|]. split; [exact Hna|reflexivity].
    + reflexivity.
    + apply length_map.
Qed.

Lemma verify_reports_the_early_returns_witness :
  let df_results :=
    store_result (load_results [sample_para]) 0
      (Some ([Box (-5) 0 35 25],
             Page 100
               [Annot (Box (-5) 0 35 25) (Some POTENTIAL_ERROR_COLOR)
                  (py "Potential Errors: quikc")])) in
  (0 ∈ verify_annotations df_results
   <-> isna (error_phrase sample_para) = false
       /\ Some ([Box (-5) 0 35 25],
                Page 100
                  [Annot (Box (-5) 0 35 25) (Some POTENTIAL_ERROR_COLOR)
                     (py "Potential Errors: quikc")])
          = None)
  /\ (forall j, j <> 0 -> df_results !! j = load_results [sample_para] !! j)
  /\ length df_results = length [sample_para].
Proof.
  apply (verify_reports_the_early_returns (fun _ => None) sample_annotator
           sample_document [sample_para] 0 sample_para (py "doc.pdf"));
    [reflexivity | vm_compute; reflexivity].
Defined.

End ResultsTable.

(** ** [Simple.py] against the class *)

Section SimpleScript.

Import PdfErrorAnnotator.

(** Where the script's window selection returns, the class selects the same
    window. *)
Lemma simple_select_rows_Ok df filename page_number para_bbox rows :
  Simple.select_rows df filename page_number para_bbox = Ok rows ->
  select_rows df filename page_number para_bbox = Ok rows.
Proof.
  revert rows. induction df as [|w df IH]; intros rows H; [exact H|].
  cbn [Simple.select_rows select_rows] in *.
  destruct (_ && _).
  - destruct (word_Clipbounds w) as [b|]; [|discriminate H].
    cbn [Simple.is_within is_within mbind result_bind] in *.
    fold (within b para_bbox) in H.
    destruct (Simple.select_rows df filename page_number para_bbox)
      as [rest|]; [|discriminate H].
    rewrite (IH rest eq_refl). exact H.
  - cbn [mbind result_bind] in *.
    destruct (Simple.select_rows df filename page_number para_bbox)
      as [rest|]; [|discriminate H].
    rewrite (IH rest eq_refl). exact H.
Qed.

Lemma simple_select_rows_absent df filename page_number para_bbox :
  (exists w, w ∈ df /\ File_Name w = filename
             /\ word_Page_Number w = page_number
             /\ word_Clipbounds w = None) ->
  Simple.select_rows df filename page_number para_bbox = Raise TypeError.
Proof.
  induction df as [|w df IH]; intros (w0 & Hin & Hf & Hp & Hb); [inversion Hin|].
  cbn [Simple.select_rows].
  apply elem_of_cons in Hin as [<-|Hin].
  - rewrite Hf, Hp, Hb, !bool_decide_eq_true_2 by reflexivity. reflexivity.
  - rewrite IH by eauto.
    destruct (_ && _); [|reflexivity].
    destruct (word_Clipbounds w); reflexivity.
Qed.

(** Where the script's phrase loop returns, the loop of the class does the
    same. *)
Lemma simple_match_loop_Ok df_words matching_rows errors :
  forall found st r,
    Simple.match_loop df_words matching_rows errors found st = Ok r ->
    match_loop (Simple.config df_words) matching_rows errors found st = Ok r.
Proof.
  induction errors as [|e errors IH]; intros found st r H; [exact H|].
  cbn [Simple.match_loop match_loop] in *.
  unfold Simple.phrase_of in H.
  destruct (truthy e) eqn:Ht; cbn [negb] in H.
  - destruct e as [| | |s|]; cbn [mbind result_bind] in H; try discriminate H.
    destruct s as [|c s]; [discriminate Ht|]. cbn [phrase_of].
    destruct (match_word_indices matching_rows (c :: s)) as [idxs|];
      [|apply IH; exact H].
    destruct idxs as [|i idxs]; cbn [mbind result_bind] in *;
      [apply IH; exact H|].
    destruct (highlight_matched_words _ _ _ _ _) as [st'|];
      cbn [mbind result_bind] in *; [apply IH; exact H | discriminate H].
  - cbn [mbind result_bind] in H.
    assert (phrase_of e = None) as ->
      by (destruct e as [| | |[|c s]|]; try reflexivity; discriminate Ht).
    apply IH. exact H.
Qed.

(** A phrase cell that parses to something truthy is not empty. *)
Lemma truthy_parse_not_na parse_literal c :
  truthy (parse_error_phrases parse_literal (cell_value c)) = true ->
  isna c = false.
Proof. destruct c; [discriminate | reflexivity | reflexivity]. Qed.

(** X14: whenever the body of [Simple.py]'s paragraph loop reaches the
    update of the results table, the class, set up with the script's buffer
    and line tolerance and given the same paragraph, returns the same list
    of boxes and the same annotated page. *)
Theorem simple_script_agrees_with_the_class
    (parse_literal : str -> option pyval) (df_words : list word_record)
    (pdf_document : document) (row : Simple.para_row)
    (r : list bbox * page) :
  Simple.process_paragraph parse_literal df_words pdf_document row
  = Ok (Some r) ->
  process_paragraph parse_literal (Simple.config df_words) pdf_document
    (Simple.class_row row) (Simple.Asset_Name row)
  = Ok (Some r).
Proof.
  unfold Simple.process_paragraph, process_paragraph.
  cbn [Simple.class_row para_Clipbounds Page_Number error_phrase].
  destruct (pdf_document (Simple.Page_Number row - 1)%Z) as [pdf_page|];
    [|discriminate].
  run.
  destruct (truthy _) eqn:Ht; cbn [negb]; [|discriminate].
  rewrite (truthy_parse_not_na _ _ Ht).
  cbn [PdfErrorAnnotator.df_words Simple.config].
  destruct (Simple.select_rows _ _ _ _) as [rows|] eqn:Hrows; [|discriminate].
  rewrite (simple_select_rows_Ok _ _ _ _ _ Hrows). run.
  destruct rows as [|r0 rows]; [discriminate|].
  unfold process_word_matches.
  destruct (iterate _) as [errors|]; [|discriminate]. run.
  destruct (Simple.match_loop _ _ _ _ _) as [[found st']|] eqn:Hloop;
    [|discriminate].
  rewrite (simple_match_loop_Ok _ _ _ _ _ _ Hloop). run.
  destruct (negb found).
  - destruct (highlight_paragraph _ _ _) as [st''|]; [|discriminate].
    run. intros H. exact H.
  - run. intros H. exact H.
Qed.

(** The sample paragraph under the script's buffer. *)
Lemma simple_script_agrees_with_the_class_witness :
  let row :=
    Simple.ParaRow (py "doc.pdf") 1 (CellNum 7) (Box 0 95 30 80)
      (CellStr (py "quick")) in
  exists r,
    Simple.process_paragraph (fun _ => None) sample_words sample_document row
    = Ok (Some r)
    /\ process_paragraph (fun _ => None) (Simple.config sample_words)
         sample_document (Simple.class_row row) (Simple.Asset_Name row)
       = Ok (Some r).
Proof.
  cbv zeta. eexists. split; [vm_compute; reflexivity|].
  apply (simple_script_agrees_with_the_class (fun _ => None) sample_words
           sample_document
           (Simple.ParaRow (py "doc.pdf") 1 (CellNum 7) (Box 0 95 30 80)
              (CellStr (py "quick")))).
  vm_compute. reflexivity.
Defined.

(** X18: where the body of [Simple.py]'s paragraph loop takes a [continue],
    the page exists, and either the phrase cell parses to something falsy,
    and then the class returns without a result as well, whatever its
    settings; or the window is empty, and then the class, given the same
    paragraph and the script's settings, goes on to the whole-paragraph
    fallback, which the script does not have for an empty window. *)
Theorem simple_script_skips_the_empty_window
    (parse_literal : str -> option pyval) (df_words : list word_record)
    (pdf_document : document) (row : Simple.para_row) :
  Simple.process_paragraph parse_literal df_words pdf_document row
  = Ok None ->
  exists pdf_page,
    pdf_document (Simple.Page_Number row - 1)%Z = Ok pdf_page
    /\ ((truthy (parse_error_phrases parse_literal
                   (cell_value (Simple.error_phrase row))) = false
         /\ forall self filename,
              process_paragraph parse_literal self pdf_document
                (Simple.class_row row) filename = Ok None)
        \/ (truthy (parse_error_phrases parse_literal
                      (cell_value (Simple.error_phrase row))) = true
            /\ select_rows df_words (Simple.Asset_Name row)
                 (Simple.Page_Number row)
                 (convert_and_buffer (Simple.config df_words)
                    (height pdf_page) (Simple.para_Clipbounds row))
               = Ok []
            /\ process_paragraph parse_literal (Simple.config df_words)
                 pdf_document (Simple.class_row row) (Simple.Asset_Name row)
               = (st' ← highlight_paragraph
                          (PState [] (page_annots pdf_page))
                          (convert_and_buffer (Simple.config df_words)
                             (height pdf_page) (Simple.para_Clipbounds row))
                          (parse_error_phrases parse_literal
                             (cell_value (Simple.error_phrase row)));
                  Ok (Some (annotation_bboxes st',
                            Page (height pdf_page) (annots st')))))).
Proof.
  unfold Simple.process_paragraph.
  destruct (pdf_document (Simple.Page_Number row - 1)%Z) as [pdf_page|] eqn:Hdoc;
    [|discriminate].
  run. intros H. exists pdf_page. split; [reflexivity|].
  destruct (truthy _) eqn:Ht; cbn [negb] in H.
  - right. split; [reflexivity|].
    replace (Simple.Page_Number row - 1 + 1)%Z with (Simple.Page_Number row)
      in H by lia.
    destruct (Simple.select_rows _ _ _ _) as [rows|] eqn:Hrows;
      [|discriminate H].
    cbn [mbind result_bind] in H.
    destruct rows as [|r0 rows].
    + apply simple_select_rows_Ok in Hrows. split; [exact Hrows|].
      unfold process_paragraph.
      cbn [Simple.class_row para_Clipbounds Page_Number error_phrase].
      rewrite Hdoc, (truthy_parse_not_na _ _ Ht), Ht. cbn [negb].
      replace (Simple.Page_Number row - 1 + 1)%Z with (Simple.Page_Number row)
        by lia.
      cbn [PdfErrorAnnotator.df_words Simple.config] in *.
      rewrite Hrows. reflexivity.
    + destruct (iterate _) as [errors|]; [|discriminate H].
      cbn [mbind result_bind] in H.
      destruct (Simple.match_loop _ _ _ _ _) as [[found st']|];
        [|discriminate H].
      cbn [mbind result_bind] in H.
      destruct (negb found);
        [destruct (highlight_paragraph _ _ _); discriminate H | discriminate H].
  - left. split; [reflexivity|]. intros self filename.
    unfold process_paragraph.
    cbn [Simple.class_row para_Clipbounds Page_Number error_phrase].
    destruct (isna _); [reflexivity|]. rewrite Hdoc, Ht. reflexivity.
Qed.

(** The sample paragraph on a word table that holds no word. *)
Lemma simple_script_skips_the_empty_window_witness :
  let row :=
    Simple.ParaRow (py "doc.pdf") 1 (CellNum 7) (Box 0 95 30 80)
      (CellStr (py "quikc")) in
  exists pdf_page,
    sample_document (Simple.Page_Number row - 1)%Z = Ok pdf_page
    /\ ((truthy (parse_error_phrases (fun _ => None)
                   (cell_value (Simple.error_phrase row))) = false
         /\ forall self filename,
              process_paragraph (fun _ => None) self sample_document
                (Simple.class_row row) filename = Ok None)
        \/ (truthy (parse_error_phrases (fun _ => None)
                      (cell_value (Simple.error_phrase row))) = true
            /\ select_rows [] (Simple.Asset_Name row) (Simple.Page_Number row)
                 (convert_and_buffer (Simple.config [])
                    (height pdf_page) (Simple.para_Clipbounds row))
               = Ok []
            /\ process_paragraph (fun _ => None) (Simple.config [])
                 sample_document (Simple.class_row row) (Simple.Asset_Name row)
               = (st' ← highlight_paragraph
                          (PState [] (page_annots pdf_page))
                          (convert_and_buffer (Simple.config [])
                             (height pdf_page) (Simple.para_Clipbounds row))
                          (parse_error_phrases (fun _ => None)
                             (cell_value (Simple.error_phrase row)));
                  Ok (Some (annotation_bboxes st',
                            Page (height pdf_page) (annots st')))))).
Proof.
  apply (simple_script_skips_the_empty_window (fun _ => None) []
           sample_document
           (Simple.ParaRow (py "doc.pdf") 1 (CellNum 7) (Box 0 95 30 80)
              (CellStr (py "quikc")))).
  reflexivity.
Defined.

(** X15: a paragraph on a page the document does not hold: the script
    subscripts the document unguarded and the exception leaves the loop
    body, whatever the phrase cell holds; the class catches it and returns
    without storing anything. *)
Theorem simple_script_raises_on_a_missing_page
    (parse_literal : str -> option pyval) (df_words : list word_record)
    (pdf_document : document) (row : Simple.para_row) :
  pdf_document (Simple.Page_Number row - 1)%Z = Raise IndexError ->
  Simple.process_paragraph parse_literal df_words pdf_document row
  = Raise IndexError
  /\ forall self filename,
       process_paragraph parse_literal self pdf_document
         (Simple.class_row row) filename
       = Ok None.
Proof.
  intros Hdoc. split.
  - unfold Simple.process_paragraph. rewrite Hdoc. reflexivity.
  - intros self filename. unfold process_paragraph.
    cbn [Simple.class_row para_Clipbounds Page_Number error_phrase].
    rewrite Hdoc. destruct (isna _); reflexivity.
Qed.

(** The sample paragraph moved to page 2 of the one-page document. *)
Lemma simple_script_raises_on_a_missing_page_witness :
  let row :=
    Simple.ParaRow (py "doc.pdf") 2 (CellNum 7) (Box 0 95 30 80)
      (CellStr (py "quikc")) in
  Simple.process_paragraph (fun _ => None) sample_words sample_document row
  = Raise IndexError
  /\ forall self filename,
       process_paragraph (fun _ => None) self sample_document
         (Simple.class_row row) filename
       = Ok None.
Proof.
  apply (simple_script_raises_on_a_missing_page (fun _ => None) sample_words
           sample_document
           (Simple.ParaRow (py "doc.pdf") 2 (CellNum 7) (Box 0 95 30 80)
              (CellStr (py "quikc")))).
  reflexivity.
Defined.

Lemma select_rows_drops_boxless df filename page_number para_bbox :
  select_rows df filename page_number para_bbox
  = select_rows (filter (fun w => is_Some (word_Clipbounds w)) df) filename
      page_number para_bbox.
Proof.
  induction df as [|w df IH]; [reflexivity|].
  rewrite filter_cons. destruct (decide (is_Some (word_Clipbounds w))) as [Hw|Hw].
  - cbn [select_rows]. rewrite IH. reflexivity.
  - cbn [select_rows]. rewrite <- IH.
    destruct (select_rows_Ok df filename page_number para_bbox) as [rows ->].
    destruct (word_Clipbounds w) as [b|]; [exfalso; apply Hw; eauto|].
    destruct (_ && _); reflexivity.
Qed.

(** X16: a row of the word table on the paragraph's file and page whose
    box is Python's [None]: the script's containment test subscripts it, so
    a paragraph on an existing page with a truthy phrase list ends in
    [TypeError]; the class's test returns [False] for it, so the class
    selects its window as if the rows whose box is [None] were not in the
    table. *)
Theorem simple_script_raises_on_a_word_without_box
    (parse_literal : str -> option pyval) (df_words : list word_record)
    (pdf_document : document) (row : Simple.para_row)
    (pdf_page : page) (w : word_record) :
  pdf_document (Simple.Page_Number row - 1)%Z = Ok pdf_page ->
  truthy (parse_error_phrases parse_literal
            (cell_value (Simple.error_phrase row)))
  = true ->
  w ∈ df_words ->
  File_Name w = Simple.Asset_Name row ->
  word_Page_Number w = Simple.Page_Number row ->
  word_Clipbounds w = None ->
  Simple.process_paragraph parse_literal df_words pdf_document row
  = Raise TypeError
  /\ forall para_bbox,
       select_rows df_words (Simple.Asset_Name row) (Simple.Page_Number row)
         para_bbox
       = select_rows (filter (fun w' => is_Some (word_Clipbounds w')) df_words)
           (Simple.Asset_Name row) (Simple.Page_Number row) para_bbox.
Proof.
  intros Hdoc Htruthy Hin Hf Hp Hbox. split.
  - unfold Simple.process_paragraph. rewrite Hdoc. run. rewrite Htruthy.
    cbn [negb].
    replace (Simple.Page_Number row - 1 + 1)%Z with (Simple.Page_Number row)
      by lia.
    rewrite simple_select_rows_absent by eauto 6. reflexivity.
  - intros para_bbox. apply select_rows_drops_boxless.
Qed.

(** The sample table with a row of page 1 whose box is [None]. *)
Lemma simple_script_raises_on_a_word_without_box_witness :
  let w := WordRecord (py "doc.pdf") 1 None (py "lazy") SpanNaN SpanNaN in
  let row :=
    Simple.ParaRow (py "doc.pdf") 1 (CellNum 7) (Box 0 95 30 80)
      (CellStr (py "quikc")) in
  Simple.process_paragraph (fun _ => None) (sample_words ++ [w])
    sample_document row
  = Raise TypeError
  /\ forall para_bbox,
       select_rows (sample_words ++ [w]) (Simple.Asset_Name row)
         (Simple.Page_Number row) para_bbox
       = select_rows
           (filter (fun w' => is_Some (word_Clipbounds w'))
              (sample_words ++ [w]))
           (Simple.Asset_Name row) (Simple.Page_Number row) para_bbox.
Proof.
  apply (simple_script_raises_on_a_word_without_box (fun _ => None)
           (sample_words
            ++ [WordRecord (py "doc.pdf") 1 None (py "lazy") SpanNaN SpanNaN])
           sample_document
           (Simple.ParaRow (py "doc.pdf") 1 (CellNum 7) (Box 0 95 30 80)
              (CellStr (py "quikc")))
           (Page 100 [])
           (WordRecord (py "doc.pdf") 1 None (py "lazy") SpanNaN SpanNaN));
    try reflexivity.
  apply elem_of_app. right. apply list_elem_of_singleton. reflexivity.
Defined.

End SimpleScript.

(** ** Where [Simple.py] stores its result *)

Section SimpleResults.

Import PdfErrorAnnotator.

Lemma filter_seq_head (f : nat -> bool) n :
  forall a i l,
    List.filter f (seq a n) = i :: l ->
    f i = true /\ a <= i < a + n /\ forall j, a <= j < i -> f j = false.
Proof.
  induction n as [|n IH]; intros a i l H; [discriminate|].
  cbn [seq List.filter] in H. destruct (f a) eqn:Hfa.
  - injection H as <- _. split; [exact Hfa|]. split; [lia|]. intros j Hj. lia.
  - destruct (IH _ _ _ H) as (Hfi & Hi & Hbefore).
    split; [exact Hfi|]. split; [lia|]. intros j Hj.
    destruct (decide (j = a)) as [->|Hne]; [exact Hfa|]. apply Hbefore. lia.
Qed.

Lemma filter_seq_nil_inv (f : nat -> bool) n :
  forall a, List.filter f (seq a n) = [] ->
            forall j, a <= j < a + n -> f j = false.
Proof.
  induction n as [|n IH]; intros a H j Hj; [lia|].
  cbn [seq List.filter] in H. destruct (f a) eqn:Hfa; [discriminate|].
  destruct (decide (j = a)) as [->|Hne]; [exact Hfa|]. apply (IH _ H). lia.
Qed.

(** A cell is equal to itself unless it is NaN, and nothing is equal to
    NaN. *)
Lemma cell_eq_refl c : Simple.cell_eq c c = true <-> c <> CellNaN.
Proof.
  destruct c as [|s|q]; cbn.
  - split; [discriminate | congruence].
  - rewrite bool_decide_eq_true. split; [discriminate | reflexivity].
  - split; [discriminate|]. intros _. apply Qeq_bool_iff. reflexivity.
Qed.

Lemma cell_eq_nan c : Simple.cell_eq c CellNaN = false.
Proof. destruct c; reflexivity. Qed.

(** X19: [Simple.py] stores the list of a paragraph by looking its key up
    in the results table: the list lands on the first row with the file,
    page and Atom ID of the paragraph, which is the paragraph's own row only
    when no earlier row has the same key; no other row changes. When an
    earlier row has the key, the paragraph's own row keeps what it held; and
    a paragraph whose Atom ID is NaN matches no row, itself included, so
    that its list is not stored at all. *)
Theorem simple_stores_on_the_first_row_with_the_key
    (df_results : list Simple.result_row) (idx : nat)
    (r : Simple.result_row) (annotation_bboxes : list bbox) :
  df_results !! idx = Some r ->
  let row := Simple.result_para r in
  let stored := Simple.store_result df_results row annotation_bboxes in
  length stored = length df_results
  /\ (Simple.Atom_ID row = CellNaN -> stored = df_results)
  /\ (Simple.Atom_ID row <> CellNaN ->
      exists i r0,
        i <= idx
        /\ df_results !! i = Some r0
        /\ Simple.key_matches r0 row = true
        /\ (forall j r', j < i -> df_results !! j = Some r' ->
              Simple.key_matches r' row = false)
        /\ stored
           = <[i := Simple.ResultRow (Simple.result_para r0)
                      annotation_bboxes]> df_results
        /\ (i < idx -> stored !! idx = Some r)).
Proof.
  intros Hr row stored. subst stored. unfold Simple.store_result.
  set (f := fun i => match df_results !! i with
                     | Some r => Simple.key_matches r row
                     | None => false
                     end).
  assert (Hidx : idx < length df_results) by (eapply lookup_lt_Some; eauto).
  assert (Hown : Simple.Atom_ID row <> CellNaN -> f idx = true).
  { intros Hid. unfold f. rewrite Hr. unfold Simple.key_matches. subst row.
    rewrite !bool_decide_eq_true_2 by reflexivity.
    apply cell_eq_refl. exact Hid. }
  unfold Simple.results_idx. fold f.
  destruct (List.filter f (seq 0 (length df_results))) as [|i l] eqn:Hf.
  - split; [reflexivity|]. split; [reflexivity|]. intros Hid.
    rewrite (filter_seq_nil_inv f _ 0 Hf idx ltac:(lia)) in Hown.
    discriminate (Hown Hid).
  - destruct (filter_seq_head f _ _ _ _ Hf) as (Hfi & Hi & Hbefore).
    unfold f in Hfi.
    destruct (df_results !! i) as [r0|] eqn:Hr0; [|discriminate].
    split; [apply length_alter|]. split.
    + intros Hid. unfold Simple.key_matches in Hfi.
      rewrite Hid, cell_eq_nan, andb_false_r in Hfi. discriminate.
    + intros Hid. exists i, r0.
      assert (Hle : i <= idx).
      { destruct (decide (i <= idx)); [assumption|].
        rewrite (Hbefore idx ltac:(lia)) in Hown. discriminate (Hown Hid). }
      split; [exact Hle|]. split; [exact Hr0|]. split; [exact Hfi|].
      split; [|split].
      * intros j r' Hj Hr'. specialize (Hbefore j ltac:(lia)).
        unfold f in Hbefore. rewrite Hr' in Hbefore. exact Hbefore.
      * rewrite list_insert_alter. apply list_alter_ext; [|reflexivity].
        intros x Hx. rewrite Hr0 in Hx. injection Hx as <-. reflexivity.
      * intros Hlt. rewrite list_lookup_alter_ne by lia. exact Hr.
Qed.

(** Two paragraphs of one page with the same Atom ID: the list of the
    second is written over the list of the first, and the row of the second
    stays empty. *)
Lemma simple_stores_on_the_first_row_with_the_key_witness :
  let p1 :=
    Simple.ParaRow (py "doc.pdf") 1 (CellNum 7) (Box 0 95 30 80)
      (CellStr (py "quikc")) in
  let p2 :=
    Simple.ParaRow (py "doc.pdf") 1 (CellNum 7) (Box 0 60 30 45)
      (CellStr (py "lazy")) in
  let df_results :=
    [Simple.ResultRow p1 [Box 1 1 2 2]; Simple.ResultRow p2 []] in
  let stored := Simple.store_result df_results p2 [Box 3 3 4 4] in
  stored = [Simple.ResultRow p1 [Box 3 3 4 4]; Simple.ResultRow p2 []]
  /\ length stored = length df_results
  /\ (Simple.Atom_ID p2 = CellNaN -> stored = df_results)
  /\ (Simple.Atom_ID p2 <> CellNaN ->
      exists i r0,
        i <= 1
        /\ df_results !! i = Some r0
        /\ Simple.key_matches r0 p2 = true
        /\ (forall j r', j < i -> df_results !! j = Some r' ->
              Simple.key_matches r' p2 = false)
        /\ stored
           = <[i := Simple.ResultRow (Simple.result_para r0) [Box 3 3 4 4]]>
               df_results
        /\ (i < 1 -> stored !! 1 = Some (Simple.ResultRow p2 []))).
Proof.
  cbv zeta. split; [vm_compute; reflexivity|].
  apply (simple_stores_on_the_first_row_with_the_key
           [Simple.ResultRow
              (Simple.ParaRow (py "doc.pdf") 1 (CellNum 7) (Box 0 95 30 80)
                 (CellStr (py "quikc"))) [Box 1 1 2 2];
            Simple.ResultRow
              (Simple.ParaRow (py "doc.pdf") 1 (CellNum 7) (Box 0 60 30 45)
                 (CellStr (py "lazy"))) []]
           1
           (Simple.ResultRow
              (Simple.ParaRow (py "doc.pdf") 1 (CellNum 7) (Box 0 60 30 45)
                 (CellStr (py "lazy"))) [])
           [Box 3 3 4 4]).
  reflexivity.
Defined.

End SimpleResults.
